(** * AI Interview Simulator: a shallow embedding of [app.py]

    The development follows the Streamlit script [app.py]:

    - Python values are modelled as the script has them: [str] as [string]
      (each character stands for one code point below 256), [int] as [Z],
      [dict] with string keys as [gmap string _], [list] as [list];
    - exceptions are explicit: a computation returns a [Result], and the
      page functions run in the monad [M], which threads the session
      ([st.session_state], the state of the [random] module and the
      diagnostics shown with [st.error]) and may raise;
    - the two remote services and the clock are inputs of the functions
      that call them, so that every statement quantifies over whatever
      they answer. *)

From Stdlib Require Import ZArith Ascii String List Bool Lia.
From Stdlib Require Import DecimalString Sorted.
From stdpp Require Import gmap strings list fin_maps sorting.

Local Open Scope Z_scope.

(** ** Exceptions *)

(** [st.rerun()] stops the script by raising a control exception that
    derives from [BaseException]: [except Exception] lets it through, a
    bare [except:] does not. *)
Inductive Exn : Type :=
  | Exception (msg : string)
  | RerunException.

Inductive Result (A : Type) : Type :=
  | Ok (a : A)
  | Raised (e : Exn).
Arguments Ok {A} a.
Arguments Raised {A} e.

Definition rbind {A B} (r : Result A) (k : A → Result B) : Result B :=
  match r with
  | Ok a => k a
  | Raised e => Raised e
  end.

(** [try: body / except: handler] (bare [except], catches everything). *)
Definition try_except_all {A} (body : Result A) (handler : Result A) : Result A :=
  match body with
  | Ok a => Ok a
  | Raised _ => handler
  end.

(** ** Python string primitives *)

Module Py.

(** [str.isspace] on code points below 256. *)
Definition isspace (c : ascii) : bool :=
  let n := N_of_ascii c in
  ((9 <=? n) && (n <=? 13) || (28 <=? n) && (n <=? 32) || (n =? 133) || (n =? 160))%N.

Fixpoint lstrip (s : string) : string :=
  match s with
  | EmptyString => EmptyString
  | String c s' => if isspace c then lstrip s' else s
  end.

Fixpoint rstrip (s : string) : string :=
  match s with
  | EmptyString => EmptyString
  | String c s' =>
      match rstrip s' with
      | EmptyString => if isspace c then EmptyString else String c EmptyString
      | r => String c r
      end
  end.

(** [s.strip()] *)
Definition strip (s : string) : string := rstrip (lstrip s).

(** [s.startswith(p)] *)
Definition startswith (p s : string) : bool := String.prefix p s.

(** [s.replace(old, new)] for a non-empty [old]: occurrences are replaced
    from the left and do not overlap; [skip] counts the characters of a
    matched occurrence that remain to be dropped. *)
Fixpoint replace_from (old new : string) (skip : nat) (s : string) : string :=
  match s with
  | EmptyString => EmptyString
  | String c s' =>
      match skip with
      | S k => replace_from old new k s'
      | O =>
          if String.prefix old s
          then new +:+ replace_from old new (Nat.pred (String.length old)) s'
          else String c (replace_from old new 0 s')
      end
  end.

Definition replace (old new s : string) : string := replace_from old new 0 s.

(** [s.split(sep)] for a one-character separator. *)
Fixpoint split (sep : ascii) (s : string) : list string :=
  match s with
  | EmptyString => [EmptyString]
  | String c s' =>
      if Ascii.eqb c sep then EmptyString :: split sep s'
      else match split sep s' with
           | w :: ws => String c w :: ws
           | [] => [String c EmptyString]
           end
  end.

(** [len(s.split())]: the number of maximal runs of non-blank characters;
    [inword] tells whether the previous character belonged to a word. *)
Fixpoint count_words (inword : bool) (s : string) : nat :=
  match s with
  | EmptyString => O
  | String c s' =>
      if isspace c then count_words false s'
      else if inword then count_words true s'
      else S (count_words true s')
  end.

(** [sep.join(words)] *)
Fixpoint join (sep : string) (words : list string) : string :=
  match words with
  | [] => EmptyString
  | [w] => w
  | w :: ws => w +:+ sep +:+ join sep ws
  end.

(** [s[:n]] for [n >= 0]. *)
Fixpoint take (n : nat) (s : string) : string :=
  match n, s with
  | S k, String c s' => String c (take k s')
  | _, _ => EmptyString
  end.

(** [str(n)] for an [int]. *)
Definition str (n : Z) : string := NilZero.string_of_int (Z.to_int n).

(** *** [int(s)]

    The literal is blank-trimmed, may carry one sign, and consists of
    decimal digits with single underscores allowed between digits. More
    than [int_max_str_digits] digits are refused (the interpreter's
    default limit), like every malformed literal, with [ValueError]. *)

Definition int_max_str_digits : nat := 4300.

Definition digit_value (c : ascii) : option Z :=
  let n := N_of_ascii c in
  if ((48 <=? n) && (n <=? 57))%N then Some (Z.of_N n - 48) else None.

Inductive Prev := AtStart | AfterDigit | AfterUnderscore.

(** Scan of the digits: accumulated value, number of digits seen, kind of
    the previous character. *)
Fixpoint scan_digits (acc : Z) (ndigits : nat) (prev : Prev) (s : string)
  : option (Z * nat) :=
  match s with
  | EmptyString =>
      match prev with
      | AfterDigit => Some (acc, ndigits)
      | _ => None
      end
  | String c s' =>
      match digit_value c with
      | Some d => scan_digits (10 * acc + d) (S ndigits) AfterDigit s'
      | None =>
          if Ascii.eqb c "_"
          then match prev with
               | AfterDigit => scan_digits acc ndigits AfterUnderscore s'
               | _ => None
               end
          else None
      end
  end.

Definition unsigned_int (s : string) : option Z :=
  match scan_digits 0 0 AtStart s with
  | Some (v, n) => if (n <=? int_max_str_digits)%nat then Some v else None
  | None => None
  end.

Definition parse_int (s : string) : option Z :=
  match strip s with
  | String "+" s' => unsigned_int s'
  | String "-" s' => Z.opp <$> unsigned_int s'
  | s' => unsigned_int s'
  end.

Definition int (s : string) : Result Z :=
  match parse_int s with
  | Some n => Ok n
  | None => Raised (Exception ("invalid literal for int() with base 10: " +:+ s))
  end.

End Py.

(** ** The evaluation dictionary *)

(** The dictionary returned by [evaluate_with_gpt] and [get_demo_feedback]. *)
Record Feedback : Type := mkFeedback {
  score : Z;
  strengths : list string;
  improvements : list string;
  feedback : string
}.

Definition set_score (v : Z) (r : Feedback) : Feedback :=
  mkFeedback v (strengths r) (improvements r) (feedback r).
Definition set_strengths (v : list string) (r : Feedback) : Feedback :=
  mkFeedback (score r) v (improvements r) (feedback r).
Definition set_improvements (v : list string) (r : Feedback) : Feedback :=
  mkFeedback (score r) (strengths r) v (feedback r).
Definition set_feedback (v : string) (r : Feedback) : Feedback :=
  mkFeedback (score r) (strengths r) (improvements r) v.

(** ** Parsing the evaluator's reply ([evaluate_with_gpt], lines 545-580) *)

(** [[s.strip() for s in text.split(',') if s.strip()]] *)
Definition comma_items (text : string) : list string :=
  List.filter (λ s, negb (String.eqb s "")) (Py.strip <$> Py.split "," text).

(** The text after a label: [line.replace(label, '').strip()]. *)
Definition label_value (label line : string) : string :=
  Py.strip (Py.replace label "" line).

(** One iteration of [for line in lines]. *)
Definition parse_line (result : Feedback) (line : string) : Result Feedback :=
  let line := Py.strip line in
  if Py.startswith "SCORE:" line then
    try_except_all
      (let score_text := label_value "SCORE:" line in
       rbind (Py.int score_text) (λ n, Ok (set_score n result)))
      (Ok (set_score 50 result))
  else if Py.startswith "STRENGTHS:" line then
    let strengths_text := label_value "STRENGTHS:" line in
    Ok (set_strengths (comma_items strengths_text) result)
  else if Py.startswith "IMPROVEMENTS:" line then
    let improvements_text := label_value "IMPROVEMENTS:" line in
    Ok (set_improvements (comma_items improvements_text) result)
  else if Py.startswith "FEEDBACK:" line then
    let feedback_text := label_value "FEEDBACK:" line in
    Ok (set_feedback feedback_text result)
  else Ok result.

Fixpoint parse_lines (result : Feedback) (lines : list string) : Result Feedback :=
  match lines with
  | [] => Ok result
  | line :: rest => rbind (parse_line result line) (λ r, parse_lines r rest)
  end.

Definition default_strengths : list string :=
  ["Clear communication"; "Good attempt"].
Definition default_improvements : list string :=
  ["Add more technical details"; "Be more specific"].
Definition default_feedback : string :=
  "Good effort. Consider providing more specific technical details and examples to improve your answer.".

(** The three [if not result[...]] replacements after the loop. *)
Definition fill_defaults (r : Feedback) : Feedback :=
  let r := match strengths r with [] => set_strengths default_strengths r | _ => r end in
  let r := match improvements r with [] => set_improvements default_improvements r | _ => r end in
  if String.eqb (feedback r) "" then set_feedback default_feedback r else r.

Definition parse_response (response_text : string) : Result Feedback :=
  let result := mkFeedback 50 [] [] "" in
  let lines := Py.split "010" response_text in
  rbind (parse_lines result lines) (λ r, Ok (fill_defaults r)).

Definition nl : string := String "010" EmptyString.

(** ** The question bank *)

(** One entry of [QUESTIONS]. The keys ['id'] and ['question'] are the
    fields [ident] and [question_text]. *)
Record Question : Type := mkQuestion {
  ident : Z;
  category : string;
  question_text : string;
  keywords : list string;
  ideal_length : string;
  difficulty : string;
  demo_transcripts : list string
}.

Definition QUESTIONS : list Question := [
  {| ident := 1;
     category := "Data Structures";
     question_text := "Explain the difference between an array and a linked list.";
     keywords := ["array";
                  "linked list";
                  "memory allocation";
                  "access time";
                  "insertion";
                  "deletion"];
     ideal_length := "250-500 words";
     difficulty := "Medium";
     demo_transcripts :=
       ["Arrays and linked lists are both linear data structures but differ significantly in memory allocation. Arrays use contiguous memory blocks, allowing O(1) access time but making insertions/deletions expensive at O(n). Linked lists use non-contiguous memory with pointers, providing O(1) insertions/deletions but O(n) access time. Arrays have fixed size while linked lists are dynamic.";
        "The key difference lies in memory organization. Arrays allocate contiguous memory, making cache utilization efficient but resizing costly. Linked lists use scattered memory with nodes containing data and next pointers, enabling efficient insertions but poor cache locality. Arrays support random access; linked lists require sequential traversal."] |};
  {| ident := 2;
     category := "Algorithms";
     question_text := "What is the time complexity of binary search and how does it work?";
     keywords := ["binary search";
                  "time complexity";
                  "O(log n)";
                  "sorted array";
                  "divide and conquer"];
     ideal_length := "100-200 words";
     difficulty := "Easy";
     demo_transcripts :=
       ["Binary search has O(log n) time complexity. It works by repeatedly dividing a sorted array in half. You start with the middle element - if it matches the target, you're done. If the target is smaller, search the left half; if larger, search the right half. Continue until found or the search space is empty. It requires the array to be sorted.";
        "Binary search operates in O(log n) time. The algorithm compares the target value to the middle element of a sorted array. Based on comparison, it eliminates half of the remaining elements. This divide-and-conquer approach dramatically reduces search time compared to linear search's O(n)."] |};
  {| ident := 3;
     category := "System Design";
     question_text := "How would you design a URL shortening service like bit.ly?";
     keywords := ["hash function";
                  "database";
                  "scalability";
                  "cache";
                  "redirect";
                  "unique ID"];
     ideal_length := "300-500 words";
     difficulty := "Hard";
     demo_transcripts :=
       ["A URL shortener needs several components: a unique ID generator using hash functions like Base62, a database to map short codes to original URLs, a caching layer like Redis for frequent URLs, and a redirect service. The system must handle high traffic, ensure collision-free hashing, and provide analytics. Considerations include scalability, cache invalidation, and monitoring.";
        "Key components include: 1) Encoding service that converts long URLs to short codes using hash algorithms, 2) Database storage for mappings, 3) Cache for popular URLs, 4) Redirect service with 301/302 responses, 5) Analytics tracking. Design considerations: load balancing, database sharding, CDN usage, and rate limiting."] |};
  {| ident := 4;
     category := "Algorithms";
     question_text := "Explain how a hash table works and its time complexity.";
     keywords := ["hash function";
                  "collision";
                  "bucket";
                  "load factor";
                  "O(1)";
                  "chaining"];
     ideal_length := "150-300 words";
     difficulty := "Medium";
     demo_transcripts :=
       ["Hash tables map keys to values using a hash function that converts keys to array indices. They offer average O(1) time for insert, delete, and search operations. Collisions occur when different keys hash to the same index, resolved via chaining (linked lists) or open addressing. Load factor triggers resizing to maintain efficiency.";
        "A hash table uses a hash function to compute an index into an array of buckets. Ideally, this provides O(1) average-case complexity. Collision resolution methods include separate chaining and open addressing. Performance degrades with high load factor, requiring rehashing. Good hash functions distribute keys uniformly."] |};
  {| ident := 5;
     category := "Data Structures";
     question_text := "What are the differences between a stack and a queue?";
     keywords := ["LIFO";
                  "FIFO";
                  "operations";
                  "use cases";
                  "implementation"];
     ideal_length := "100-200 words";
     difficulty := "Easy";
     demo_transcripts :=
       ["Stacks follow LIFO (Last-In-First-Out) with push/pop operations, used for function calls, undo operations, and parsing. Queues follow FIFO (First-In-First-Out) with enqueue/dequeue operations, used for task scheduling, BFS, and messaging systems. Both can be implemented using arrays or linked lists with different access patterns.";
        "Key difference: access order. Stack is LIFO - last element added is first removed. Queue is FIFO - first element added is first removed. Common stack operations: push, pop, peek. Queue operations: enqueue, dequeue, front. Stacks for recursion/backtracking, queues for breadth-first processing."] |};
  {| ident := 6;
     category := "System Design";
     question_text := "Describe how you would design a simple chat application.";
     keywords := ["real-time";
                  "websockets";
                  "database";
                  "scalability";
                  "message queue";
                  "authentication"];
     ideal_length := "250-400 words";
     difficulty := "Hard";
     demo_transcripts :=
       ["A chat app requires: 1) WebSocket connections for real-time communication, 2) Message broker for distribution, 3) Database for message persistence, 4) Authentication service, 5) Notification service for offline users. Design considerations: connection management, message ordering, read receipts, typing indicators, and media handling.";
        "Core components include: client-server WebSocket connections, message queue (Kafka/RabbitMQ) for decoupling, database (SQL for users, NoSQL for messages), caching for active sessions, and push notification service. Must handle concurrent connections, message delivery guarantees, and presence tracking."] |};
  {| ident := 7;
     category := "Behavioral";
     question_text := "Tell me about a challenging project you worked on and how you overcame obstacles.";
     keywords := ["challenge";
                  "solution";
                  "teamwork";
                  "learning";
                  "results"];
     ideal_length := "200-350 words";
     difficulty := "Medium";
     demo_transcripts :=
       ["I worked on a legacy system migration with tight deadlines. Challenges included undocumented APIs and team knowledge gaps. I overcame this by creating detailed documentation, pairing with senior engineers, and implementing incremental migration with feature flags. The project completed on time with zero downtime.";
        "The most challenging project involved optimizing database queries that were causing performance issues. I systematically analyzed query patterns, implementing indexing strategies, introduced caching, and refactored inefficient joins. Through careful monitoring and A/B testing, we achieved 70% performance improvement."] |};
  {| ident := 8;
     category := "Algorithms";
     question_text := "What is dynamic programming and when would you use it?";
     keywords := ["memoization";
                  "optimal substructure";
                  "overlapping subproblems";
                  "Fibonacci";
                  "examples"];
     ideal_length := "150-250 words";
     difficulty := "Medium";
     demo_transcripts :=
       ["Dynamic programming solves complex problems by breaking them into overlapping subproblems and storing solutions to avoid recomputation. It applies when problems have optimal substructure and overlapping subproblems. Examples: Fibonacci sequence, knapsack problem, shortest path algorithms. Techniques include memoization (top-down) and tabulation (bottom-up).";
        "DP optimizes recursive solutions by caching intermediate results. Use it for problems where the same subproblems recur, like calculating Fibonacci numbers or finding the longest common subsequence. The key insight is trading space for time by storing computed results in a table or dictionary."] |};
  {| ident := 9;
     category := "Data Structures";
     question_text := "Compare and contrast B-trees and binary search trees.";
     keywords := ["balanced";
                  "height";
                  "disk access";
                  "database indexing";
                  "nodes";
                  "children"];
     ideal_length := "150-250 words";
     difficulty := "Hard";
     demo_transcripts :=
       ["B-trees are balanced m-way trees optimized for disk access, with nodes containing multiple keys and children. Binary search trees are binary trees with at most two children per node. B-trees minimize disk I/O by having larger node sizes matching disk blocks, while BSTs are memory-optimized. B-trees auto-balance, BSTs may become unbalanced.";
        "Key differences: B-trees have multiple keys per node and maintain balance automatically, making them ideal for databases and file systems. BSTs have one key per node and can degrade to O(n) if unbalanced. B-trees have lower height, reducing disk accesses for large datasets stored externally."] |};
  {| ident := 10;
     category := "Behavioral";
     question_text := "How do you handle conflicts when working in a team?";
     keywords := ["communication";
                  "compromise";
                  "perspective";
                  "resolution";
                  "professionalism"];
     ideal_length := "150-250 words";
     difficulty := "Medium";
     demo_transcripts :=
       ["I handle conflicts through open communication, focusing on issues not people. First, I listen to understand all perspectives. Then, I facilitate discussion to find common ground, proposing data-driven solutions. If needed, I escalate to a manager. The goal is constructive resolution that strengthens the team, not winning arguments.";
        "My approach: 1) Address issues early before escalation, 2) Focus on facts and project goals, 3) Seek compromise through brainstorming alternatives, 4) Document agreements, 5) Follow up to ensure resolution. I believe diverse perspectives strengthen outcomes when managed constructively."] |}
].

(** The prompt sent to the evaluator (lines 501-533). *)
Definition evaluation_prompt (q : Question) (answer : string) : string :=
  nl +:+
  "        You are a technical interview evaluator. Evaluate this answer for an interview question." +:+
  nl +:+
  "        " +:+
  nl +:+
  "        QUESTION: " +:+
  question_text q +:+
  nl +:+
  "        CATEGORY: " +:+
  category q +:+
  nl +:+
  "        DIFFICULTY: " +:+
  difficulty q +:+
  nl +:+
  "        KEY CONCEPTS: " +:+
  Py.join ", " (keywords q) +:+
  nl +:+
  "        " +:+
  nl +:+
  "        STUDENT'S ANSWER: " +:+
  answer +:+
  nl +:+
  "        " +:+
  nl +:+
  "        Provide a SINGLE overall score from 0-100 based on:" +:+
  nl +:+
  "        1. Technical accuracy and correctness" +:+
  nl +:+
  "        2. Completeness - covering all key concepts" +:+
  nl +:+
  "        3. Clarity and organization" +:+
  nl +:+
  "        4. Depth of understanding" +:+
  nl +:+
  "        5. Conciseness - appropriate length" +:+
  nl +:+
  "        " +:+
  nl +:+
  "        Scoring guidelines:" +:+
  nl +:+
  "        - 90-100: Excellent - Comprehensive, accurate, well-structured" +:+
  nl +:+
  "        - 80-89: Very Good - Solid understanding, minor improvements needed" +:+
  nl +:+
  "        - 70-79: Good - Understands concepts, needs more depth" +:+
  nl +:+
  "        - 60-69: Satisfactory - Basic understanding, some gaps" +:+
  nl +:+
  "        - 50-59: Needs Work - Significant gaps or inaccuracies" +:+
  nl +:+
  "        - Below 50: Poor - Major issues or incomplete" +:+
  nl +:+
  "        " +:+
  nl +:+
  "        Provide evaluation in this exact format:" +:+
  nl +:+
  "        SCORE: [single number 0-100]" +:+
  nl +:+
  "        STRENGTHS: [2-3 specific strengths]" +:+
  nl +:+
  "        IMPROVEMENTS: [2-3 specific areas for improvement]" +:+
  nl +:+
  "        FEEDBACK: [3-4 sentences with specific feedback]" +:+
  nl +:+
  "        " +:+
  nl +:+
  "        Be honest and realistic in scoring. A poor answer should get a low score." +:+
  nl +:+
  "        ".

(** ** Session data *)

(** [eval_data], stored under [progress['evaluations'][qid]] and under the
    session key [evaluation_{qid}]; its key ['feedback'] holds the whole
    evaluation dictionary and is the field [eval_feedback]. *)
Record EvalData : Type := mkEvalData {
  overall_score : Z;
  word_count : Z;
  eval_feedback : Feedback
}.

(** [st.session_state.progress] *)
Record Progress : Type := mkProgress {
  completed : list string;
  scores : gmap string Z;
  answers : gmap string string;
  transcripts : gmap string string;
  evaluations : gmap string EvalData
}.

(** The dictionary installed at start-up and by [reset_all_progress]. *)
Definition empty_progress : Progress := mkProgress [] ∅ ∅ ∅ ∅.

(** The values the script keeps under the other keys of
    [st.session_state]. *)
Inductive SVal : Type :=
  | VNone
  | VStr (s : string)
  | VBool (b : bool)
  | VInt (n : Z)
  | VUploadedFile (content : list Byte.byte)
  | VBytes (content : list Byte.byte)
  | VEval (e : EvalData).

(** Python truth value. *)
Definition truthy (v : SVal) : bool :=
  match v with
  | VNone => false
  | VStr s => negb (String.eqb s "")
  | VBool b => b
  | VInt n => negb (n =? 0)
  | VUploadedFile _ => true
  | VBytes content => match content with [] => false | _ => true end
  | VEval _ => true
  end.

(** What a remote call does: the text it returns, or the message of the
    exception that leaves the call. *)
Inductive Reply : Type :=
  | Answered (text : string)
  | Failed (msg : string).

(** The interface of the [random] module that the script relies on:
    [randbelow n] draws an integer in [[0, n)] and advances the generator. *)
Class RandomSource (G : Type) : Type := {
  randbelow : Z → G → Z * G;
  randbelow_range : ∀ n g, 0 < n → 0 ≤ (randbelow n g).1 < n
}.

(** A linear congruential generator, as a concrete source. *)
Definition lcg_next (g : Z) : Z := (1103515245 * g + 12345) mod 2147483648.

Definition lcg_source : RandomSource Z :=
  {| randbelow n g := (lcg_next g mod n, lcg_next g);
     randbelow_range n g Hn := Z.mod_pos_bound (lcg_next g) n Hn |}.

Section App.

Context {G : Type} `{RandomSource G}.

(** The part of the running session the script reads and writes. *)
Record World : Type := mkWorld {
  api_configured : bool;
  session_state : gmap string SVal;
  progress : Progress;
  rng : G;
  errors : list string
}.

(** ** The monad of the page functions *)

Definition M (A : Type) : Type := World → Result A * World.

Definition ret {A} (a : A) : M A := λ w, (Ok a, w).

Definition bind {A B} (c : M A) (k : A → M B) : M B :=
  λ w, match c w with
       | (Ok a, w') => k a w'
       | (Raised e, w') => (Raised e, w')
       end.

Definition raise {A} (e : Exn) : M A := λ w, (Raised e, w).

(** [try: body / except Exception as e: handler]; the handler receives
    [str(e)]. [RerunException] is not caught. *)
Definition try_except {A} (body : M A) (handler : string → M A) : M A :=
  λ w, match body w with
       | (Raised (Exception msg), w') => handler msg w'
       | r => r
       end.

Definition lift {A} (r : Result A) : M A := λ w, (r, w).

Definition gets {A} (f : World → A) : M A := λ w, (Ok (f w), w).
Definition modify (f : World → World) : M unit := λ w, (Ok tt, f w).

Notation "'let*' x ':=' c1 'in' c2" := (bind c1 (λ x, c2))
  (at level 10, x name, c1 at level 100, c2 at level 200).
Notation "c1 '>>' c2" := (bind c1 (λ _, c2))
  (at level 100, c2 at level 200, right associativity).

(** ** The gateways and the per-question state *)

(** The ten key prefixes that [clear_question_data] looks for. *)
Definition question_prefixes (qid : string) : list string :=
  ["audio_transcript_" +:+ qid;
   "text_answer_" +:+ qid;
   "last_audio_" +:+ qid;
   "audio_input_" +:+ qid;
   "audio_uploaded_" +:+ qid;
   "audio_recorder_" +:+ qid;
   "transcript_display_" +:+ qid;
   "record_count_" +:+ qid;
   "recording_active_" +:+ qid;
   "audio_data_" +:+ qid].

(** The disjunction of [key.startswith(...)] tests. *)
Definition is_question_key (qid key : string) : bool :=
  existsb (λ p, Py.startswith p key) (question_prefixes qid).

(** The keys that [reset_all_progress] keeps. *)
Definition kept_keys : list string :=
  ["api_configured"; "openai_client"; "page"; "progress"].

(** [for key in keys: try: del d[key] except: pass] *)
Definition delete_keys {V} (keys : list string) (d : gmap string V) : gmap string V :=
  foldr delete d keys.

(** [if k in d: del d[k]] *)
Definition del_if_present {V} (k : string) (d : gmap string V) : gmap string V :=
  match d !! k with
  | Some _ => delete k d
  | None => d
  end.

(** The writes to [progress] made by the practice page. *)

(** [progress['answers'][qid] = text] (lines 700, 708, 740 and 776). *)
Definition record_answer (qid text : string) (p : Progress) : Progress :=
  mkProgress (completed p) (scores p) (<[qid := text]> (answers p))
             (transcripts p) (evaluations p).

(** Lines 785-787: [completed] and [scores]. *)
Definition mark_completed (qid : string) (overall_score : Z) (p : Progress) : Progress :=
  mkProgress
    (if bool_decide (qid ∈ completed p) then completed p else completed p ++ [qid])
    (<[qid := overall_score]> (scores p))
    (answers p) (transcripts p) (evaluations p).

(** Line 763: [progress['evaluations'][qid] = eval_data]. *)
Definition restore_evaluation (qid : string) (eval_data : EvalData) (p : Progress)
  : Progress :=
  mkProgress (completed p) (scores p) (answers p) (transcripts p)
             (<[qid := eval_data]> (evaluations p)).

(** Lines 785-797, as far as [progress] is concerned. *)
Definition record_evaluation (qid : string) (eval_data : EvalData) (p : Progress)
  : Progress :=
  restore_evaluation qid eval_data (mark_completed qid (overall_score eval_data) p).

(** Lines 251-264 of [clear_question_data]. *)
Definition clear_progress (qid_str : string) (p : Progress) : Progress :=
  mkProgress
    (if bool_decide (qid_str ∈ completed p)
     then List.filter (λ q, negb (String.eqb q qid_str)) (completed p)
     else completed p)
    (del_if_present qid_str (scores p))
    (del_if_present qid_str (answers p))
    (del_if_present qid_str (transcripts p))
    (del_if_present qid_str (evaluations p)).

(** [get_audio_bytes] *)
Definition get_audio_bytes (audio_data : SVal) : option (list Byte.byte) :=
  match audio_data with
  | VNone => None
  | VUploadedFile content => Some content
  | VBytes content => Some content
  | _ => None
  end.

(** [get_audio_size] *)
Definition get_audio_size (audio_data : SVal) : Z :=
  match audio_data with
  | VNone => 0
  | VUploadedFile content => Z.of_nat (length content) / 1024
  | VBytes content => Z.of_nat (length content) / 1024
  | _ => 0
  end.

Definition is_none (v : SVal) : bool :=
  match v with VNone => true | _ => false end.

(** The feedback sentence of [get_demo_feedback] is chosen by these tests. *)
Definition demo_strengths : list string := ["Clear explanation"; "Good structure"].
Definition demo_improvements : list string := ["Add more examples"; "Be more concise"].

(** What the user did in the run of the script being modelled: at most
    one widget reports an action. *)
Inductive Event : Type :=
  | NoEvent
  | ClickReRecord
  | AudioRecorded (content : list Byte.byte)
  | ClickCancelRecording
  | ClickStartRecording
  | ClickTranscribe
  | ClickRemoveAudio
  | ClickEvaluate
  | ClickResetQuestion.

(** The two remote services. *)
Variable whisper : list Byte.byte → Reply.
Variable chat : string → Reply.

Definition set_session_state (ss : gmap string SVal) (w : World) : World :=
  mkWorld (api_configured w) ss (progress w) (rng w) (errors w).
Definition set_progress (p : Progress) (w : World) : World :=
  mkWorld (api_configured w) (session_state w) p (rng w) (errors w).
Definition set_rng (g : G) (w : World) : World :=
  mkWorld (api_configured w) (session_state w) (progress w) g (errors w).
Definition add_error (msg : string) (w : World) : World :=
  mkWorld (api_configured w) (session_state w) (progress w) (rng w) (errors w ++ [msg]).

(** [st.error(msg)] *)
Definition st_error (msg : string) : M unit := modify (add_error msg).

(** [st.rerun()] *)
Definition st_rerun {A} : M A := raise RerunException.

(** [random.randint(a, b)] and [random.choice(seq)] *)
Definition random_below (n : Z) : M Z :=
  λ w, let '(k, g) := randbelow n (rng w) in (Ok k, set_rng g w).

Definition randint (a b : Z) : M Z :=
  let* k := random_below (b - a + 1) in ret (a + k).

Definition choice (seq : list string) : M string :=
  match seq with
  | [] => raise (Exception "Cannot choose from an empty sequence")
  | _ =>
      let* k := random_below (Z.of_nat (length seq)) in
      match seq !! Z.to_nat k with
      | Some x => ret x
      | None => raise (Exception "list index out of range")
      end
  end.

(** [get_question_demo_transcript]: the loop over the bank [qs]. A
    question whose list is empty and whose category is none of the four
    falls out of the [if] chain, and the loop goes on. *)
Fixpoint demo_transcript_in (qs : list Question) (question_id : Z) : M string :=
  match qs with
  | [] => ret "This is a demo transcript for a technical interview question."
  | q :: rest =>
      if ident q =? question_id then
        match demo_transcripts q with
        | _ :: _ => choice (demo_transcripts q)
        | [] =>
            if String.eqb (category q) "Data Structures" then
              ret "Data structures organize and store data efficiently. Different structures optimize for different operations like access, insertion, or deletion."
            else if String.eqb (category q) "Algorithms" then
              ret "Algorithms are step-by-step procedures for solving problems. Time and space complexity analysis helps compare algorithm efficiency."
            else if String.eqb (category q) "System Design" then
              ret "System design involves creating scalable, reliable architectures. Key considerations include load balancing, caching, database choice, and fault tolerance."
            else if String.eqb (category q) "Behavioral" then
              ret "Behavioral questions assess soft skills and experience. Use the STAR method (Situation, Task, Action, Result) to structure responses."
            else demo_transcript_in rest question_id
        end
      else demo_transcript_in rest question_id
  end.

Definition get_question_demo_transcript (question_id : Z) : M string :=
  demo_transcript_in QUESTIONS question_id.

(** [if question_id:] for an optional integer. *)
Definition given (question_id : option Z) : option Z :=
  match question_id with
  | Some n => if n =? 0 then None else Some n
  | None => None
  end.

(** [transcribe_audio]. Writing the temporary file and calling the
    service are one step: [whisper] answers with the text or with the
    message of the exception that step raises. *)
Definition transcribe_audio (audio_data : SVal) (question_id : option Z) : M string :=
  let* configured := gets api_configured in
  if negb configured then
    match given question_id with
    | Some n => get_question_demo_transcript n
    | None => ret "API not configured. Please add OpenAI API key to enable transcription."
    end
  else
    try_except
      (match get_audio_bytes audio_data with
       | None => raise (Exception "No audio data found")
       | Some audio_bytes =>
           match whisper audio_bytes with
           | Answered text => ret text
           | Failed msg => raise (Exception msg)
           end
       end)
      (λ e,
         st_error ("Transcription error: " +:+ Py.take 100 e) >>
         match given question_id with
         | Some n => get_question_demo_transcript n
         | None => ret "Error in transcription. Please try again."
         end).

(** [get_demo_feedback] *)
Definition get_demo_feedback (question : Question) : M Feedback :=
  let category := category question in
  let difficulty := difficulty question in
  let* base_score :=
    if String.eqb difficulty "Easy" then randint 70 90
    else if String.eqb difficulty "Medium" then randint 60 80
    else randint 50 70 in
  let feedback :=
    if String.eqb category "Data Structures" then
      "Your understanding of data structures is basic. To improve, provide more specific examples and discuss time/space complexities."
    else if String.eqb category "Algorithms" then
      "You explained the concept but need more detail. Add complexity analysis and implementation details."
    else if String.eqb category "System Design" then
      "Good high-level thinking. Add more specific components, technologies, and scalability considerations."
    else if String.eqb category "Behavioral" then
      "Good personal example. Use the STAR method more clearly and add specific outcomes/metrics."
    else
      "Good attempt. Add more technical details and real-world applications." in
  ret (mkFeedback base_score demo_strengths demo_improvements feedback).

(** [evaluate_with_gpt]. [chat] answers the prompt with the content of the
    first choice, or with the message of the exception raised before that
    content is at hand. *)
Definition evaluate_with_gpt (question : Question) (answer : string) : M Feedback :=
  let* configured := gets api_configured in
  if negb configured then get_demo_feedback question
  else
    try_except
      (let prompt := evaluation_prompt question answer in
       match chat prompt with
       | Failed msg => raise (Exception msg)
       | Answered response_text => lift (parse_response response_text)
       end)
      (λ e,
         st_error ("GPT Evaluation error: " +:+ Py.take 100 e) >>
         get_demo_feedback question).

(** ** Session-state accesses *)

(** [st.session_state[key] = v] *)
Definition write_session (key : string) (v : SVal) : M unit :=
  modify (λ w, set_session_state (<[key := v]> (session_state w)) w).

(** [st.session_state[key]] *)
Definition read_session (key : string) : M SVal :=
  λ w, match session_state w !! key with
       | Some v => (Ok v, w)
       | None => (Raised (Exception ("KeyError: " +:+ key)), w)
       end.

(** [if key not in st.session_state: st.session_state[key] = v] *)
Definition init_session (key : string) (v : SVal) : M unit :=
  λ w, match session_state w !! key with
       | Some _ => (Ok tt, w)
       | None => (Ok tt, set_session_state (<[key := v]> (session_state w)) w)
       end.

(** [st.session_state[key] += 1] *)
Definition incr_session (key : string) : M unit :=
  let* v := read_session key in
  match v with
  | VInt n => write_session key (VInt (n + 1))
  | VBool b => write_session key (VInt ((if b then 1 else 0) + 1))
  | _ => raise (Exception "unsupported operand type(s) for +=")
  end.

(** [st.session_state.get(key, "")] for a key under which the script
    only ever stores a [str]; any other value there is outside the model
    and is reported as an error. *)
Definition get_text (key : string) : M string :=
  λ w, match session_state w !! key with
       | None => (Ok "", w)
       | Some (VStr s) => (Ok s, w)
       | Some _ => (Raised (Exception "TypeError: str expected"), w)
       end.

Definition update_progress (f : Progress → Progress) : M unit :=
  modify (λ w, set_progress (f (progress w)) w).

Definition session_keys (w : World) : list string := (map_to_list (session_state w)).*1.

(** [clear_question_data] *)
Definition clear_question_data (qid : string) : M bool :=
  let* keys := gets session_keys in
  let keys_to_clear := List.filter (is_question_key qid) keys in
  let keys_to_clear := remove_dups keys_to_clear in
  modify (λ w, set_session_state (delete_keys keys_to_clear (session_state w)) w) >>
  let qid_str := qid in
  update_progress (clear_progress qid_str) >>
  ret true.

(** [reset_all_progress] *)
Definition reset_all_progress : M bool :=
  modify (set_progress empty_progress) >>
  let* keys := gets session_keys in
  let keys_to_clear := List.filter (λ k, negb (bool_decide (k ∈ kept_keys))) keys in
  modify (λ w, set_session_state (delete_keys keys_to_clear (session_state w)) w) >>
  ret true.

(** [audio_recorder_component] *)
Definition audio_recorder_component (question_id : Z) (ev : Event) : M unit :=
  let qid := Py.str question_id in
  init_session ("recording_active_" +:+ qid) (VBool false) >>
  init_session ("record_count_" +:+ qid) (VInt 0) >>
  let last_audio_key := "last_audio_" +:+ qid in
  let* ss := gets session_state in
  if match ss !! last_audio_key with Some v => negb (is_none v) | None => false end
  then
    match ev with
    | ClickReRecord =>
        write_session last_audio_key VNone >>
        write_session ("recording_active_" +:+ qid) (VBool true) >>
        incr_session ("record_count_" +:+ qid) >>
        let* keys := gets session_keys in
        modify (λ w, set_session_state
                  (delete_keys (List.filter (Py.startswith ("audio_recorder_" +:+ qid)) keys)
                               (session_state w)) w) >>
        st_rerun
    | _ => ret tt
    end
  else
    let* active := read_session ("recording_active_" +:+ qid) in
    if truthy active then
      match ev with
      | AudioRecorded content =>
          write_session last_audio_key (VUploadedFile content) >>
          write_session ("recording_active_" +:+ qid) (VBool false) >>
          st_rerun
      | ClickCancelRecording =>
          write_session ("recording_active_" +:+ qid) (VBool false) >>
          st_rerun
      | _ => ret tt
      end
    else
      match ev with
      | ClickStartRecording =>
          write_session ("recording_active_" +:+ qid) (VBool true) >>
          incr_session ("record_count_" +:+ qid) >>
          st_rerun
      | _ => ret tt
      end.

(** The transcription section of [show_practice] (lines 676-733). *)
Definition transcribe_section (question : Question) (ev : Event) : M unit :=
  let qid := Py.str (ident question) in
  let transcript_key := "audio_transcript_" +:+ qid in
  let text_answer_key := "text_answer_" +:+ qid in
  let last_audio_key := "last_audio_" +:+ qid in
  let* last_audio := read_session last_audio_key in
  if is_none last_audio then ret tt
  else
    (match ev with
     | ClickTranscribe =>
         try_except
           (let* transcript := transcribe_audio last_audio (Some (ident question)) in
            if negb (String.eqb transcript "") then
              write_session transcript_key (VStr transcript) >>
              write_session text_answer_key (VStr transcript) >>
              update_progress (record_answer qid transcript) >>
              st_rerun
            else ret tt)
           (λ e,
              st_error ("Transcription failed: " +:+ Py.take 100 e) >>
              let* demo_transcript := get_question_demo_transcript (ident question) in
              write_session transcript_key (VStr demo_transcript) >>
              write_session text_answer_key (VStr demo_transcript) >>
              update_progress (record_answer qid demo_transcript) >>
              st_rerun)
     | _ => ret tt
     end) >>
    (match ev with
     | ClickRemoveAudio =>
         write_session last_audio_key VNone >>
         let* ss := gets session_state in
         (match ss !! ("recording_active_" +:+ qid) with
          | Some _ => write_session ("recording_active_" +:+ qid) (VBool false)
          | None => ret tt
          end) >>
         st_rerun
     | _ => ret tt
     end) >>
    let* _ := read_session transcript_key in
    ret tt.

(** Lines 752-763: the evaluation to show, with the copy from the
    session key into [progress]. The script stores only [eval_data]
    dictionaries under that key; another value is reported as an error. *)
Definition load_evaluation (qid : string) : M unit :=
  let evaluation_key := "evaluation_" +:+ qid in
  let* p := gets progress in
  match evaluations p !! qid with
  | Some _ => ret tt
  | None =>
      let* ss := gets session_state in
      match ss !! evaluation_key with
      | Some (VEval eval_data) => update_progress (restore_evaluation qid eval_data)
      | Some _ => raise (Exception "TypeError: evaluation expected")
      | None => ret tt
      end
  end.

(** [if final_answer and final_answer.strip():] *)
Definition ready_for_evaluation (final_answer : string) : bool :=
  negb (String.eqb final_answer "") && negb (String.eqb (Py.strip final_answer) "").

(** Lines 766-801: the evaluation button. The display of the results
    that follows (lines 803-841) writes neither the session state nor
    [progress]; it is not modelled. *)
Definition evaluate_section (question : Question) (final_answer : string) (ev : Event)
  : M unit :=
  let qid := Py.str (ident question) in
  let evaluation_key := "evaluation_" +:+ qid in
  if ready_for_evaluation final_answer then
    let word_count := Z.of_nat (Py.count_words false final_answer) in
    match ev with
    | ClickEvaluate =>
        update_progress (record_answer qid final_answer) >>
        let* ai_eval := evaluate_with_gpt question final_answer in
        let overall_score := score ai_eval in
        let eval_data := mkEvalData overall_score word_count ai_eval in
        update_progress (mark_completed qid overall_score) >>
        write_session evaluation_key (VEval eval_data) >>
        update_progress (restore_evaluation qid eval_data) >>
        st_rerun
    | _ => ret tt
    end
  else ret tt.

(** [show_practice] from line 632 on, for the selected [question]. *)
Definition practice_page (question : Question) (ev : Event) : M unit :=
  let qid := Py.str (ident question) in
  let* p := gets progress in
  let existing_answer := default "" (answers p !! qid) in
  let transcript_key := "audio_transcript_" +:+ qid in
  let text_answer_key := "text_answer_" +:+ qid in
  let last_audio_key := "last_audio_" +:+ qid in
  init_session transcript_key (VStr "") >>
  init_session text_answer_key (VStr existing_answer) >>
  init_session last_audio_key VNone >>
  let* configured := gets api_configured in
  (if negb configured then ret tt
   else
     audio_recorder_component (ident question) ev >>
     transcribe_section question ev) >>
  let* final_answer := get_text text_answer_key in
  (if negb (String.eqb final_answer "") && negb (String.eqb final_answer existing_answer)
   then update_progress (record_answer qid final_answer)
   else ret tt) >>
  load_evaluation qid >>
  evaluate_section question final_answer ev >>
  match ev with
  | ClickResetQuestion =>
      let* cleared := clear_question_data qid in
      if cleared then st_rerun else ret tt
  | _ => ret tt
  end.

(** [show_practice]: [selected_index] is the choice in the select box. *)
Definition show_practice (selected_index : nat) (ev : Event) : M unit :=
  match QUESTIONS !! selected_index with
  | None => raise (Exception "list index out of range")
  | Some question => practice_page question ev
  end.

(** ** Summary and report *)

(** The figures of the sidebar (lines 398-407): the two counts, and the
    average as the pair of the sum and the number of the scores. *)
Record Summary : Type := mkSummary {
  completed_count : nat;
  attempted_count : nat;
  average : option (Z * nat)
}.

Definition score_values (p : Progress) : list Z := (map_to_list (scores p)).*2.

Definition summary (p : Progress) : Summary :=
  mkSummary (length (completed p)) (size (answers p))
            (if decide (scores p = ∅) then None
             else Some (foldr Z.add 0 (score_values p), size (scores p))).

(** One drawing call on the [FPDF] object. *)
Inductive PdfOp : Type :=
  | AddPage
  | SetFont (family style : string) (size : Z)
  | Cell (w h : Z) (txt : string) (border ln : Z) (align : string)
  | MultiCell (w h : Z) (txt : string)
  | Ln (h : Z).

(** [l[i]] with Python's negative indices. *)
Definition py_index {A} (l : list A) (i : Z) : Result A :=
  let n := Z.of_nat (length l) in
  let j := if i <? 0 then i + n else i in
  if (0 <=? j) && (j <? n) then
    match l !! Z.to_nat j with
    | Some x => Ok x
    | None => Raised (Exception "list index out of range")
    end
  else Raised (Exception "list index out of range").

(** [sorted(keys, key=int)]: the keys are paired with their integer
    value, which fails on a key that is no integer literal, and sorted by
    it. Keys of equal value keep the order of [keys]. *)
Fixpoint with_int_keys (keys : list string) : Result (list (Z * string)) :=
  match keys with
  | [] => Ok []
  | k :: rest =>
      rbind (Py.int k) (λ n, rbind (with_int_keys rest) (λ l, Ok ((n, k) :: l)))
  end.

Fixpoint insert_sorted (x : Z * string) (l : list (Z * string)) : list (Z * string) :=
  match l with
  | [] => [x]
  | y :: l' => if x.1 <=? y.1 then x :: y :: l' else y :: insert_sorted x l'
  end.

Definition sorted_by_int (keys : list string) : Result (list (Z * string)) :=
  rbind (with_int_keys keys) (λ l, Ok (foldr insert_sorted [] l)).

(** [f"{sum(values) / len(values):.1f}"]: the floating-point division and
    its rendering to one decimal are left abstract; the division raises
    [OverflowError] on a quotient too large for a float. *)
Variable format_average : Z → nat → Result string.

(** The block of one attempted question (lines 1133-1149). *)
Definition question_block (p : Progress) (entry : Z * string) : Result (list PdfOp) :=
  let '(n, qid) := entry in
  rbind (py_index QUESTIONS (n - 1)) (λ question,
  let answer := default "" (answers p !! qid) in
  let status :=
    if bool_decide (qid ∈ completed p) then
      let score := default 0 (scores p !! qid) in
      Cell 0 8 ("Score: " +:+ Py.str score +:+ "% | Category: " +:+ category question
                +:+ " | Difficulty: " +:+ difficulty question) 0 1 ""
    else
      Cell 0 8 ("Status: Recorded (Not evaluated) | Category: " +:+ category question)
           0 1 "" in
  let truncated_answer :=
    if (400 <? String.length answer)%nat then Py.take 400 answer +:+ "..." else answer in
  Ok [ SetFont "Arial" "B" 11;
       MultiCell 0 8 ("Question " +:+ qid +:+ ": " +:+ question_text question);
       SetFont "Arial" "I" 10;
       status;
       SetFont "Arial" "" 10;
       MultiCell 0 8 ("Your Answer: " +:+ truncated_answer);
       Ln 5 ]).

Fixpoint question_blocks (p : Progress) (entries : list (Z * string))
  : Result (list PdfOp) :=
  match entries with
  | [] => Ok []
  | e :: rest =>
      rbind (question_block p e) (λ b,
      rbind (question_blocks p rest) (λ bs, Ok (b ++ bs)))
  end.

(** The three score lines of the summary (lines 1116-1123). *)
Definition score_lines (p : Progress) : Result (list PdfOp) :=
  if decide (scores p = ∅) then Ok []
  else
    rbind (format_average (foldr Z.add 0 (score_values p)) (size (scores p))) (λ avg_score,
    let highest := foldr Z.max (default 0 (head (score_values p))) (score_values p) in
    let lowest := foldr Z.min (default 0 (head (score_values p))) (score_values p) in
    Ok [ Cell 0 10 ("Average Score: " +:+ avg_score +:+ "%") 0 1 "";
         Cell 0 10 ("Highest Score: " +:+ Py.str highest +:+ "%") 0 1 "";
         Cell 0 10 ("Lowest Score: " +:+ Py.str lowest +:+ "%") 0 1 "" ]).

(** [generate_pdf]: the drawing calls made on the document, in order.
    [now] is [datetime.now().strftime('%Y-%m-%d %H:%M:%S')]; [configured]
    is [st.session_state.api_configured]. What the library makes of the
    calls, and the encoding of its output in the last line of the
    function, are not modelled. *)
Definition generate_pdf (now : string) (configured : bool) (p : Progress)
  : Result (list PdfOp) :=
  let mode := if negb configured then "Demo Mode" else "Real AI Mode" in
  let completed := length (completed p) in
  let attempted := size (answers p) in
  rbind (score_lines p) (λ scores_part,
  rbind (sorted_by_int (map_to_list (answers p)).*1) (λ entries,
  rbind (question_blocks p entries) (λ blocks,
  Ok ([ AddPage;
        SetFont "Arial" "B" 16;
        Cell 0 10 "Tech Interview Practice Report" 0 1 "C";
        Ln 5;
        SetFont "Arial" "I" 10;
        Cell 0 10 ("Generated: " +:+ now) 0 1 "R";
        Ln 10;
        SetFont "Arial" "" 10;
        Cell 0 10 ("Mode: " +:+ mode) 0 1 "";
        Ln 5;
        SetFont "Arial" "B" 14;
        Cell 0 10 "Progress Summary" 0 1 "";
        SetFont "Arial" "" 12;
        Cell 0 10 ("Total Questions: " +:+ Py.str (Z.of_nat (length QUESTIONS))) 0 1 "";
        Cell 0 10 ("Questions Attempted: " +:+ Py.str (Z.of_nat attempted)) 0 1 "";
        Cell 0 10 ("Questions Evaluated: " +:+ Py.str (Z.of_nat completed)) 0 1 "" ]
      ++ scores_part
      ++ [ Ln 10;
           SetFont "Arial" "B" 14;
           Cell 0 10 "Question Details" 0 1 "";
           SetFont "Arial" "" 10 ]
      ++ blocks
      ++ [ SetFont "Arial" "I" 8;
           Cell 0 10 "Generated by Tech Interview Practice Platform" 0 1 "C" ])))).

(** ** Start-up (lines 31-100) *)

(** What the start-up code finds around it: the lookup of the key in
    [st.secrets] (which raises without a secrets file), the environment
    variable, the text typed into the sidebar field, whether the [openai]
    package could be imported, and what creating the client and listing
    the models does for a given key ([None]: nothing is raised). *)
Record Setup : Type := mkSetup {
  secrets_lookup : Result (option string);
  env_key : option string;
  typed_key : string;
  openai_available : bool;
  connection : string → option string
}.

(** [if api_key:] *)
Definition key_found (api_key : option string) : bool :=
  match api_key with
  | Some k => negb (String.eqb k "")
  | None => false
  end.

(** The three methods of lines 36-61. *)
Definition resolve_api_key (s : Setup) : option string :=
  let api_key :=
    match secrets_lookup s with
    | Ok (Some k) => Some k
    | _ => None
    end in
  let api_key := if key_found api_key then api_key else env_key s in
  if key_found api_key then api_key else Some (typed_key s).

(** Lines 63-85: the value of the variable [api_configured] and the
    messages shown with [st.error]. *)
Definition configure (s : Setup) : bool * list string :=
  let api_key := resolve_api_key s in
  let key := default "" api_key in
  if key_found api_key && Py.startswith "sk-" key && openai_available s then
    match connection s key with
    | None => (true, [])
    | Some msg => (false, ["OpenAI API configuration failed: " +:+ Py.take 100 msg])
    end
  else if key_found api_key && negb (Py.startswith "sk-" key) then (false, [])
  else (false,
        if openai_available s then []
        else ["OpenAI package not installed. Install with: pip install openai"]).

Definition set_api_configured (b : bool) (w : World) : World :=
  mkWorld b (session_state w) (progress w) (rng w) (errors w).

Fixpoint show_errors (msgs : list string) : M unit :=
  match msgs with
  | [] => ret tt
  | msg :: rest => st_error msg >> show_errors rest
  end.

(** The top of the script, up to line 100. A session without the key
    [api_configured] is a world whose flag is [false]: line 98 stores the
    variable, which is [False] whenever line 72 has not stored [True]. *)
Definition startup (s : Setup) : M unit :=
  (if openai_available s then ret tt
   else st_error "OpenAI package not installed. Run: pip install openai") >>
  let '(configured, msgs) := configure s in
  show_errors msgs >>
  if configured then modify (set_api_configured true) else ret tt.

(** ** Sidebar and pages *)

(** The four entries of [page_options], in the order of the dictionary;
    the radio button returns one of them. *)
Inductive Page : Type := Home | Practice | Dashboard | Report.

Definition page_name (p : Page) : string :=
  match p with
  | Home => "home"
  | Practice => "practice"
  | Dashboard => "dashboard"
  | Report => "report"
  end.

Definition page_options : list Page := [Home; Practice; Dashboard; Report].

(** Lines 422-426: the position of the current page, found by the loop
    with [break]; 0 when no entry matches. *)
Fixpoint index_from (current_page : string) (i : nat) (options : list Page) : nat :=
  match options with
  | [] => 0%nat
  | page :: rest =>
      if String.eqb (page_name page) current_page then i
      else index_from current_page (S i) rest
  end.

Definition current_index (current_page : string) : nat :=
  index_from current_page 0 page_options.

(** The buttons of the pages other than the practice page. *)
Inductive Click : Type :=
  | NoClick
  | ClickStartPracticing
  | ClickPracticeMore
  | ClickGenerateReport
  | ClickGoHome
  | ClickGoPractice
  | ClickDownloadReport.

(** [st.session_state.page = name; st.rerun()] *)
Definition go_to (name : string) : M unit :=
  write_session "page" (VStr name) >> st_rerun.

(** [if progress['scores']: avg_score = sum(...) / len(...)], shown with
    one decimal. *)
Definition show_average : M unit :=
  let* p := gets progress in
  if decide (scores p = ∅) then ret tt
  else
    let* _ := lift (format_average (foldr Z.add 0 (score_values p)) (size (scores p))) in
    ret tt.

(** [show_sidebar]. [selected] is the entry the radio button returns. *)
Definition show_sidebar (s : Setup) (selected : Page) (reset_click : bool) : M unit :=
  let* configured := gets api_configured in
  (if configured then
     match secrets_lookup s with
     | Raised e => raise e
     | Ok _ => ret tt
     end
   else ret tt) >>
  show_average >>
  write_session "page" (VStr (page_name selected)) >>
  if reset_click then
    let* done := reset_all_progress in
    if done then st_rerun else ret tt
  else ret tt.

(** [show_home] *)
Definition show_home (click : Click) : M unit :=
  (match click with
   | ClickStartPracticing => go_to "practice"
   | _ => ret tt
   end) >>
  show_average.

(** [sorted(keys, key=lambda x: int(x), reverse=True)] *)
Fixpoint insert_sorted_desc (x : Z * string) (l : list (Z * string)) : list (Z * string) :=
  match l with
  | [] => [x]
  | y :: l' => if y.1 <=? x.1 then x :: y :: l' else y :: insert_sorted_desc x l'
  end.

(** [QUESTIONS[int(qid)-1]] for each entry. *)
Fixpoint lookup_questions (entries : list (Z * string)) : Result (list (string * Question)) :=
  match entries with
  | [] => Ok []
  | (n, qid) :: rest =>
      rbind (py_index QUESTIONS (n - 1)) (λ question,
      rbind (lookup_questions rest) (λ l, Ok ((qid, question) :: l)))
  end.

(** The answer history of the dashboard (lines 1027-1050): the three
    answers with the highest numbers, each with the question shown. *)
Definition answer_history (p : Progress) : Result (list (string * Question)) :=
  if decide (answers p = ∅) then Ok []
  else
    rbind (with_int_keys (map_to_list (answers p)).*1) (λ l,
    let sorted_qids := foldr insert_sorted_desc [] l in
    lookup_questions (firstn 3 sorted_qids)).

(** [show_dashboard] *)
Definition show_dashboard (click : Click) : M unit :=
  show_average >>
  let* p := gets progress in
  let* _ := lift (answer_history p) in
  match click with
  | ClickPracticeMore => go_to "practice"
  | ClickGenerateReport => go_to "report"
  | ClickGoHome => go_to "home"
  | _ => ret tt
  end.

(** The list of attempted questions of the report preview (lines
    1174-1179). *)
Definition attempted_questions (p : Progress) : Result (list (string * Question)) :=
  rbind (sorted_by_int (map_to_list (answers p)).*1) lookup_questions.

(** The score distribution of the report preview (lines 1192-1200):
    start, end and count of each range. *)
Definition score_distribution (scores_list : list Z) : list (Z * Z * nat) :=
  (λ range_start,
     let range_end := range_start + 20 in
     let count :=
       length (List.filter (λ s, (range_start <=? s) && (s <? range_end)) scores_list) in
     let count :=
       if range_end =? 100 then length (List.filter (λ s, 90 <=? s) scores_list)
       else count in
     (range_start, range_end, count)) <$> [0; 20; 40; 60; 80].

(** [show_report]; [now] is the clock reading handed to [generate_pdf]. *)
Definition show_report (now : string) (click : Click) : M unit :=
  let* p := gets progress in
  if decide (answers p = ∅) then
    match click with
    | ClickGoPractice => go_to "practice"
    | _ => ret tt
    end
  else
    let* _ := lift (attempted_questions p) in
    show_average >>
    match click with
    | ClickDownloadReport =>
        let* configured := gets api_configured in
        let* _ := lift (generate_pdf now configured p) in
        ret tt
    | _ => ret tt
    end.

(** What the user does during one run of the script. *)
Record Inputs : Type := mkInputs {
  selected_page : Page;
  reset_click : bool;
  selected_index : nat;
  practice_event : Event;
  click : Click;
  now : string
}.

(** [main] *)
Definition main (s : Setup) (i : Inputs) : M unit :=
  init_session "page" (VStr "home") >>
  show_sidebar s (selected_page i) (reset_click i) >>
  let* current_page := read_session "page" in
  match current_page with
  | VStr name =>
      if String.eqb name "home" then show_home (click i)
      else if String.eqb name "practice"
           then show_practice (selected_index i) (practice_event i)
      else if String.eqb name "dashboard" then show_dashboard (click i)
      else if String.eqb name "report" then show_report (now i) (click i)
      else ret tt
  | _ => ret tt
  end.

(** One run of the whole script. *)
Definition script (s : Setup) (i : Inputs) : M unit :=
  startup s >> main s i.

(** ** Vocabulary of the statements *)

(** The lines of a reply as the loop sees them, and those carrying a
    given label. *)
Definition reply_lines (response_text : string) : list string :=
  Py.strip <$> Py.split "010" response_text.

Definition labelled (label response_text : string) : list string :=
  List.filter (Py.startswith label) (reply_lines response_text).

(** The score a [SCORE:] line stands for. *)
Definition score_value (line : string) : Z :=
  default 50 (Py.parse_int (label_value "SCORE:" line)).

(** The items of the last line with the given label. *)
Definition parsed_items (label response_text : string) : list string :=
  from_option (λ line, comma_items (label_value label line)) []
              (last (labelled label response_text)).

(** Each field of the result as a function of the lines with its label. *)
Definition score_field (response_text : string) : Z :=
  from_option score_value 50 (last (labelled "SCORE:" response_text)).

Definition list_field (label : string) (dflt : list string) (response_text : string)
  : list string :=
  match parsed_items label response_text with
  | [] => dflt
  | items => items
  end.

(** Two worlds that differ at most in the state of the generator. *)
Definition same_session (w w' : World) : Prop :=
  api_configured w' = api_configured w
  ∧ session_state w' = session_state w
  ∧ progress w' = progress w
  ∧ errors w' = errors w.

(** The five feedback sentences of the demo mode. *)
Definition demo_feedback_texts : list string :=
  ["Your understanding of data structures is basic. To improve, provide more specific examples and discuss time/space complexities.";
   "You explained the concept but need more detail. Add complexity analysis and implementation details.";
   "Good high-level thinking. Add more specific components, technologies, and scalability considerations.";
   "Good personal example. Use the STAR method more clearly and add specific outcomes/metrics.";
   "Good attempt. Add more technical details and real-world applications."].

(** The first question of a bank with a given identifier. *)
Definition find_question (qs : list Question) (question_id : Z) : option Question :=
  List.find (λ q, ident q =? question_id) qs.

(** The sentence of [get_question_demo_transcript] for a question without
    demo transcripts, by category. *)
Definition generic_transcript (category : string) : option string :=
  if String.eqb category "Data Structures" then
    Some "Data structures organize and store data efficiently. Different structures optimize for different operations like access, insertion, or deletion."
  else if String.eqb category "Algorithms" then
    Some "Algorithms are step-by-step procedures for solving problems. Time and space complexity analysis helps compare algorithm efficiency."
  else if String.eqb category "System Design" then
    Some "System design involves creating scalable, reliable architectures. Key considerations include load balancing, caching, database choice, and fault tolerance."
  else if String.eqb category "Behavioral" then
    Some "Behavioral questions assess soft skills and experience. Use the STAR method (Situation, Task, Action, Result) to structure responses."
  else None.

(** The invariant of the progress record: a completed question has a
    score and an evaluation. *)
Definition completed_have_results (p : Progress) : Prop :=
  ∀ qid, qid ∈ completed p →
         is_Some (scores p !! qid) ∧ is_Some (evaluations p !! qid).

(** The progress records that the four operations reach from the record
    of a fresh session. *)
Inductive reachable : Progress → Prop :=
  | reach_start : reachable empty_progress
  | reach_record_answer p qid text :
      reachable p → reachable (record_answer qid text p)
  | reach_record_evaluation p qid eval_data :
      reachable p → reachable (record_evaluation qid eval_data p)
  | reach_clear_question p qid :
      reachable p → reachable (clear_progress qid p)
  | reach_reset_all p :
      reachable p → reachable empty_progress.

(** [moves R c]: whatever [c] returns or raises, it takes [progress]
    from a record to an [R]-related one. *)
Definition moves (R : relation Progress) {A} (c : M A) : Prop :=
  ∀ w r w', c w = (r, w') → R (progress w) (progress w').

(** Only the answer of question [qid] may differ between two records. *)
Definition only_answer_changed (qid : string) (p p' : Progress) : Prop :=
  completed p' = completed p
  ∧ scores p' = scores p
  ∧ transcripts p' = transcripts p
  ∧ evaluations p' = evaluations p
  ∧ ∀ q, q ≠ qid → answers p' !! q = answers p !! q.

(** What one run of the practice page can do to [progress]. *)
Inductive page_steps : relation Progress :=
  | steps_none p : page_steps p p
  | steps_record_answer p p' qid text :
      page_steps p p' → page_steps p (record_answer qid text p')
  | steps_restore_evaluation p p' qid eval_data :
      page_steps p p' → page_steps p (restore_evaluation qid eval_data p')
  | steps_record_evaluation p p' qid eval_data :
      page_steps p p' → page_steps p (record_evaluation qid eval_data p')
  | steps_clear_question p p' qid :
      page_steps p p' → page_steps p (clear_progress qid p').

(** The position of the [Generated: ...] line among the drawing calls of
    [generate_pdf]. *)
Definition timestamp_position : nat := 5.

(** The keys under which the practice page files a question of the bank. *)
Definition bank_ids : list string := (λ q, Py.str (ident q)) <$> QUESTIONS.

(** The shape of [progress] in a running session. *)
Record progress_wf (p : Progress) : Prop := mkProgressWf {
  wf_nodup : NoDup (completed p);
  wf_scores : ∀ q, q ∈ completed p ↔ is_Some (scores p !! q);
  wf_evaluations : ∀ q s, scores p !! q = Some s →
                          ∃ e, evaluations p !! q = Some e ∧ overall_score e = s;
  wf_answers : ∀ q, q ∈ completed p → is_Some (answers p !! q);
  wf_keys : ∀ q, is_Some (answers p !! q) → q ∈ bank_ids;
  wf_transcripts : transcripts p = ∅
}.

(** The worlds that runs of the script reach from a fresh session. *)
Inductive session_reachable : World → Prop :=
  | session_fresh g : session_reachable (mkWorld false ∅ empty_progress g [])
  | session_run w s i : session_reachable w → session_reachable (script s i w).2.

(** [progress] may change from a record in good shape only to another. *)
Definition keeps_wf (p p' : Progress) : Prop := progress_wf p → progress_wf p'.

(** An entry of [sorted(keys, key=int)] for a key of the bank: the key
    with the number it stands for. *)
Definition numbered (e : Z * string) : Prop :=
  e.2 ∈ bank_ids ∧ Py.int e.2 = Ok e.1.

(** [preserves obs c]: whatever [c] returns or raises, the observation
    [obs] of the world is the same before and after. *)
Definition preserves {A B} (obs : World → B) (c : M A) : Prop :=
  ∀ w r w', c w = (r, w') → obs w' = obs w.

(** [invariant I c]: whatever [c] returns or raises, it takes a world
    in [I] to a world in [I]. *)
Definition invariant {A} (I : World → Prop) (c : M A) : Prop :=
  ∀ w r w', I w → c w = (r, w') → I w'.

(** The session of a user who never had a working key: every text field
    of the practice page is empty and no evaluation is kept. *)
Definition demo_session_state (ss : gmap string SVal) : Prop :=
  ∀ k v, ss !! k = Some v →
         (Py.startswith "text_answer_" k = true → v = VStr "")
         ∧ Py.startswith "evaluation_" k = false.

Definition demo_world (w : World) : Prop :=
  api_configured w = false
  ∧ progress w = empty_progress
  ∧ demo_session_state (session_state w).

(** The worlds reached from a fresh session by runs of the script none
    of which finds a working key. *)
Inductive never_live : World → Prop :=
  | never_live_fresh g : never_live (mkWorld false ∅ empty_progress g [])
  | never_live_run w s i :
      never_live w → (configure s).1 = false → never_live (script s i w).2.

(** [runs_safely P c Q]: from a world in [P] the computation [c] raises
    nothing but the request for a rerun, and a world that it returns
    with a value is in [Q]. *)
Definition runs_safely {A} (P : World → Prop) (c : M A) (Q : A → World → Prop) : Prop :=
  ∀ w, P w →
       match c w with
       | (Ok a, w') => Q a w'
       | (Raised RerunException, _) => True
       | (Raised (Exception _), _) => False
       end.


(** No message of the handler around the transcription button of the
    practice page has been shown. *)
Definition no_failed_message (w : World) : Prop :=
  Forall (λ msg, Py.startswith "Transcription failed: " msg = false) (errors w).

End App.

(** ** Sample data *)

(** The entry of the bank at a position (the first one is at 0). *)
Definition question_at (i : nat) : Question :=
  default (mkQuestion 0 "" "" [] "" "" []) (QUESTIONS !! i).

(** A fresh session, with the linear congruential generator at seed 0. *)
Definition fresh_world (configured : bool) : World :=
  mkWorld configured ∅ empty_progress (0 : Z) [].

Definition sample_evaluation : EvalData :=
  mkEvalData 85 6
    (mkFeedback 85 ["Clear explanation"] ["Add more examples"] "Good answer.").

(** A session that holds a cached evaluation for question 2. *)
Definition world_with_cached_evaluation : World :=
  mkWorld false {[ "evaluation_2" := VEval sample_evaluation ]} empty_progress (0 : Z) [].

(** One attempted question that has not been evaluated. *)
Definition attempted_progress : Progress :=
  record_answer "2" "Binary search halves a sorted array at every step." empty_progress.

(** A stand-in for the rendering of the average. *)
Definition sample_format_average (total : Z) (count : nat) : Result string :=
  Ok (Py.str (total / Z.of_nat count) +:+ ".0").

(** The services of the sample session: a transcription that answers,
    and an evaluation that fails. *)
Definition sample_whisper (audio : list Byte.byte) : Reply :=
  Answered "It halves a sorted array.".

Definition sample_chat (prompt : string) : Reply := Failed "timeout".

(** A key in the environment and a secrets store without one. *)
Definition env_setup : Setup :=
  mkSetup (Ok None) (Some "sk-test") "" true (λ _, None).

(** The same key, without a secrets file. *)
Definition no_secrets_setup : Setup :=
  mkSetup (Raised (Exception "No secrets file found")) (Some "sk-test") "" true (λ _, None).

(** No key anywhere. *)
Definition demo_setup : Setup := mkSetup (Ok None) None "" true (λ _, None).

(** A run of the practice page on question 2, and a run of another
    page. *)
Definition practice_inputs (ev : Event) : Inputs :=
  mkInputs Practice false 1 ev NoClick "2025-01-01 10:00:00".

Definition page_inputs (page : Page) (c : Click) : Inputs :=
  mkInputs page false 0 NoEvent c "2025-01-01 10:00:00".

Definition sample_run (s : Setup) (w : World) (i : Inputs) : World :=
  (script (H:=lcg_source) sample_whisper sample_chat sample_format_average s i w).2.

(** A session in which question 2 is recorded, transcribed and
    evaluated. *)
Definition sample_session : World :=
  foldl (sample_run env_setup) (fresh_world false)
        [practice_inputs ClickStartRecording;
         practice_inputs (AudioRecorded [Byte.x52; Byte.x49]);
         practice_inputs ClickTranscribe;
         practice_inputs ClickEvaluate].

(** A session without a key in which the same is tried. *)
Definition keyless_session : World :=
  foldl (sample_run demo_setup) (fresh_world false)
        [practice_inputs ClickStartRecording;
         practice_inputs ClickTranscribe;
         practice_inputs ClickEvaluate].

(** A session that holds a recording for question 10. *)
Definition world_with_recording_10 : World :=
  mkWorld true {[ "last_audio_10" := VUploadedFile [Byte.x52; Byte.x49] ]}
          empty_progress (0 : Z) [].

(** A live session that holds a recording for question 2. *)
Definition world_with_recording_2 : World :=
  mkWorld true {[ "last_audio_2" := VUploadedFile [Byte.x52; Byte.x49] ]}
          empty_progress (0 : Z) [].

(** A transcription service that is down. *)
Definition failing_whisper (audio : list Byte.byte) : Reply := Failed "connection refused".

(** * Properties *)

Section Properties.

Set Default Proof Using "Type".

Context {G : Type} {H : RandomSource G}.
Variable whisper : list Byte.byte → Reply.
Variable chat : string → Reply.
Variable format_average : Z → nat → Result string.

Local Abbreviation World := (@World G).
Local Abbreviation M := (@M G).
Local Abbreviation moves := (moves (G:=G)).
Local Abbreviation preserves := (preserves (G:=G)).
Local Abbreviation invariant := (invariant (G:=G)).
Local Abbreviation demo_world := (demo_world (G:=G)).
Local Abbreviation runs_safely := (runs_safely (G:=G)).
Local Abbreviation no_failed_message := (no_failed_message (G:=G)).


(** ** Parsing the evaluator's reply *)

Lemma first_char_differs (p1 p2 : string) (a b : ascii) line :
  a ≠ b →
  Py.startswith (String a p1) line = true → Py.startswith (String b p2) line = false.
Proof.
  intros Hab. unfold Py.startswith.
  destruct line as [|c line]; cbn [String.prefix]; [done|].
  destruct (ascii_dec a c) as [<-|]; [|done].
  destruct (ascii_dec b a) as [->|]; done.
Qed.

Lemma score_not_strengths line :
  Py.startswith "SCORE:" line = true → Py.startswith "STRENGTHS:" line = false.
Proof.
  unfold Py.startswith. destruct line as [|a [|b line]]; cbn [String.prefix]; try done.
  - destruct (ascii_dec "S" a); done.
  - destruct (ascii_dec "S" a); [|done].
    destruct (ascii_dec "C" b) as [<-|]; [|done].
    destruct (ascii_dec "T" "C"); done.
Qed.

(** What one iteration of the loop does to each field. *)
Lemma parse_line_fields result line :
  ∃ r, parse_line result line = Ok r
    ∧ score r = (if Py.startswith "SCORE:" (Py.strip line)
                 then score_value (Py.strip line) else score result)
    ∧ strengths r = (if Py.startswith "STRENGTHS:" (Py.strip line)
                     then comma_items (label_value "STRENGTHS:" (Py.strip line))
                     else strengths result)
    ∧ improvements r = (if Py.startswith "IMPROVEMENTS:" (Py.strip line)
                        then comma_items (label_value "IMPROVEMENTS:" (Py.strip line))
                        else improvements result).
Proof.
  unfold parse_line. set (l := Py.strip line).
  destruct (Py.startswith "SCORE:" l) eqn:Hs.
  - rewrite (score_not_strengths _ Hs).
    assert (Py.startswith "IMPROVEMENTS:" l = false) as ->
      by (eapply (first_char_differs _ _ "S" "I"); [done|exact Hs]).
    unfold score_value, Py.int.
    destruct (Py.parse_int (label_value "SCORE:" l)); simpl; eauto.
  - destruct (Py.startswith "STRENGTHS:" l) eqn:Ht.
    + assert (Py.startswith "IMPROVEMENTS:" l = false) as ->
        by (eapply (first_char_differs _ _ "S" "I"); [done|exact Ht]).
      simpl. eauto.
    + destruct (Py.startswith "IMPROVEMENTS:" l) eqn:Hi; simpl; [eauto|].
      destruct (Py.startswith "FEEDBACK:" l); simpl; eauto.
Qed.

Lemma last_filter_cons {A} (P : A → bool) (x : A) (l : list A) :
  last (List.filter P (x :: l))
  = match last (List.filter P l) with
    | Some y => Some y
    | None => if P x then Some x else None
    end.
Proof.
  simpl. destruct (P x); [|by destruct (last (List.filter P l))].
  destruct (List.filter P l) as [|y l'] eqn:E; [done|].
  rewrite last_cons. by destruct (last (y :: l')).
Qed.

(** The loop never raises, and leaves in each field what the last line
    with the field's label stands for. *)
Lemma parse_lines_fields lines : ∀ result,
  ∃ r, parse_lines result lines = Ok r
    ∧ score r = from_option score_value (score result)
                  (last (List.filter (Py.startswith "SCORE:") (Py.strip <$> lines)))
    ∧ strengths r
      = from_option (λ l, comma_items (label_value "STRENGTHS:" l)) (strengths result)
          (last (List.filter (Py.startswith "STRENGTHS:") (Py.strip <$> lines)))
    ∧ improvements r
      = from_option (λ l, comma_items (label_value "IMPROVEMENTS:" l)) (improvements result)
          (last (List.filter (Py.startswith "IMPROVEMENTS:") (Py.strip <$> lines))).
Proof.
  induction lines as [|line lines IH]; intros result.
  - exists result. done.
  - destruct (parse_line_fields result line) as (r1 & Hr1 & Hs & Ht & Hi).
    destruct (IH r1) as (r & Hr & Hs' & Ht' & Hi').
    exists r. split; [simpl; by rewrite Hr1|].
    rewrite fmap_cons, !last_filter_cons.
    rewrite Hs', Ht', Hi', Hs, Ht, Hi.
    repeat split.
    + destruct (last (List.filter (Py.startswith "SCORE:") (Py.strip <$> lines))); [done|].
      by destruct (Py.startswith "SCORE:" (Py.strip line)).
    + destruct (last (List.filter (Py.startswith "STRENGTHS:") (Py.strip <$> lines))); [done|].
      by destruct (Py.startswith "STRENGTHS:" (Py.strip line)).
    + destruct (last (List.filter (Py.startswith "IMPROVEMENTS:") (Py.strip <$> lines)));
        [done|].
      by destruct (Py.startswith "IMPROVEMENTS:" (Py.strip line)).
Qed.

Lemma fill_defaults_fields r :
  score (fill_defaults r) = score r
  ∧ strengths (fill_defaults r)
    = match strengths r with [] => default_strengths | items => items end
  ∧ improvements (fill_defaults r)
    = match improvements r with [] => default_improvements | items => items end.
Proof.
  unfold fill_defaults.
  destruct r as [s st im fb]; simpl.
  destruct st, im; simpl; destruct (String.eqb _ ""); simpl; done.
Qed.

(** The parser never raises; each field of its result is a function of
    the lines carrying the field's label. *)
Lemma parse_response_fields (response_text : string) :
  ∃ r, parse_response response_text = Ok r
    ∧ score r = score_field response_text
    ∧ strengths r = list_field "STRENGTHS:" default_strengths response_text
    ∧ improvements r = list_field "IMPROVEMENTS:" default_improvements response_text.
Proof.
  unfold parse_response.
  destruct (parse_lines_fields (Py.split "010" response_text) (mkFeedback 50 [] [] ""))
    as (r0 & Hr0 & Hs & Ht & Hi).
  destruct (fill_defaults_fields r0) as (Fs & Ft & Fi).
  exists (fill_defaults r0). rewrite Hr0. simpl in *.
  split; [done|]. split; [by rewrite Fs, Hs|]. split.
  - by rewrite Ft, Ht.
  - by rewrite Fi, Hi.
Qed.

(** C1. Parsing a reply of the evaluation service never raises, and
    each field degrades on its own: the score, the strengths and the
    improvements are each a function of the lines carrying their own label;
    the score is 50 when no [SCORE:] line is present and when the value of
    the (last) [SCORE:] line is no integer literal; strengths and
    improvements that parse empty are replaced by the fixed non-empty
    defaults. *)
Theorem parse_response_degrades (response_text : string) :
  ∃ r, parse_response response_text = Ok r
    ∧ score r = score_field response_text
    ∧ strengths r = list_field "STRENGTHS:" default_strengths response_text
    ∧ improvements r = list_field "IMPROVEMENTS:" default_improvements response_text
    ∧ (labelled "SCORE:" response_text = [] → score r = 50)
    ∧ (∀ line, last (labelled "SCORE:" response_text) = Some line →
         Py.parse_int (label_value "SCORE:" line) = None → score r = 50)
    ∧ strengths r ≠ [] ∧ improvements r ≠ []
    ∧ (parsed_items "STRENGTHS:" response_text = [] → strengths r = default_strengths)
    ∧ (parsed_items "IMPROVEMENTS:" response_text = [] →
         improvements r = default_improvements).
Proof.
  destruct (parse_response_fields response_text) as (r & Hr & Es & Et & Ei).
  exists r.
  split; [done|]. split; [done|]. split; [done|]. split; [done|].
  rewrite Es, Et, Ei. unfold score_field, list_field.
  repeat split.
  - intros ->. done.
  - intros line -> Hnone. simpl. unfold score_value. by rewrite Hnone.
  - by destruct (parsed_items "STRENGTHS:" response_text).
  - by destruct (parsed_items "IMPROVEMENTS:" response_text).
  - by intros ->.
  - by intros ->.
Qed.

(** ** Random draws *)

Lemma random_below_spec (n : Z) (w : World) :
  0 < n →
  ∃ k g, random_below n w = (Ok k, set_rng g w) ∧ 0 ≤ k < n.
Proof.
  intros Hn. unfold random_below.
  pose proof (randbelow_range n (rng w) Hn) as Hr.
  destruct (randbelow n (rng w)) as [k g]. simpl in Hr. eauto.
Qed.

Lemma randint_spec (a b : Z) (w : World) :
  a ≤ b →
  ∃ k g, randint a b w = (Ok k, set_rng g w) ∧ a ≤ k ≤ b.
Proof.
  intros Hab. unfold randint, bind.
  destruct (random_below_spec (b - a + 1) w) as (k & g & -> & Hk); [lia|].
  exists (a + k), g. split; [done|lia].
Qed.

Lemma choice_spec (seq : list string) (w : World) :
  seq ≠ [] →
  ∃ x g, choice seq w = (Ok x, set_rng g w) ∧ x ∈ seq.
Proof.
  intros Hne. unfold choice. destruct seq as [|x0 seq']; [done|].
  set (seq := x0 :: seq') in *. unfold bind.
  destruct (random_below_spec (Z.of_nat (length seq)) w) as (k & g & -> & Hk);
    [simpl; lia|].
  destruct (lookup_lt_is_Some_2 seq (Z.to_nat k)) as [x Hx]; [lia|].
  rewrite Hx. exists x, g. split; [done|]. by eapply list_elem_of_lookup_2.
Qed.

(** ** Demo evaluation *)

Lemma get_demo_feedback_spec (question : Question) (w : World) :
  ∃ r g, get_demo_feedback question w = (Ok r, set_rng g w)
    ∧ strengths r = demo_strengths
    ∧ improvements r = demo_improvements
    ∧ (if String.eqb (difficulty question) "Easy" then 70 ≤ score r ≤ 90
       else if String.eqb (difficulty question) "Medium" then 60 ≤ score r ≤ 80
       else 50 ≤ score r ≤ 70)
    ∧ feedback r
      = (if String.eqb (category question) "Data Structures" then
           "Your understanding of data structures is basic. To improve, provide more specific examples and discuss time/space complexities."
         else if String.eqb (category question) "Algorithms" then
           "You explained the concept but need more detail. Add complexity analysis and implementation details."
         else if String.eqb (category question) "System Design" then
           "Good high-level thinking. Add more specific components, technologies, and scalability considerations."
         else if String.eqb (category question) "Behavioral" then
           "Good personal example. Use the STAR method more clearly and add specific outcomes/metrics."
         else
           "Good attempt. Add more technical details and real-world applications.").
Proof.
  unfold get_demo_feedback, bind.
  destruct (String.eqb (difficulty question) "Easy").
  - destruct (randint_spec 70 90 w) as (k & g & -> & Hk); [lia|].
    eexists _, g. split; [reflexivity|]. simpl. repeat split; try done; lia.
  - destruct (String.eqb (difficulty question) "Medium").
    + destruct (randint_spec 60 80 w) as (k & g & -> & Hk); [lia|].
      eexists _, g. split; [reflexivity|]. simpl. repeat split; try done; lia.
    + destruct (randint_spec 50 70 w) as (k & g & -> & Hk); [lia|].
      eexists _, g. split; [reflexivity|]. simpl. repeat split; try done; lia.
Qed.

(** C2. The demo evaluation returns a score inside the range of the
    question's difficulty (Easy: 70..90, Medium: 60..80, any other: 50..70),
    the two fixed lists, and a feedback sentence out of five that only the
    category selects. *)
Theorem demo_feedback_in_range (question : Question) (w : World) :
  ∃ r w', get_demo_feedback question w = (Ok r, w')
    ∧ (difficulty question = "Easy" → 70 ≤ score r ≤ 90)
    ∧ (difficulty question = "Medium" → 60 ≤ score r ≤ 80)
    ∧ (difficulty question ≠ "Easy" → difficulty question ≠ "Medium" →
       50 ≤ score r ≤ 70)
    ∧ strengths r = ["Clear explanation"; "Good structure"]
    ∧ improvements r = ["Add more examples"; "Be more concise"]
    ∧ feedback r ∈ demo_feedback_texts
    ∧ (∀ question2 w2 r2 w2',
         category question2 = category question →
         get_demo_feedback question2 w2 = (Ok r2, w2') →
         feedback r2 = feedback r).
Proof.
  destruct (get_demo_feedback_spec question w) as (r & g & Hr & Hs & Hi & Hsc & Hf).
  exists r, (set_rng g w). split; [done|].
  split; [|split; [|split]].
  - intros E. rewrite E in Hsc. exact Hsc.
  - intros E. rewrite E in Hsc. exact Hsc.
  - intros N1 N2.
    destruct (String.eqb_spec (difficulty question) "Easy"); [done|].
    destruct (String.eqb_spec (difficulty question) "Medium"); done.
  - split; [done|]. split; [done|]. split.
    + rewrite Hf. unfold demo_feedback_texts.
      repeat (match goal with |- context [String.eqb ?a ?b] => destruct (String.eqb a b) end);
        set_solver.
    + intros question2 w2 r2 w2' Hc H2.
      destruct (get_demo_feedback_spec question2 w2) as (r' & g' & Hr' & _ & _ & _ & Hf').
      rewrite Hr' in H2. injection H2 as <- _. rewrite Hf', Hf, Hc. done.
Qed.

(** ** Demo transcripts and transcription *)

Lemma demo_transcript_in_first (qs : list Question) (n : Z) (q : Question) (w : World) :
  find_question qs n = Some q →
  demo_transcripts q ≠ [] →
  demo_transcript_in qs n w = choice (demo_transcripts q) w.
Proof.
  unfold find_question. induction qs as [|q0 qs IH]; simpl; [done|].
  destruct (ident q0 =? n).
  - intros [= ->] Hne. by destruct (demo_transcripts q).
  - auto.
Qed.

(** In a bank where the first question with the identifier has no demo
    transcripts, the sentence of its category is returned, and no draw is
    made. *)
Lemma demo_transcript_in_generic
    (qs : list Question) (n : Z) (q : Question) (sentence : string) (w : World) :
  find_question qs n = Some q →
  demo_transcripts q = [] →
  generic_transcript (category q) = Some sentence →
  demo_transcript_in qs n w = (Ok sentence, w).
Proof.
  unfold find_question, generic_transcript.
  induction qs as [|q0 qs IH]; simpl; [done|].
  destruct (ident q0 =? n); [|done].
  intros [= ->] -> Hs.
  repeat (match type of Hs with
          | context [String.eqb ?a ?b] => destruct (String.eqb a b)
          end; [by injection Hs as <-|]).
  done.
Qed.

(** The loop of [get_question_demo_transcript] always returns. *)
Lemma demo_transcript_in_total (qs : list Question) (n : Z) (w : World) :
  ∃ t w', demo_transcript_in qs n w = (Ok t, w') ∧ same_session w w'.
Proof.
  induction qs as [|q qs IH]; simpl.
  - by exists "This is a demo transcript for a technical interview question.", w.
  - destruct (ident q =? n); [|done].
    destruct (demo_transcripts q) as [|t0 ts] eqn:E.
    + repeat (match goal with
              | |- context [String.eqb ?a ?b] => destruct (String.eqb a b)
              end; [by eexists _, w|]).
      done.
    + destruct (choice_spec (t0 :: ts) w) as (x & g & -> & _); [done|].
      by exists x, (set_rng g w).
Qed.

(** Every entry of the bank is the first one with its identifier, has a
    non-zero identifier and carries demo transcripts. *)
Lemma bank_entries :
  Forall (λ q, find_question QUESTIONS (ident q) = Some q
               ∧ ident q ≠ 0 ∧ demo_transcripts q ≠ []) QUESTIONS.
Proof. unfold QUESTIONS. repeat constructor; done. Qed.

Lemma take_length (n : nat) (s : string) : (String.length (Py.take n s) ≤ n)%nat.
Proof.
  revert s. induction n as [|n IH]; intros [|c s]; simpl; try lia.
  specialize (IH s). lia.
Qed.

(** [transcribe_audio] returns a text on every input. *)
Lemma transcribe_audio_total (audio_data : SVal) (question_id : option Z) (w : World) :
  ∃ t w', transcribe_audio whisper audio_data question_id w = (Ok t, w').
Proof.
  unfold transcribe_audio, bind, gets, try_except, st_error, modify, raise, ret.
  destruct (api_configured w); simpl.
  - destruct (get_audio_bytes audio_data) as [audio_bytes|].
    + destruct (whisper audio_bytes); [by eauto|].
      destruct (given question_id); [|by eauto].
      edestruct demo_transcript_in_total as (t & w' & Ht & _). unfold get_question_demo_transcript.
      rewrite Ht. eauto.
    + destruct (given question_id); [|by eauto].
      edestruct demo_transcript_in_total as (t & w' & Ht & _). unfold get_question_demo_transcript.
      rewrite Ht. eauto.
  - destruct (given question_id); [|by eauto].
    edestruct demo_transcript_in_total as (t & w' & Ht & _). unfold get_question_demo_transcript.
    rewrite Ht. eauto.
Qed.

Lemma demo_transcript_in_unknown (qs : list Question) (n : Z) (w : World) :
  find_question qs n = None →
  demo_transcript_in qs n w
  = (Ok "This is a demo transcript for a technical interview question.", w).
Proof.
  unfold find_question. induction qs as [|q qs IH]; simpl; [done|].
  destruct (ident q =? n); [done|]. exact IH.
Qed.

(** C4 (as amended). When the live transcription raises (no audio bytes,
    or the service call fails with any message), [transcribe_audio]
    raises nothing, whatever the audio and the question id: it shows one
    diagnostic that carries at most 100 characters of the message, leaves
    session state and progress untouched, and returns, for the id of a
    question of the bank, one of that question's demo transcripts; for
    another id, the fixed demo sentence; and without an id ([None] or
    0), the text [Error in transcription. Please try again.]. No question
    of the bank is without demo transcripts, so that the sentences by
    category are not returned. *)
Theorem transcribe_audio_absorbs_failure
    (audio_data : SVal) (question_id : option Z) (msg : string) (w : World) :
  api_configured w = true →
  (get_audio_bytes audio_data = None ∧ msg = "No audio data found")
  ∨ (∃ audio_bytes, get_audio_bytes audio_data = Some audio_bytes
                    ∧ whisper audio_bytes = Failed msg) →
  ∃ transcript w',
    transcribe_audio whisper audio_data question_id w = (Ok transcript, w')
    ∧ (question_id = None ∨ question_id = Some 0 →
       transcript = "Error in transcription. Please try again.")
    ∧ (∀ n, question_id = Some n → n ≠ 0 →
            match find_question QUESTIONS n with
            | Some question => transcript ∈ demo_transcripts question
            | None =>
                transcript
                = "This is a demo transcript for a technical interview question."
            end)
    ∧ errors w' = errors w ++ ["Transcription error: " +:+ Py.take 100 msg]
    ∧ (String.length (Py.take 100 msg) ≤ 100)%nat
    ∧ api_configured w' = api_configured w
    ∧ session_state w' = session_state w
    ∧ progress w' = progress w.
Proof.
  intros Hcfg Hfail.
  set (w1 := add_error ("Transcription error: " +:+ Py.take 100 msg) w).
  assert (transcribe_audio whisper audio_data question_id w
          = match given question_id with
            | Some n => get_question_demo_transcript n w1
            | None => (Ok "Error in transcription. Please try again.", w1)
            end) as ->.
  { unfold transcribe_audio, bind, gets, try_except, st_error, modify, raise.
    rewrite Hcfg. simpl.
    destruct Hfail as [[-> ->]|(audio_bytes & -> & ->)];
      fold w1; by destruct (given question_id). }
  destruct question_id as [n|]; [destruct (Z.eqb_spec n 0) as [->|Hn]|].
  - eexists _, w1. split; [done|]. split; [done|].
    split; [by intros n [= <-]|]. repeat split; try done. apply take_length.
  - assert (given (Some n) = Some n) as -> by (simpl; by destruct (Z.eqb_spec n 0)).
    unfold get_question_demo_transcript.
    destruct (find_question QUESTIONS n) as [question|] eqn:Hfind.
    + assert (question ∈ QUESTIONS) as Hq.
      { apply list_elem_of_In. unfold find_question in Hfind.
        by apply List.find_some in Hfind as [? _]. }
      pose proof (proj1 (Forall_forall _ _) bank_entries question Hq) as (_ & _ & Hne).
      destruct (choice_spec (demo_transcripts question) w1 Hne) as (t & g & Hch & Hin).
      exists t, (set_rng g w1).
      rewrite (demo_transcript_in_first _ _ _ _ Hfind Hne).
      split; [exact Hch|]. split; [by intros [?|[= ?]]|].
      split; [intros n' [= <-] _; by rewrite Hfind|].
      repeat split; try done. apply take_length.
    + rewrite (demo_transcript_in_unknown _ _ _ Hfind).
      eexists _, w1. split; [done|]. split; [by intros [?|[= ?]]|].
      split; [intros n' [= <-] _; by rewrite Hfind|].
      repeat split; try done. apply take_length.
  - eexists _, w1. split; [done|]. split; [done|]. split; [by intros n [=]|].
    repeat split; try done. apply take_length.
Qed.

(** ** Evaluation *)

(** [evaluate_with_gpt] always returns a dictionary: on the live path
    the parsed reply, otherwise the demo feedback. *)
Lemma evaluate_with_gpt_spec (question : Question) (answer : string) (w : World) :
  ∃ r w', evaluate_with_gpt chat question answer w = (Ok r, w')
    ∧ ((∃ response_text,
          api_configured w = true
          ∧ chat (evaluation_prompt question answer) = Answered response_text
          ∧ parse_response response_text = Ok r ∧ w' = w)
       ∨ ((api_configured w = false
           ∨ ∃ msg, chat (evaluation_prompt question answer) = Failed msg)
          ∧ 50 ≤ score r ≤ 90
          ∧ progress w' = progress w ∧ session_state w' = session_state w)).
Proof.
  assert (∀ w0, ∃ r g, get_demo_feedback question w0 = (Ok r, set_rng g w0)
                       ∧ 50 ≤ score r ≤ 90) as Hdemo.
  { intros w0. destruct (get_demo_feedback_spec question w0) as (r & g & Hr & _ & _ & Hs & _).
    exists r, g. split; [done|].
    destruct (String.eqb (difficulty question) "Easy"); [lia|].
    destruct (String.eqb (difficulty question) "Medium"); lia. }
  unfold evaluate_with_gpt, bind, gets, try_except, st_error, modify, raise, lift.
  destruct (api_configured w) eqn:Hcfg; cbn [negb].
  - destruct (chat (evaluation_prompt question answer)) as [response_text|msg] eqn:Hchat.
    + destruct (parse_response_fields response_text) as (r & Hr & _).
      rewrite Hr. exists r, w. split; [done|]. left. eauto.
    + destruct (Hdemo (add_error ("GPT Evaluation error: " +:+ Py.take 100 msg) w))
        as (r & g & -> & Hs).
      eexists _, _. split; [done|]. right. repeat split; eauto; lia.
  - destruct (Hdemo w) as (r & g & -> & Hs).
    eexists _, _. split; [done|]. right. repeat split; eauto; lia.
Qed.

(** C3 (as amended). [evaluate_with_gpt] always returns an integer
    score. On the demo path (service not configured, or the live call
    fails) it lies in 50..90. On the live path it is what the reply's
    [SCORE:] lines stand for, taken as it is: it lies in 0..100 when that
    number does. *)
Theorem evaluate_score_as_replied (question : Question) (answer : string) (w : World) :
  ∃ r w', evaluate_with_gpt chat question answer w = (Ok r, w')
    ∧ ((∃ response_text,
          api_configured w = true
          ∧ chat (evaluation_prompt question answer) = Answered response_text
          ∧ score r = score_field response_text)
       ∨ ((api_configured w = false
           ∨ ∃ msg, chat (evaluation_prompt question answer) = Failed msg)
          ∧ 50 ≤ score r ≤ 90))
    ∧ ((∀ response_text,
          chat (evaluation_prompt question answer) = Answered response_text →
          0 ≤ score_field response_text ≤ 100) →
       0 ≤ score r ≤ 100).
Proof.
  destruct (evaluate_with_gpt_spec question answer w) as (r & w' & Hr & Hcase).
  exists r, w'. split; [done|].
  destruct Hcase as [(text & Hcfg & Hchat & Hparse & _)|(Hwhy & Hs & _)].
  - destruct (parse_response_fields text) as (r' & Hr' & Hscore & _).
    rewrite Hparse in Hr'. injection Hr' as <-.
    split; [left; eauto|]. intros Hrange. rewrite Hscore. by apply Hrange.
  - split; [right; done|]. intros _. lia.
Qed.

(** C5 (as amended). [evaluate_with_gpt] does not look at the answer
    for blankness: a blank answer is scored like any other, and in demo
    mode the result does not depend on the answer at all. Blank input is
    kept away by the practice page, whose evaluation section does nothing
    on a blank answer, whatever the user clicks. *)
Theorem blank_answer_is_gated_by_the_page
    (question : Question) (answer : string) (ev : Event) (w : World) :
  Py.strip answer = "" →
  (∃ r w', evaluate_with_gpt chat question answer w = (Ok r, w'))
  ∧ (api_configured w = false →
     evaluate_with_gpt chat question answer w = get_demo_feedback question w)
  ∧ evaluate_section chat question answer ev w = (Ok tt, w).
Proof.
  intros Hblank. split; [|split].
  - destruct (evaluate_with_gpt_spec question answer w) as (r & w' & Hr & _). eauto.
  - intros Hcfg. unfold evaluate_with_gpt, bind, gets. by rewrite Hcfg.
  - unfold evaluate_section, ready_for_evaluation. rewrite Hblank. simpl.
    by rewrite andb_false_r.
Qed.

(** ** The progress record *)

Lemma del_if_present_delete {V} (k : string) (d : gmap string V) :
  del_if_present k d = delete k d.
Proof.
  unfold del_if_present. destruct (d !! k) eqn:E; [done|]. by rewrite delete_id.
Qed.

Lemma clear_completed (qid : string) (p : Progress) :
  completed (clear_progress qid p)
  = List.filter (λ q, negb (String.eqb q qid)) (completed p).
Proof.
  simpl. case_bool_decide as Hin; [done|].
  induction (completed p) as [|q l IH]; [done|]. simpl.
  apply not_elem_of_cons in Hin as [Hne Hl].
  destruct (String.eqb_spec q qid) as [->|_]; [done|]. simpl. by rewrite <- IH.
Qed.

Lemma elem_of_clear_completed (qid q : string) (p : Progress) :
  q ∈ completed (clear_progress qid p) ↔ q ≠ qid ∧ q ∈ completed p.
Proof.
  rewrite clear_completed, !list_elem_of_In, filter_In.
  destruct (String.eqb_spec q qid) as [->|Hne]; simpl.
  - split; [by intros [_ ?]|by intros [? _]].
  - split; [by intros [? _]|by intros [_ ?]].
Qed.

Lemma elem_of_mark_completed (qid q : string) (n : Z) (p : Progress) :
  q ∈ completed (mark_completed qid n p) ↔ q = qid ∨ q ∈ completed p.
Proof.
  simpl. case_bool_decide as Hin.
  - split; [by right|]. by intros [->|?].
  - rewrite elem_of_app, list_elem_of_singleton.
    split; (intros [?|?]; [by right|by left]).
Qed.

Lemma record_answer_keeps_invariant qid text p :
  completed_have_results p → completed_have_results (record_answer qid text p).
Proof. done. Qed.

Lemma record_evaluation_keeps_invariant qid eval_data p :
  completed_have_results p → completed_have_results (record_evaluation qid eval_data p).
Proof.
  intros Hp q Hq. unfold record_evaluation in *.
  change (completed (restore_evaluation qid eval_data ?x)) with (completed x) in Hq.
  apply elem_of_mark_completed in Hq. simpl.
  destruct (decide (q = qid)) as [->|Hne].
  - rewrite !lookup_insert_eq. eauto.
  - rewrite !lookup_insert_ne by done. apply Hp. by destruct Hq.
Qed.

Lemma restore_evaluation_keeps_invariant qid eval_data p :
  completed_have_results p → completed_have_results (restore_evaluation qid eval_data p).
Proof.
  intros Hp q Hq. simpl in *. destruct (Hp q Hq) as [Hs He]. split; [done|].
  destruct (decide (q = qid)) as [->|Hne].
  - rewrite lookup_insert_eq. eauto.
  - by rewrite lookup_insert_ne.
Qed.

Lemma clear_progress_keeps_invariant qid p :
  completed_have_results p → completed_have_results (clear_progress qid p).
Proof.
  intros Hp q Hq. apply elem_of_clear_completed in Hq as [Hne Hq].
  simpl. rewrite !del_if_present_delete, !lookup_delete_ne by done. by apply Hp.
Qed.

Lemma empty_progress_invariant : completed_have_results empty_progress.
Proof. intros q Hq. simpl in Hq. by apply elem_of_nil in Hq. Qed.

(** C6. In every progress record that a sequence of [record_answer],
    [record_evaluation], [clear_progress] and resets reaches from the
    record of a fresh session, each completed question has a score and an
    evaluation. *)
Theorem completed_questions_have_results (p : Progress) :
  reachable p → completed_have_results p.
Proof.
  induction 1 as [|p qid text _ IH|p qid eval_data _ IH|p qid _ IH|p _ _].
  - apply empty_progress_invariant.
  - by apply record_answer_keeps_invariant.
  - by apply record_evaluation_keeps_invariant.
  - by apply clear_progress_keeps_invariant.
  - apply empty_progress_invariant.
Qed.

(** ** Clearing one question *)

Lemma clear_question_data_progress (qid : string) (w : World) :
  ∃ w', clear_question_data qid w = (Ok true, w')
    ∧ progress w' = clear_progress qid (progress w)
    ∧ session_state w'
      = delete_keys (remove_dups (List.filter (is_question_key qid) (session_keys w)))
                    (session_state w)
    ∧ api_configured w' = api_configured w ∧ rng w' = rng w ∧ errors w' = errors w.
Proof.
  exists (set_progress (clear_progress qid (progress w))
            (set_session_state
               (delete_keys (remove_dups (List.filter (is_question_key qid) (session_keys w)))
                            (session_state w)) w)).
  done.
Qed.

(** C7. [clear_question_data] removes the question's answer,
    transcript, score, evaluation and completed mark, so that the summary
    counts the attempted and the completed questions without it; the other
    questions keep theirs. *)
Theorem clear_question_removes_all (qid : string) (w : World) :
  ∃ w', clear_question_data qid w = (Ok true, w')
    ∧ answers (progress w') !! qid = None
    ∧ transcripts (progress w') !! qid = None
    ∧ scores (progress w') !! qid = None
    ∧ evaluations (progress w') !! qid = None
    ∧ (qid ∉ completed (progress w'))
    ∧ attempted_count (summary (progress w')) = size (delete qid (answers (progress w)))
    ∧ completed_count (summary (progress w'))
      = length (List.filter (λ q, negb (String.eqb q qid)) (completed (progress w)))
    ∧ (∀ q, q ≠ qid →
         answers (progress w') !! q = answers (progress w) !! q
         ∧ transcripts (progress w') !! q = transcripts (progress w) !! q
         ∧ scores (progress w') !! q = scores (progress w) !! q
         ∧ evaluations (progress w') !! q = evaluations (progress w) !! q
         ∧ (q ∈ completed (progress w') ↔ q ∈ completed (progress w))).
Proof.
  destruct (clear_question_data_progress qid w) as (w' & Hrun & Hp & _).
  exists w'. split; [done|]. rewrite Hp.
  unfold summary, attempted_count, completed_count.
  rewrite clear_completed. simpl.
  rewrite !del_if_present_delete, !lookup_delete_eq.
  repeat split; try done.
  - rewrite <- clear_completed. rewrite elem_of_clear_completed. by intros [? _].
  - by rewrite lookup_delete_ne.
  - by rewrite lookup_delete_ne.
  - by rewrite lookup_delete_ne.
  - by rewrite lookup_delete_ne.
  - rewrite <- clear_completed, elem_of_clear_completed. by intros [_ ?].
  - rewrite <- clear_completed, elem_of_clear_completed. by intros ?.
Qed.

(** ** Effects of the page functions on [progress] *)

Section Moves.

Set Default Proof Using "Type*".

Context (R : relation Progress) `{!PreOrder R}.

Lemma moves_ret {A} (a : A) : moves R (ret a).
Proof. intros w r w' [= <- <-]. reflexivity. Qed.

Lemma moves_raise {A} (e : Exn) : moves R (raise e : M A).
Proof. intros w r w' [= <- <-]. reflexivity. Qed.

Lemma moves_lift {A} (x : Result A) : moves R (lift x).
Proof. intros w r w' [= <- <-]. reflexivity. Qed.

Lemma moves_gets {A} (f : World → A) : moves R (gets f).
Proof. intros w r w' [= <- <-]. reflexivity. Qed.

Lemma moves_modify (f : World → World) :
  (∀ w, R (progress w) (progress (f w))) → moves R (modify f).
Proof. intros Hf w r w' [= <- <-]. apply Hf. Qed.

Lemma moves_bind {A B} (c : M A) (k : A → M B) :
  moves R c → (∀ a, moves R (k a)) → moves R (bind c k).
Proof.
  intros Hc Hk w r w'. unfold bind.
  destruct (c w) as [[a|e] w1] eqn:E; intros Hrun.
  - etrans; [by eapply Hc|by eapply Hk].
  - injection Hrun as <- <-. by eapply Hc.
Qed.

Lemma moves_try_except {A} (body : M A) (handler : string → M A) :
  moves R body → (∀ e, moves R (handler e)) → moves R (try_except body handler).
Proof.
  intros Hb Hh w r w'. unfold try_except.
  destruct (body w) as [[a|[msg|]] w1] eqn:E; intros Hrun.
  - injection Hrun as <- <-. by eapply Hb.
  - etrans; [by eapply Hb|by eapply Hh].
  - injection Hrun as <- <-. by eapply Hb.
Qed.

Lemma moves_write_session key v : moves R (write_session key v).
Proof. apply moves_modify. reflexivity. Qed.

Lemma moves_st_error msg : moves R (st_error msg).
Proof. apply moves_modify. reflexivity. Qed.

Lemma moves_init_session key v : moves R (init_session key v).
Proof.
  intros w r w'. unfold init_session.
  destruct (session_state w !! key); intros [= <- <-]; reflexivity.
Qed.

Lemma moves_read_session key : moves R (read_session key).
Proof.
  intros w r w'. unfold read_session.
  destruct (session_state w !! key); intros [= <- <-]; reflexivity.
Qed.

Lemma moves_get_text key : moves R (get_text key).
Proof.
  intros w r w'. unfold get_text.
  destruct (session_state w !! key) as [[]|]; intros [= <- <-]; reflexivity.
Qed.

Lemma moves_random_below n : moves R (random_below n).
Proof.
  intros w r w'. unfold random_below.
  destruct (randbelow n (rng w)). intros [= <- <-]. reflexivity.
Qed.

Lemma moves_update_progress (f : Progress → Progress) :
  (∀ p, R p (f p)) → moves R (update_progress f).
Proof. intros Hf. apply moves_modify. intros w. apply Hf. Qed.

End Moves.

(** Decomposes a monadic computation along its structure. *)
Ltac moves_step :=
  lazymatch goal with
  | |- moves ?R (bind _ _) => apply (moves_bind R); [try done|intros ?]
  | |- moves ?R (try_except _ _) => apply (moves_try_except R); [try done|intros ?]
  | |- moves ?R (ret _) => apply (moves_ret R)
  | |- moves ?R (raise _) => apply (moves_raise R)
  | |- moves ?R (lift _) => apply (moves_lift R)
  | |- moves ?R (gets _) => apply (moves_gets R)
  | |- moves ?R (write_session _ _) => apply (moves_write_session R)
  | |- moves ?R (st_error _) => apply (moves_st_error R)
  | |- moves ?R (init_session _ _) => apply (moves_init_session R)
  | |- moves ?R (read_session _) => apply (moves_read_session R)
  | |- moves ?R (get_text _) => apply (moves_get_text R)
  | |- moves ?R (random_below _) => apply (moves_random_below R)
  | |- moves _ (match ?x with _ => _ end) => destruct x
  end.

Ltac moves_auto := repeat moves_step.

Section Keeps.

Set Default Proof Using "Type*".

Context (R : relation Progress) `{!PreOrder R}.

Lemma moves_incr_session key : moves R (incr_session key).
Proof. unfold incr_session. moves_auto. Qed.

Lemma moves_choice seq : moves R (choice seq).
Proof. unfold choice. moves_auto. Qed.

Lemma moves_demo_transcript_in qs n : moves R (demo_transcript_in qs n).
Proof.
  induction qs as [|q qs IH]; simpl; [moves_auto|].
  destruct (ident q =? n); [|done].
  destruct (demo_transcripts q); [|apply moves_choice].
  moves_auto. exact IH.
Qed.

Lemma moves_transcribe_audio audio_data question_id :
  moves R (transcribe_audio whisper audio_data question_id).
Proof.
  unfold transcribe_audio, get_question_demo_transcript.
  moves_auto; apply moves_demo_transcript_in.
Qed.

Lemma moves_get_demo_feedback question : moves R (get_demo_feedback question).
Proof. unfold get_demo_feedback, randint. moves_auto. Qed.

Lemma moves_evaluate_with_gpt question answer :
  moves R (evaluate_with_gpt chat question answer).
Proof. unfold evaluate_with_gpt. moves_auto; apply moves_get_demo_feedback. Qed.

Lemma moves_audio_recorder_component question_id ev :
  moves R (audio_recorder_component question_id ev).
Proof.
  unfold audio_recorder_component, st_rerun.
  moves_auto; try apply moves_incr_session; try (apply (moves_modify R); reflexivity).
Qed.

End Keeps.

(** ** Recording an answer *)

Lemma only_answer_changed_refl qid : Reflexive (only_answer_changed qid).
Proof. by intros p. Qed.

Lemma only_answer_changed_trans qid : Transitive (only_answer_changed qid).
Proof.
  intros p1 p2 p3 (Hc & Hs & Ht & He & Ha) (Hc' & Hs' & Ht' & He' & Ha').
  repeat split; try congruence. intros q Hq. rewrite Ha', Ha; done.
Qed.

#[local] Instance only_answer_changed_preorder qid : PreOrder (only_answer_changed qid).
Proof. split; [apply only_answer_changed_refl|apply only_answer_changed_trans]. Qed.

Lemma record_answer_only_answer (qid text : string) (p : Progress) :
  only_answer_changed qid p (record_answer qid text p).
Proof. repeat split. intros q Hq. simpl. by rewrite lookup_insert_ne. Qed.

Lemma transcribe_section_moves (R : relation Progress) `{!PreOrder R} question ev :
  (∀ p text, R p (record_answer (Py.str (ident question)) text p)) →
  moves R (transcribe_section whisper question ev).
Proof.
  intros HR. unfold transcribe_section, get_question_demo_transcript, st_rerun.
  moves_auto;
    try apply (moves_transcribe_audio R);
    try apply (moves_demo_transcript_in R);
    apply (moves_update_progress R); intros p; apply HR.
Qed.

(** C8. Storing a transcript under [progress['answers'][qid]] sets
    that answer and leaves the completed list, the scores, the transcripts
    and the evaluations, of this and of every other question, and the
    other questions' answers unchanged. This holds for the assignment
    itself and for every run of the transcription section of the page
    (lines 676-733), however it ends. *)
Theorem recording_an_answer_keeps_the_rest
    (qid text : string) (p : Progress) (question : Question) (ev : Event) (w : World) :
  answers (record_answer qid text p) !! qid = Some text
  ∧ only_answer_changed qid p (record_answer qid text p)
  ∧ only_answer_changed (Py.str (ident question)) (progress w)
      (progress (transcribe_section whisper question ev w).2).
Proof.
  split; [apply lookup_insert_eq|]. split; [apply record_answer_only_answer|].
  destruct (transcribe_section whisper question ev w) as [r w'] eqn:E.
  eapply (transcribe_section_moves (only_answer_changed (Py.str (ident question))));
    [|exact E].
  intros p0 text0. apply record_answer_only_answer.
Qed.

(** ** The invariant along the runs of the page *)

Lemma page_steps_trans : Transitive page_steps.
Proof.
  intros p1 p2 p3 H12 H23. induction H23; [done|..].
  - apply steps_record_answer; auto.
  - apply steps_restore_evaluation; auto.
  - apply steps_record_evaluation; auto.
  - apply steps_clear_question; auto.
Qed.

#[local] Instance page_steps_preorder : PreOrder page_steps.
Proof. split; [intros p; constructor|apply page_steps_trans]. Qed.

Lemma page_steps_keep_invariant p p' :
  page_steps p p' → completed_have_results p → completed_have_results p'.
Proof.
  induction 1; intros Hp; [done|..].
  - by apply record_answer_keeps_invariant, IHpage_steps.
  - by apply restore_evaluation_keeps_invariant, IHpage_steps.
  - by apply record_evaluation_keeps_invariant, IHpage_steps.
  - by apply clear_progress_keeps_invariant, IHpage_steps.
Qed.

(** A click on the evaluation button with an answer that is not blank:
    the page stores the answer, the score and the evaluation, keeps the
    evaluation under the session key as well, and reruns. *)
Lemma evaluate_section_records question final_answer (w : World) :
  ready_for_evaluation final_answer = true →
  ∃ ai_eval w',
    evaluate_section chat question final_answer ClickEvaluate w
    = (Raised RerunException, w')
    ∧ progress w'
      = record_evaluation (Py.str (ident question))
          (mkEvalData (score ai_eval) (Z.of_nat (Py.count_words false final_answer)) ai_eval)
          (record_answer (Py.str (ident question)) final_answer (progress w))
    ∧ session_state w'
      = <["evaluation_" +:+ Py.str (ident question) :=
            VEval (mkEvalData (score ai_eval)
                     (Z.of_nat (Py.count_words false final_answer)) ai_eval)]>
          (session_state w).
Proof.
  intros Hready. unfold evaluate_section. rewrite Hready.
  set (qid := Py.str (ident question)).
  unfold bind at 1. unfold update_progress at 1, modify at 1.
  set (w1 := set_progress (record_answer qid final_answer (progress w)) w).
  unfold bind at 1.
  destruct (evaluate_with_gpt_spec question final_answer w1) as (ai & w2 & -> & Hcase).
  assert (progress w2 = progress w1 ∧ session_state w2 = session_state w1) as [Hp2 Hs2].
  { destruct Hcase as [(? & _ & _ & _ & ->)|(_ & _ & ? & ?)]; done. }
  exists ai. eexists. split; [reflexivity|]. simpl. by rewrite Hp2, Hs2.
Qed.

Lemma evaluate_section_steps question final_answer ev :
  moves page_steps (evaluate_section chat question final_answer ev).
Proof.
  intros w r w'.
  destruct (ready_for_evaluation final_answer) eqn:Hready.
  - destruct ev;
      try (unfold evaluate_section; rewrite Hready; intros [= <- <-]; constructor).
    destruct (evaluate_section_records question final_answer w Hready)
      as (ai & w2 & -> & Hp & _).
    intros [= <- <-]. rewrite Hp.
    apply steps_record_evaluation, steps_record_answer. constructor.
  - unfold evaluate_section. rewrite Hready. intros [= <- <-]. constructor.
Qed.

Lemma load_evaluation_steps qid : moves page_steps (load_evaluation qid).
Proof.
  unfold load_evaluation. moves_auto.
  apply (moves_update_progress page_steps). intros p. by do 2 constructor.
Qed.

Lemma clear_question_data_steps qid : moves page_steps (clear_question_data qid).
Proof.
  intros w r w' Hrun.
  destruct (clear_question_data_progress qid w) as (w1 & Hw1 & Hp & _).
  rewrite Hw1 in Hrun. injection Hrun as <- <-. rewrite Hp. by do 2 constructor.
Qed.

Lemma practice_page_steps question ev : moves page_steps (practice_page whisper chat question ev).
Proof.
  unfold practice_page, st_rerun.
  moves_auto;
    try apply (moves_audio_recorder_component page_steps);
    try apply load_evaluation_steps;
    try apply evaluate_section_steps;
    try apply clear_question_data_steps;
    try (apply (transcribe_section_moves page_steps); intros p text; by do 2 constructor);
    try (apply (moves_update_progress page_steps); intros p; by do 2 constructor).
Qed.

Lemma show_practice_steps selected_index ev :
  moves page_steps (show_practice whisper chat selected_index ev).
Proof.
  unfold show_practice. destruct (QUESTIONS !! selected_index).
  - apply practice_page_steps.
  - apply (moves_raise page_steps).
Qed.

(** Every run of the practice page, whatever the question, the click,
    the services' answers and the way the run ends, and every reset keep
    the invariant of [progress]. *)
Lemma show_practice_keeps_invariant selected_index ev w :
  completed_have_results (progress w) →
  completed_have_results (progress (show_practice whisper chat selected_index ev w).2).
Proof.
  intros Hp. destruct (show_practice whisper chat selected_index ev w) as [r w'] eqn:E.
  eapply page_steps_keep_invariant; [|exact Hp]. by eapply show_practice_steps.
Qed.

Lemma reset_all_progress_empties (w : World) :
  ∃ w', reset_all_progress w = (Ok true, w') ∧ progress w' = empty_progress.
Proof.
  exists (set_session_state
            (delete_keys (List.filter (λ k, negb (bool_decide (k ∈ kept_keys)))
                                      (session_keys (set_progress empty_progress w)))
                         (session_state w))
            (set_progress empty_progress w)).
  done.
Qed.


(** ** The report *)

(** C9 (as amended). For the same progress record and mode, two
    runs of [generate_pdf] at different times end alike: both raise the
    same exception, or both return a document, and the two documents have
    the same drawing calls at every position except the [Generated: ...]
    line, which carries the time of the run. The summary counts, the
    average, highest and lowest score and the blocks of the attempted
    questions are therefore the same. *)
Theorem report_differs_only_in_timestamp
    (now1 now2 : string) (configured : bool) (p : Progress) :
  match generate_pdf format_average now1 configured p, generate_pdf format_average now2 configured p with
  | Ok doc1, Ok doc2 =>
      length doc1 = length doc2
      ∧ doc1 !! timestamp_position = Some (Cell 0 10 ("Generated: " +:+ now1) 0 1 "R")
      ∧ doc2 !! timestamp_position = Some (Cell 0 10 ("Generated: " +:+ now2) 0 1 "R")
      ∧ ∀ i, i ≠ timestamp_position → doc1 !! i = doc2 !! i
  | Raised e1, Raised e2 => e1 = e2
  | _, _ => False
  end.
Proof.
  unfold generate_pdf.
  destruct (score_lines format_average p) as [scores_part|e]; simpl; [|done].
  destruct (sorted_by_int _) as [entries|e]; simpl; [|done].
  destruct (question_blocks p entries) as [blocks|e]; simpl; [|done].
  split; [done|]. split; [done|]. split; [done|].
  intros i Hi. unfold timestamp_position in Hi.
  do 5 (destruct i as [|i]; [done|]). destruct i as [|i]; [done|]. done.
Qed.

(** ** The cached evaluation *)

Lemma lookup_delete_keys {V} (keys : list string) (d : gmap string V) (k : string) :
  delete_keys keys d !! k = if bool_decide (k ∈ keys) then None else d !! k.
Proof.
  induction keys as [|k0 keys IH]; simpl; [done|].
  destruct (decide (k0 = k)) as [->|Hne].
  - rewrite lookup_delete_eq. rewrite bool_decide_true; [done|]. by left.
  - rewrite lookup_delete_ne by done. rewrite IH.
    rewrite (bool_decide_ext (k ∈ k0 :: keys) (k ∈ keys)); [done|].
    rewrite elem_of_cons. split; [|by right]. by intros [->|?].
Qed.

(** [clear_question_data] deletes exactly the session keys that start
    with one of the ten prefixes. *)
Lemma clear_session_lookup (qid key : string) (w w' : World) :
  clear_question_data qid w = (Ok true, w') →
  session_state w' !! key
  = if is_question_key qid key then None else session_state w !! key.
Proof.
  intros Hrun.
  destruct (clear_question_data_progress qid w) as (w1 & Hw1 & _ & Hss & _).
  rewrite Hw1 in Hrun. injection Hrun as <-. rewrite Hss, lookup_delete_keys.
  destruct (is_question_key qid key) eqn:Hkey.
  - case_bool_decide as Hin; [done|].
    destruct (session_state w !! key) as [v|] eqn:Hv; [|done].
    exfalso. apply Hin. rewrite elem_of_remove_dups, list_elem_of_In, filter_In.
    split; [|done]. apply list_elem_of_In. unfold session_keys.
    apply list_elem_of_fmap. exists (key, v). split; [done|].
    by apply elem_of_map_to_list.
  - rewrite bool_decide_false; [done|].
    rewrite elem_of_remove_dups, list_elem_of_In, filter_In. rewrite Hkey.
    by intros [_ ?].
Qed.

Lemma prefix_refl (s : string) : String.prefix s s = true.
Proof. induction s as [|c s IH]; simpl; [done|]. by destruct (ascii_dec c c). Qed.

Lemma prefix_app (p s : string) : String.prefix p (p +:+ s) = true.
Proof.
  induction p as [|c p IH]; [by destruct s|].
  change (String c p +:+ s) with (String c (p +:+ s)). cbn [String.prefix].
  by destruct (ascii_dec c c).
Qed.

Lemma is_question_key_prefix (qid p : string) :
  p +:+ qid ∈ question_prefixes qid → is_question_key qid (p +:+ qid) = true.
Proof.
  intros Hin. unfold is_question_key. apply existsb_exists.
  exists (p +:+ qid). split; [by apply list_elem_of_In|].
  apply prefix_refl.
Qed.

(** No key [evaluation_...] starts with one of the ten prefixes. *)
Lemma evaluation_key_is_kept (qid rest : string) :
  is_question_key qid ("evaluation_" +:+ rest) = false.
Proof.
  unfold is_question_key, question_prefixes, Py.startswith.
  cbn [existsb].
  repeat (match goal with
          | |- context [String.prefix (?p +:+ qid) ?k] =>
              replace (String.prefix (p +:+ qid) k) with false
                by (symmetry; apply (first_char_differs _ "" _ "e" k);
                    [done|apply prefix_app])
          end).
  done.
Qed.

Lemma bind_ok {A B} (c : M A) (k : A → M B) (w w1 : World) (a : A) :
  c w = (Ok a, w1) → bind c k w = k a w1.
Proof. unfold bind. by intros ->. Qed.

Lemma init_session_absent (key : string) (v : SVal) (w : World) :
  session_state w !! key = None →
  init_session key v w = (Ok tt, set_session_state (<[key := v]> (session_state w)) w).
Proof. unfold init_session. by intros ->. Qed.

(** Two session keys that differ within their first [n] characters. *)
Ltac keys_differ n :=
  let E := fresh in
  intros E; apply (f_equal (Py.take n)) in E; vm_compute in E; discriminate E.

(** The run of the practice page that follows the reset of a question:
    nothing is clicked, and the keys of the question are gone. *)
Lemma practice_page_after_clear (question : Question) (eval_data : EvalData) (w : World) :
  let qid := Py.str (ident question) in
  (∀ p, p +:+ qid ∈ question_prefixes qid → session_state w !! (p +:+ qid) = None) →
  session_state w !! ("evaluation_" +:+ qid) = Some (VEval eval_data) →
  answers (progress w) !! qid = None →
  evaluations (progress w) !! qid = None →
  ∃ w', practice_page whisper chat question NoEvent w = (Ok tt, w')
        ∧ progress w' = restore_evaluation qid eval_data (progress w).
Proof.
  intros qid Hgone Hcached Hans Hev.
  assert (session_state w !! ("audio_transcript_" +:+ qid) = None) as F1
    by (apply Hgone; set_solver).
  assert (session_state w !! ("text_answer_" +:+ qid) = None) as F2
    by (apply Hgone; set_solver).
  assert (session_state w !! ("last_audio_" +:+ qid) = None) as F3
    by (apply Hgone; set_solver).
  assert (session_state w !! ("recording_active_" +:+ qid) = None) as F4
    by (apply Hgone; set_solver).
  assert (session_state w !! ("record_count_" +:+ qid) = None) as F5
    by (apply Hgone; set_solver).
  assert ("audio_transcript_" +:+ qid ≠ "text_answer_" +:+ qid) as N12 by keys_differ 1%nat.
  assert ("audio_transcript_" +:+ qid ≠ "last_audio_" +:+ qid) as N13 by keys_differ 1%nat.
  assert ("audio_transcript_" +:+ qid ≠ "recording_active_" +:+ qid) as N14
    by keys_differ 1%nat.
  assert ("audio_transcript_" +:+ qid ≠ "record_count_" +:+ qid) as N15 by keys_differ 1%nat.
  assert ("audio_transcript_" +:+ qid ≠ "evaluation_" +:+ qid) as N16 by keys_differ 1%nat.
  assert ("text_answer_" +:+ qid ≠ "last_audio_" +:+ qid) as N23 by keys_differ 1%nat.
  assert ("text_answer_" +:+ qid ≠ "recording_active_" +:+ qid) as N24 by keys_differ 1%nat.
  assert ("text_answer_" +:+ qid ≠ "record_count_" +:+ qid) as N25 by keys_differ 1%nat.
  assert ("text_answer_" +:+ qid ≠ "evaluation_" +:+ qid) as N26 by keys_differ 1%nat.
  assert ("last_audio_" +:+ qid ≠ "recording_active_" +:+ qid) as N34 by keys_differ 1%nat.
  assert ("last_audio_" +:+ qid ≠ "record_count_" +:+ qid) as N35 by keys_differ 1%nat.
  assert ("last_audio_" +:+ qid ≠ "evaluation_" +:+ qid) as N36 by keys_differ 1%nat.
  assert ("recording_active_" +:+ qid ≠ "record_count_" +:+ qid) as N45 by keys_differ 7%nat.
  assert ("recording_active_" +:+ qid ≠ "evaluation_" +:+ qid) as N46 by keys_differ 1%nat.
  assert ("record_count_" +:+ qid ≠ "evaluation_" +:+ qid) as N56 by keys_differ 1%nat.
  exists (set_progress (restore_evaluation qid eval_data (progress w))
    (if api_configured w then
       set_session_state
         (<["record_count_" +:+ qid := VInt 0]>
          (<["recording_active_" +:+ qid := VBool false]>
           (<["last_audio_" +:+ qid := VNone]>
            (<["text_answer_" +:+ qid := VStr ""]>
             (<["audio_transcript_" +:+ qid := VStr ""]> (session_state w)))))) w
     else
       set_session_state
         (<["last_audio_" +:+ qid := VNone]>
          (<["text_answer_" +:+ qid := VStr ""]>
           (<["audio_transcript_" +:+ qid := VStr ""]> (session_state w)))) w)).
  split; [|by destruct (api_configured w)].
  unfold practice_page, audio_recorder_component, transcribe_section, load_evaluation,
    evaluate_section, init_session, read_session, get_text, update_progress, modify,
    bind, gets, ret.
  fold qid. clearbody qid.
  destruct (api_configured w) eqn:Hcfg; simpl;
    repeat (first [ rewrite lookup_insert_eq
                  | rewrite lookup_insert_ne by done
                  | rewrite F1 | rewrite F2 | rewrite F3 | rewrite F4 | rewrite F5
                  | rewrite Hans | rewrite Hev | rewrite Hcached | rewrite Hcfg ];
            simpl);
    done.
Qed.

(** C10. [clear_question_data] deletes the session keys that start
    with one of its ten prefixes and no other; the key [evaluation_{qid}]
    starts with none of them and keeps its value. The run of the practice
    page that follows for that question copies the kept evaluation into
    [progress['evaluations'][qid]], while the question has no score and is
    not marked completed. *)
Theorem cached_evaluation_survives_clear
    (question : Question) (eval_data : EvalData) (w : World) :
  let qid := Py.str (ident question) in
  session_state w !! ("evaluation_" +:+ qid) = Some (VEval eval_data) →
  ∃ w1 w2,
    clear_question_data qid w = (Ok true, w1)
    ∧ (∀ key, session_state w1 !! key
              = if is_question_key qid key then None else session_state w !! key)
    ∧ is_question_key qid ("evaluation_" +:+ qid) = false
    ∧ session_state w1 !! ("evaluation_" +:+ qid) = Some (VEval eval_data)
    ∧ evaluations (progress w1) !! qid = None
    ∧ practice_page whisper chat question NoEvent w1 = (Ok tt, w2)
    ∧ evaluations (progress w2) !! qid = Some eval_data
    ∧ scores (progress w2) !! qid = None
    ∧ (qid ∉ completed (progress w2)).
Proof.
  intros qid Hcached.
  destruct (clear_question_data_progress qid w) as (w1 & Hrun & Hp & _).
  pose proof (λ key, clear_session_lookup qid key w w1 Hrun) as Hss.
  assert (session_state w1 !! ("evaluation_" +:+ qid) = Some (VEval eval_data)) as Hkept.
  { by rewrite Hss, evaluation_key_is_kept. }
  assert (evaluations (progress w1) !! qid = None) as Hev.
  { rewrite Hp. simpl. by rewrite del_if_present_delete, lookup_delete_eq. }
  destruct (practice_page_after_clear question eval_data w1) as (w2 & Hpage & Hp2);
    [|done| |done|].
  { intros p Hin. by rewrite Hss, is_question_key_prefix. }
  { rewrite Hp. simpl. by rewrite del_if_present_delete, lookup_delete_eq. }
  exists w1, w2. fold qid in Hp2.
  split; [done|]. split; [done|]. split; [apply evaluation_key_is_kept|].
  split; [done|]. split; [done|]. split; [done|].
  rewrite Hp2, Hp. simpl. rewrite lookup_insert_eq, del_if_present_delete, lookup_delete_eq.
  split; [done|]. split; [done|].
  change (qid ∉ completed (clear_progress qid (progress w))).
  rewrite elem_of_clear_completed. by intros [? _].
Qed.

(** * Further properties *)

(** ** The gateways on their other paths *)

Lemma given_bank_id (question : Question) :
  question ∈ QUESTIONS → given (Some (ident question)) = Some (ident question).
Proof.
  intros Hq.
  pose proof (proj1 (Forall_forall _ _) bank_entries question Hq) as (_ & Hid & _).
  simpl. by destruct (Z.eqb_spec (ident question) 0).
Qed.

(** X1. When the live evaluation call raises, whatever the message,
    [evaluate_with_gpt] shows one diagnostic with at most 100 characters of
    the message and returns the demo feedback: the fixed lists and a score
    in the range of the question's difficulty. Session state and progress
    are untouched. *)
Theorem evaluate_with_gpt_absorbs_failure
    (question : Question) (answer msg : string) (w : World) :
  api_configured w = true →
  chat (evaluation_prompt question answer) = Failed msg →
  ∃ r w',
    evaluate_with_gpt chat question answer w = (Ok r, w')
    ∧ errors w' = errors w ++ ["GPT Evaluation error: " +:+ Py.take 100 msg]
    ∧ strengths r = ["Clear explanation"; "Good structure"]
    ∧ improvements r = ["Add more examples"; "Be more concise"]
    ∧ (if String.eqb (difficulty question) "Easy" then 70 ≤ score r ≤ 90
       else if String.eqb (difficulty question) "Medium" then 60 ≤ score r ≤ 80
       else 50 ≤ score r ≤ 70)
    ∧ session_state w' = session_state w
    ∧ progress w' = progress w
    ∧ api_configured w' = true.
Proof.
  intros Hcfg Hchat.
  set (w1 := add_error ("GPT Evaluation error: " +:+ Py.take 100 msg) w).
  destruct (get_demo_feedback_spec question w1) as (r & g & Hr & Hs & Hi & Hsc & _).
  exists r, (set_rng g w1). split.
  - unfold evaluate_with_gpt, bind, gets, try_except, st_error, modify, raise.
    rewrite Hcfg, Hchat. cbn [negb]. exact Hr.
  - repeat split; done.
Qed.

Lemma transcribe_audio_outcome
    (audio_data : SVal) (question_id : option Z) (w : World) :
  ∃ text w',
    transcribe_audio whisper audio_data question_id w = (Ok text, w')
    ∧ session_state w' = session_state w
    ∧ progress w' = progress w
    ∧ api_configured w' = api_configured w
    ∧ (errors w' = errors w
       ∨ (api_configured w = true
          ∧ ∃ msg, errors w' = errors w ++ ["Transcription error: " +:+ Py.take 100 msg])).
Proof.
  assert (∀ n (w0 : World), ∃ t w1,
            get_question_demo_transcript n w0 = (Ok t, w1) ∧ same_session w0 w1) as Hdemo.
  { intros n w0. apply demo_transcript_in_total. }
  assert (∀ msg, ∃ text w',
            bind (st_error ("Transcription error: " +:+ Py.take 100 msg))
              (λ _, match given question_id with
                    | Some n => get_question_demo_transcript n
                    | None => ret "Error in transcription. Please try again."
                    end) w = (Ok text, w')
            ∧ session_state w' = session_state w ∧ progress w' = progress w
            ∧ api_configured w' = api_configured w
            ∧ errors w' = errors w ++ ["Transcription error: " +:+ Py.take 100 msg])
    as Hhandler.
  { intros msg. unfold bind, st_error, modify.
    set (w1 := add_error _ w).
    destruct (given question_id) as [n|].
    - destruct (Hdemo n w1) as (t & w2 & -> & Ha & Hs & Hp & He).
      exists t, w2. by rewrite Ha, Hs, Hp, He.
    - by eexists _, _. }
  unfold transcribe_audio. unfold bind at 1. unfold gets at 1.
  destruct (api_configured w) eqn:Hcfg; cbn [negb].
  - unfold try_except, raise.
    destruct (get_audio_bytes audio_data) as [audio_bytes|].
    + destruct (whisper audio_bytes) as [text|msg].
      * exists text, w. unfold ret. by repeat split; try left.
      * destruct (Hhandler msg) as (t & w' & Hrun & Hs & Hp & Ha & He).
        exists t, w'. split; [exact Hrun|]. repeat split; try done.
        right. eauto.
    + destruct (Hhandler "No audio data found") as (t & w' & Hrun & Hs & Hp & Ha & He).
      exists t, w'. split; [exact Hrun|]. repeat split; try done.
      right. eauto.
  - destruct (given question_id) as [n|].
    + destruct (Hdemo n w) as (t & w2 & -> & Ha & Hs & Hp & He).
      exists t, w2. rewrite <- Hcfg. repeat split; try done. by left.
    + eexists _, w. split; [reflexivity|]. repeat split; try done. by left.
Qed.

(** X2. [transcribe_audio] returns a text on every input, in demo and
    in live mode, and changes neither the session state nor progress; it
    shows at most one diagnostic, and none in demo mode. *)
Theorem transcribe_audio_never_raises
    (audio_data : SVal) (question_id : option Z) (w : World) :
  ∃ text w',
    transcribe_audio whisper audio_data question_id w = (Ok text, w')
    ∧ session_state w' = session_state w
    ∧ progress w' = progress w
    ∧ api_configured w' = api_configured w
    ∧ (errors w' = errors w
       ∨ (api_configured w = true
          ∧ ∃ msg, errors w' = errors w ++ ["Transcription error: " +:+ Py.take 100 msg])).
Proof. apply transcribe_audio_outcome. Qed.

(** X3. In demo mode [transcribe_audio] neither looks at the audio nor
    calls the service: for a question of the bank it returns one of that
    question's demo transcripts and shows no diagnostic. *)
Theorem transcribe_audio_in_demo_mode
    (audio_data : SVal) (question : Question) (w : World) :
  question ∈ QUESTIONS →
  api_configured w = false →
  ∃ transcript w',
    transcribe_audio whisper audio_data (Some (ident question)) w = (Ok transcript, w')
    ∧ transcript ∈ demo_transcripts question
    ∧ same_session w w'
    ∧ ∀ other_service other_audio,
        transcribe_audio other_service other_audio (Some (ident question)) w
        = (Ok transcript, w').
Proof.
  intros Hq Hcfg.
  pose proof (proj1 (Forall_forall _ _) bank_entries question Hq) as (Hfind & _ & Hne).
  destruct (choice_spec (demo_transcripts question) w Hne) as (t & g & Hch & Hin).
  assert (∀ service audio,
            transcribe_audio service audio (Some (ident question)) w
            = (Ok t, set_rng g w)) as Hrun.
  { intros service audio. unfold transcribe_audio, bind, gets.
    rewrite Hcfg, (given_bank_id _ Hq). cbn [negb].
    unfold get_question_demo_transcript.
    by rewrite (demo_transcript_in_first _ _ _ _ Hfind Hne). }
  exists t, (set_rng g w). split; [apply Hrun|]. split; [done|]. split; [done|].
  apply Hrun.
Qed.

(** X4. Without a usable question, the fallbacks of [transcribe_audio]
    are fixed sentences: for no identifier or the identifier 0, the
    configuration notice in demo mode and the retry notice after a failed
    live call; for an identifier that no question of the bank has, the
    generic demo transcript. No draw is made in either case. *)
Theorem transcribe_audio_without_question
    (audio_data : SVal) (question_id : option Z) (w : World) :
  (given question_id = None →
     (api_configured w = false →
        transcribe_audio whisper audio_data question_id w
        = (Ok "API not configured. Please add OpenAI API key to enable transcription.", w))
     ∧ (api_configured w = true → get_audio_bytes audio_data = None →
        transcribe_audio whisper audio_data question_id w
        = (Ok "Error in transcription. Please try again.",
           add_error "Transcription error: No audio data found" w)))
  ∧ (∀ n, given question_id = Some n → find_question QUESTIONS n = None →
       api_configured w = false →
       transcribe_audio whisper audio_data question_id w
       = (Ok "This is a demo transcript for a technical interview question.", w)).
Proof.
  split.
  - intros Hnone. split.
    + intros Hcfg. unfold transcribe_audio, bind, gets. by rewrite Hcfg, Hnone.
    + intros Hcfg Hbytes.
      unfold transcribe_audio, bind, gets, try_except, raise, st_error, modify.
      by rewrite Hcfg, Hnone, Hbytes.
  - intros n Hn Hfind Hcfg. unfold transcribe_audio, bind, gets.
    rewrite Hcfg, Hn. cbn [negb]. by apply demo_transcript_in_unknown.
Qed.

(** ** Replies of the evaluator *)

Lemma parse_lines_without_labels (lines : list string) (result : Feedback) :
  Forall (λ line,
            Py.startswith "SCORE:" (Py.strip line) = false
            ∧ Py.startswith "STRENGTHS:" (Py.strip line) = false
            ∧ Py.startswith "IMPROVEMENTS:" (Py.strip line) = false
            ∧ Py.startswith "FEEDBACK:" (Py.strip line) = false) lines →
  parse_lines result lines = Ok result.
Proof.
  induction 1 as [|line lines (Hs & Ht & Hi & Hf) _ IH]; [done|].
  simpl. unfold parse_line. rewrite Hs, Ht, Hi, Hf. simpl. exact IH.
Qed.

(** X5. A reply in which no line carries one of the four labels is
    answered with the complete default evaluation: score 50, the default
    strengths and improvements and the default feedback sentence. *)
Theorem reply_without_labels_gives_defaults (response_text : string) :
  Forall (λ line,
            Py.startswith "SCORE:" (Py.strip line) = false
            ∧ Py.startswith "STRENGTHS:" (Py.strip line) = false
            ∧ Py.startswith "IMPROVEMENTS:" (Py.strip line) = false
            ∧ Py.startswith "FEEDBACK:" (Py.strip line) = false)
         (Py.split "010" response_text) →
  parse_response response_text
  = Ok (mkFeedback 50 ["Clear communication"; "Good attempt"]
          ["Add more technical details"; "Be more specific"]
          "Good effort. Consider providing more specific technical details and examples to improve your answer.").
Proof.
  intros Hlines. unfold parse_response.
  by rewrite (parse_lines_without_labels _ _ Hlines).
Qed.

(** X6. A reply that gives a score in the requested range as
    [SCORE: n] is read back as exactly that score: printing the number and
    parsing the line is a round trip for every n from 0 to 100. *)
Theorem score_reply_round_trip (n : Z) :
  0 ≤ n ≤ 100 →
  ∃ r, parse_response ("SCORE: " +:+ Py.str n) = Ok r ∧ score r = n.
Proof.
  intros Hn.
  assert (∃ k : nat, (k ≤ 100)%nat ∧ n = Z.of_nat k) as (k & Hk & ->).
  { exists (Z.to_nat n). lia. }
  clear Hn.
  do 101 (destruct k as [|k]; [by eexists; split; vm_compute|]).
  lia.
Qed.

(** ** Effects of a whole run on [progress] *)

Section RunMoves.

Set Default Proof Using "Type*".

Context (R : relation Progress) `{!PreOrder R}.

Lemma load_evaluation_moves qid :
  (∀ p e, evaluations p !! qid = None → R p (restore_evaluation qid e p)) →
  moves R (load_evaluation qid).
Proof.
  intros HR w r w'. unfold load_evaluation, bind, gets, update_progress, modify, raise, ret.
  destruct (evaluations (progress w) !! qid) eqn:E; [intros [= <- <-]; reflexivity|].
  destruct (session_state w !! _) as [[]|]; intros [= <- <-]; try reflexivity.
  simpl. by apply HR.
Qed.

Lemma evaluate_section_moves question final_answer ev :
  (∀ p e text, R p (record_evaluation (Py.str (ident question)) e
                      (record_answer (Py.str (ident question)) text p))) →
  moves R (evaluate_section chat question final_answer ev).
Proof.
  intros HR w r w'.
  destruct (ready_for_evaluation final_answer) eqn:Hready.
  - destruct ev;
      try (unfold evaluate_section; rewrite Hready; intros [= <- <-]; reflexivity).
    destruct (evaluate_section_records question final_answer w Hready)
      as (ai & w2 & -> & Hp & _).
    intros [= <- <-]. rewrite Hp. apply HR.
  - unfold evaluate_section. rewrite Hready. intros [= <- <-]. reflexivity.
Qed.

Lemma clear_question_data_moves qid :
  (∀ p, R p (clear_progress qid p)) → moves R (clear_question_data qid).
Proof.
  intros HR w r w' Hrun.
  destruct (clear_question_data_progress qid w) as (w1 & Hw1 & Hp & _).
  rewrite Hw1 in Hrun. injection Hrun as <- <-. rewrite Hp. apply HR.
Qed.

Lemma reset_all_progress_moves :
  (∀ p, R p empty_progress) → moves R reset_all_progress.
Proof.
  intros HR w r w' Hrun.
  destruct (reset_all_progress_empties w) as (w1 & Hw1 & Hp).
  rewrite Hw1 in Hrun. injection Hrun as <- <-. rewrite Hp. apply HR.
Qed.

Lemma practice_page_moves question ev :
  (∀ p text, R p (record_answer (Py.str (ident question)) text p)) →
  (∀ p e, evaluations p !! Py.str (ident question) = None →
          R p (restore_evaluation (Py.str (ident question)) e p)) →
  (∀ p e text, R p (record_evaluation (Py.str (ident question)) e
                      (record_answer (Py.str (ident question)) text p))) →
  (∀ p, R p (clear_progress (Py.str (ident question)) p)) →
  moves R (practice_page whisper chat question ev).
Proof.
  intros Hanswer Hrestore Hevaluate Hclear.
  unfold practice_page, st_rerun.
  moves_auto;
    try apply (moves_audio_recorder_component R);
    try (by apply load_evaluation_moves);
    try (by apply evaluate_section_moves);
    try (by apply clear_question_data_moves);
    try (by apply (transcribe_section_moves R));
    try (apply (moves_update_progress R); intros p; apply Hanswer).
Qed.

Lemma show_errors_moves msgs : moves R (show_errors msgs).
Proof. induction msgs as [|msg msgs IH]; simpl; moves_auto. exact IH. Qed.

Lemma startup_moves s : moves R (startup s).
Proof.
  unfold startup. destruct (configure s) as [configured msgs].
  moves_auto; try apply show_errors_moves; apply (moves_modify R); reflexivity.
Qed.

Lemma show_average_moves : moves R (show_average format_average).
Proof. unfold show_average. moves_auto. Qed.

Lemma go_to_moves name : moves R (go_to name).
Proof. unfold go_to, st_rerun. moves_auto. Qed.

Lemma show_sidebar_moves s selected reset_click :
  (∀ p, R p empty_progress) →
  moves R (show_sidebar format_average s selected reset_click).
Proof.
  intros Hreset. unfold show_sidebar, st_rerun.
  moves_auto; try apply show_average_moves; by apply reset_all_progress_moves.
Qed.

Lemma show_home_moves click : moves R (show_home format_average click).
Proof. unfold show_home. moves_auto; try apply go_to_moves; apply show_average_moves. Qed.

Lemma show_dashboard_moves click : moves R (show_dashboard format_average click).
Proof.
  unfold show_dashboard. moves_auto; try apply go_to_moves; apply show_average_moves.
Qed.

Lemma show_report_moves now click : moves R (show_report format_average now click).
Proof.
  unfold show_report. moves_auto; try apply go_to_moves; apply show_average_moves.
Qed.

End RunMoves.

Lemma bank_id_of_question (question : Question) :
  question ∈ QUESTIONS → Py.str (ident question) ∈ bank_ids.
Proof. intros Hq. unfold bank_ids. by apply (list_elem_of_fmap_2 (λ q, Py.str (ident q))). Qed.

(** A run of the practice page only files questions of the bank. *)
Lemma show_practice_moves (R : relation Progress) `{!PreOrder R} selected ev :
  (∀ qid p text, qid ∈ bank_ids → R p (record_answer qid text p)) →
  (∀ qid p e, qid ∈ bank_ids → evaluations p !! qid = None →
              R p (restore_evaluation qid e p)) →
  (∀ qid p e text, qid ∈ bank_ids →
                   R p (record_evaluation qid e (record_answer qid text p))) →
  (∀ qid p, R p (clear_progress qid p)) →
  moves R (show_practice whisper chat selected ev).
Proof.
  intros Hanswer Hrestore Hevaluate Hclear. unfold show_practice.
  destruct (QUESTIONS !! selected) as [question|] eqn:E; [|apply (moves_raise R)].
  pose proof (bank_id_of_question question (list_elem_of_lookup_2 _ _ _ E)) as Hid.
  apply (practice_page_moves R); eauto.
Qed.

Lemma script_moves (R : relation Progress) `{!PreOrder R} s i :
  (∀ qid p text, qid ∈ bank_ids → R p (record_answer qid text p)) →
  (∀ qid p e, qid ∈ bank_ids → evaluations p !! qid = None →
              R p (restore_evaluation qid e p)) →
  (∀ qid p e text, qid ∈ bank_ids →
                   R p (record_evaluation qid e (record_answer qid text p))) →
  (∀ qid p, R p (clear_progress qid p)) →
  (∀ p, R p empty_progress) →
  moves R (script whisper chat format_average s i).
Proof.
  intros Hanswer Hrestore Hevaluate Hclear Hreset.
  unfold script, main.
  moves_auto;
    try (by apply (startup_moves R));
    try (by apply (show_sidebar_moves R));
    try apply (show_home_moves R);
    try apply (show_dashboard_moves R);
    try apply (show_report_moves R);
    by apply (show_practice_moves R).
Qed.

(** ** The shape of [progress] in a session *)

Lemma wf_empty : progress_wf empty_progress.
Proof.
  split; simpl; try done.
  - constructor.
  - intros q. rewrite lookup_empty. split; [by intros ?%elem_of_nil|by intros [? ?]].
  - intros q ?%elem_of_nil. done.
  - intros q. rewrite lookup_empty. by intros [? ?].
Qed.

Lemma wf_record_answer qid text p :
  qid ∈ bank_ids → progress_wf p → progress_wf (record_answer qid text p).
Proof.
  intros Hid [Hnd Hsc Hev Han Hk Htr]. split; simpl; try done.
  - intros q Hq. destruct (decide (qid = q)) as [->|Hne].
    + rewrite lookup_insert_eq. eauto.
    + rewrite lookup_insert_ne by done. by apply Han.
  - intros q. destruct (decide (qid = q)) as [->|Hne]; [done|].
    rewrite lookup_insert_ne by done. apply Hk.
Qed.

Lemma wf_restore_evaluation qid e p :
  evaluations p !! qid = None → progress_wf p → progress_wf (restore_evaluation qid e p).
Proof.
  intros Hnone [Hnd Hsc Hev Han Hk Htr]. split; simpl; try done.
  intros q s Hs. destruct (Hev q s Hs) as (e' & He' & Ho).
  destruct (decide (qid = q)) as [->|Hne]; [congruence|].
  rewrite lookup_insert_ne by done. eauto.
Qed.

Lemma wf_record_evaluation qid e text p :
  qid ∈ bank_ids → progress_wf p →
  progress_wf (record_evaluation qid e (record_answer qid text p)).
Proof.
  intros Hid [Hnd Hsc Hev Han Hk Htr]. split; simpl; try done.
  - case_bool_decide as Hin; [done|].
    apply NoDup_app. split; [done|]. split; [|apply NoDup_singleton].
    intros q Hq ->%list_elem_of_singleton. done.
  - intros q.
    change (q ∈ completed (mark_completed qid (overall_score e) p)
            ↔ is_Some (<[qid := overall_score e]> (scores p) !! q)).
    rewrite elem_of_mark_completed.
    destruct (decide (qid = q)) as [->|Hne].
    + rewrite lookup_insert_eq. split; [eauto|by left].
    + rewrite lookup_insert_ne by done. rewrite <- Hsc.
      split; [by intros [->|?]|by right].
  - intros q s. destruct (decide (qid = q)) as [->|Hne].
    + rewrite !lookup_insert_eq. intros [= <-]. eauto.
    + rewrite !lookup_insert_ne by done. apply Hev.
  - intros q.
    change (q ∈ completed (mark_completed qid (overall_score e) p)
            → is_Some (<[qid := text]> (answers p) !! q)).
    rewrite elem_of_mark_completed.
    destruct (decide (qid = q)) as [->|Hne].
    + rewrite lookup_insert_eq. eauto.
    + rewrite lookup_insert_ne by done. intros [->|?]; [done|]. by apply Han.
  - intros q. destruct (decide (qid = q)) as [->|Hne]; [done|].
    rewrite lookup_insert_ne by done. apply Hk.
Qed.

Lemma wf_clear_progress qid p : progress_wf p → progress_wf (clear_progress qid p).
Proof.
  intros [Hnd Hsc Hev Han Hk Htr]. split.
  - rewrite clear_completed. by apply NoDup_ListNoDup, List.NoDup_filter, NoDup_ListNoDup.
  - intros q. rewrite elem_of_clear_completed. simpl. rewrite del_if_present_delete.
    destruct (decide (qid = q)) as [->|Hne].
    + rewrite lookup_delete_eq. split; [by intros [? _]|by intros [? ?]].
    + rewrite lookup_delete_ne by done. rewrite <- Hsc. split; [by intros [_ ?]|done].
  - intros q s. simpl. rewrite !del_if_present_delete.
    destruct (decide (qid = q)) as [->|Hne].
    + by rewrite lookup_delete_eq.
    + rewrite !lookup_delete_ne by done. apply Hev.
  - intros q. rewrite elem_of_clear_completed. simpl. rewrite del_if_present_delete.
    intros [Hne Hq]. rewrite lookup_delete_ne by done. by apply Han.
  - intros q. simpl. rewrite del_if_present_delete.
    destruct (decide (qid = q)) as [->|Hne].
    + rewrite lookup_delete_eq. by intros [? ?].
    + rewrite lookup_delete_ne by done. apply Hk.
  - simpl. rewrite del_if_present_delete, Htr. apply delete_empty.
Qed.

#[local] Instance keeps_wf_preorder : PreOrder keeps_wf.
Proof.
  split.
  - intros p Hp. exact Hp.
  - intros p1 p2 p3 H12 H23 Hp. by apply H23, H12.
Qed.

Lemma script_keeps_wf s i : moves keeps_wf (script whisper chat format_average s i).
Proof.
  apply (script_moves keeps_wf).
  - intros qid p text Hid Hp. by apply wf_record_answer.
  - intros qid p e Hid Hnone Hp. by apply wf_restore_evaluation.
  - intros qid p e text Hid Hp. by apply wf_record_evaluation.
  - intros qid p Hp. by apply wf_clear_progress.
  - intros p _. apply wf_empty.
Qed.

Lemma reachable_progress_wf (w : World) :
  session_reachable whisper chat format_average w → progress_wf (progress w).
Proof.
  induction 1 as [g|w s i _ IH]; [apply wf_empty|].
  destruct (script whisper chat format_average s i w) as [r w'] eqn:E.
  by apply (script_keeps_wf s i w r w' E).
Qed.

Lemma bank_ids_distinct : NoDup bank_ids ∧ length bank_ids = 10%nat.
Proof.
  split; [|done]. apply (bool_decide_unpack (NoDup bank_ids)). by vm_compute.
Qed.

Lemma wf_counts p :
  progress_wf p →
  length (completed p) = size (scores p)
  ∧ (length (completed p) ≤ size (answers p))%nat
  ∧ (size (answers p) ≤ 10)%nat.
Proof.
  intros [Hnd Hsc Hev Han Hk Htr].
  assert (list_to_set (completed p) = dom (scores p) :> gset string) as Hdom.
  { apply set_eq. intros q. rewrite elem_of_list_to_set, elem_of_dom. apply Hsc. }
  assert (list_to_set (completed p) ⊆@{gset string} dom (answers p)) as Hsub.
  { intros q. rewrite elem_of_list_to_set, elem_of_dom. apply Han. }
  assert (dom (answers p) ⊆@{gset string} list_to_set bank_ids) as Hbank.
  { intros q. rewrite elem_of_list_to_set, elem_of_dom. apply Hk. }
  destruct bank_ids_distinct as [Hnb Hlen].
  split; [|split].
  - rewrite <- (size_list_to_set (C:=gset string)) by done. by rewrite Hdom, size_dom.
  - rewrite <- (size_list_to_set (C:=gset string)) by done.
    rewrite <- (size_dom (answers p)). by apply subseteq_size.
  - rewrite <- (size_dom (answers p)), <- Hlen.
    rewrite <- (size_list_to_set (C:=gset string) bank_ids) by done.
    by apply subseteq_size.
Qed.

(** X7. In every session that runs of the script reach from a fresh
    one, whatever is clicked and whatever the services answer: the
    completed list has no duplicates and lists exactly the questions that
    have a score; each score is the overall score of the stored evaluation;
    every completed question has an answer; answers are filed only under
    the identifiers of the bank; and [progress['transcripts']] is empty. *)
Theorem session_progress_is_consistent (w : World) :
  session_reachable whisper chat format_average w →
  NoDup (completed (progress w))
  ∧ (∀ q, q ∈ completed (progress w) ↔ is_Some (scores (progress w) !! q))
  ∧ (∀ q s, scores (progress w) !! q = Some s →
            ∃ e, evaluations (progress w) !! q = Some e ∧ overall_score e = s)
  ∧ (∀ q, q ∈ completed (progress w) → is_Some (answers (progress w) !! q))
  ∧ (∀ q, is_Some (answers (progress w) !! q) → q ∈ bank_ids)
  ∧ transcripts (progress w) = ∅.
Proof. intros Hw. by destruct (reachable_progress_wf w Hw). Qed.

(** X8. In every reachable session the figures of the sidebar agree:
    the number of completed questions is the number of scores that the
    average is taken over, it is at most the number of attempted questions,
    and that is at most the ten questions of the bank. *)
Theorem session_counts_agree (w : World) :
  session_reachable whisper chat format_average w →
  completed_count (summary (progress w)) = size (scores (progress w))
  ∧ (completed_count (summary (progress w)) ≤ attempted_count (summary (progress w)))%nat
  ∧ (attempted_count (summary (progress w)) ≤ length QUESTIONS)%nat.
Proof. intros Hw. by apply wf_counts, reachable_progress_wf. Qed.

(** ** What a run leaves alone *)

Section Preserves.

Set Default Proof Using "Type*".

Context {B : Type} (obs : World → B).
Hypothesis obs_session_state : ∀ ss w, obs (set_session_state ss w) = obs w.
Hypothesis obs_progress : ∀ p w, obs (set_progress p w) = obs w.
Hypothesis obs_rng : ∀ g w, obs (set_rng g w) = obs w.
Hypothesis obs_errors : ∀ msg w, obs (add_error msg w) = obs w.

Lemma preserves_ret {A} (a : A) : preserves obs (ret a).
Proof. by intros w r w' [= <- <-]. Qed.

Lemma preserves_raise {A} (e : Exn) : preserves obs (raise e : M A).
Proof. by intros w r w' [= <- <-]. Qed.

Lemma preserves_lift {A} (x : Result A) : preserves obs (lift x).
Proof. by intros w r w' [= <- <-]. Qed.

Lemma preserves_gets {A} (f : World → A) : preserves obs (gets f).
Proof. by intros w r w' [= <- <-]. Qed.

Lemma preserves_modify (f : World → World) :
  (∀ w, obs (f w) = obs w) → preserves obs (modify f).
Proof. intros Hf w r w' [= <- <-]. apply Hf. Qed.

Lemma preserves_bind {A C} (c : M A) (k : A → M C) :
  preserves obs c → (∀ a, preserves obs (k a)) → preserves obs (bind c k).
Proof.
  intros Hc Hk w r w'. unfold bind.
  destruct (c w) as [[a|e] w1] eqn:E; intros Hrun.
  - rewrite (Hk a w1 r w' Hrun). by eapply Hc.
  - injection Hrun as <- <-. by eapply Hc.
Qed.

Lemma preserves_try_except {A} (body : M A) (handler : string → M A) :
  preserves obs body → (∀ e, preserves obs (handler e)) →
  preserves obs (try_except body handler).
Proof.
  intros Hb Hh w r w'. unfold try_except.
  destruct (body w) as [[a|[msg|]] w1] eqn:E; intros Hrun.
  - injection Hrun as <- <-. by eapply Hb.
  - rewrite (Hh msg w1 r w' Hrun). by eapply Hb.
  - injection Hrun as <- <-. by eapply Hb.
Qed.

Lemma preserves_write_session key v : preserves obs (write_session key v).
Proof. apply preserves_modify. intros w. apply obs_session_state. Qed.

Lemma preserves_st_error msg : preserves obs (st_error msg).
Proof. apply preserves_modify. intros w. apply obs_errors. Qed.

Lemma preserves_update_progress f : preserves obs (update_progress f).
Proof. apply preserves_modify. intros w. apply obs_progress. Qed.

Lemma preserves_init_session key v : preserves obs (init_session key v).
Proof.
  intros w r w'. unfold init_session.
  destruct (session_state w !! key); intros [= <- <-]; [done|apply obs_session_state].
Qed.

Lemma preserves_read_session key : preserves obs (read_session key).
Proof.
  intros w r w'. unfold read_session.
  by destruct (session_state w !! key); intros [= <- <-].
Qed.

Lemma preserves_get_text key : preserves obs (get_text key).
Proof.
  intros w r w'. unfold get_text.
  by destruct (session_state w !! key) as [[]|]; intros [= <- <-].
Qed.

Lemma preserves_random_below n : preserves obs (random_below n).
Proof.
  intros w r w'. unfold random_below.
  destruct (randbelow n (rng w)). intros [= <- <-]. apply obs_rng.
Qed.

Lemma preserves_session_change (f : World → gmap string SVal) :
  preserves obs (modify (λ w, set_session_state (f w) w)).
Proof. apply preserves_modify. intros w. apply obs_session_state. Qed.

(** Decomposes a computation along its structure. *)
Ltac preserves_step :=
  lazymatch goal with
  | |- preserves _ (bind _ _) => apply preserves_bind; [try done|intros ?]
  | |- preserves _ (try_except _ _) => apply preserves_try_except; [try done|intros ?]
  | |- preserves _ (ret _) => apply preserves_ret
  | |- preserves _ (raise _) => apply preserves_raise
  | |- preserves _ st_rerun => apply preserves_raise
  | |- preserves _ (lift _) => apply preserves_lift
  | |- preserves _ (gets _) => apply preserves_gets
  | |- preserves _ (write_session _ _) => apply preserves_write_session
  | |- preserves _ (st_error _) => apply preserves_st_error
  | |- preserves _ (update_progress _) => apply preserves_update_progress
  | |- preserves _ (init_session _ _) => apply preserves_init_session
  | |- preserves _ (read_session _) => apply preserves_read_session
  | |- preserves _ (get_text _) => apply preserves_get_text
  | |- preserves _ (random_below _) => apply preserves_random_below
  | |- preserves _ (modify (λ w, set_session_state _ w)) =>
      apply preserves_session_change
  | |- preserves _ (match ?x with _ => _ end) => destruct x
  end.

Ltac preserves_auto := repeat preserves_step.

Lemma preserves_incr_session key : preserves obs (incr_session key).
Proof. unfold incr_session. preserves_auto. Qed.

Lemma preserves_choice seq : preserves obs (choice seq).
Proof. unfold choice. preserves_auto. Qed.

Lemma preserves_demo_transcript_in qs n : preserves obs (demo_transcript_in qs n).
Proof.
  induction qs as [|q qs IH]; simpl; [preserves_auto|].
  destruct (ident q =? n); [|done].
  destruct (demo_transcripts q); [|apply preserves_choice].
  preserves_auto. exact IH.
Qed.

Lemma preserves_transcribe_audio audio_data question_id :
  preserves obs (transcribe_audio whisper audio_data question_id).
Proof.
  unfold transcribe_audio, get_question_demo_transcript.
  preserves_auto; apply preserves_demo_transcript_in.
Qed.

Lemma preserves_get_demo_feedback question : preserves obs (get_demo_feedback question).
Proof. unfold get_demo_feedback, randint. preserves_auto. Qed.

Lemma preserves_evaluate_with_gpt question answer :
  preserves obs (evaluate_with_gpt chat question answer).
Proof. unfold evaluate_with_gpt. preserves_auto; apply preserves_get_demo_feedback. Qed.

Lemma preserves_audio_recorder_component question_id ev :
  preserves obs (audio_recorder_component question_id ev).
Proof.
  unfold audio_recorder_component, st_rerun.
  preserves_auto; apply preserves_incr_session.
Qed.

Lemma preserves_transcribe_section question ev :
  preserves obs (transcribe_section whisper question ev).
Proof.
  unfold transcribe_section, get_question_demo_transcript, st_rerun.
  preserves_auto;
    try apply preserves_transcribe_audio; apply preserves_demo_transcript_in.
Qed.

Lemma preserves_load_evaluation qid : preserves obs (load_evaluation qid).
Proof. unfold load_evaluation. preserves_auto. Qed.

Lemma preserves_evaluate_section question final_answer ev :
  preserves obs (evaluate_section chat question final_answer ev).
Proof.
  unfold evaluate_section, st_rerun. preserves_auto; apply preserves_evaluate_with_gpt.
Qed.

Lemma preserves_clear_question_data qid : preserves obs (clear_question_data qid).
Proof. unfold clear_question_data. preserves_auto. Qed.

Lemma preserves_reset_all_progress : preserves obs reset_all_progress.
Proof.
  unfold reset_all_progress. preserves_auto.
  apply preserves_modify. intros w. apply obs_progress.
Qed.

Lemma preserves_practice_page question ev :
  preserves obs (practice_page whisper chat question ev).
Proof.
  unfold practice_page, st_rerun.
  preserves_auto;
    try apply preserves_audio_recorder_component;
    try apply preserves_transcribe_section;
    try apply preserves_load_evaluation;
    try apply preserves_evaluate_section;
    try apply preserves_clear_question_data.
Qed.

Lemma preserves_show_practice selected ev :
  preserves obs (show_practice whisper chat selected ev).
Proof.
  unfold show_practice. destruct (QUESTIONS !! selected).
  - apply preserves_practice_page.
  - apply preserves_raise.
Qed.

Lemma preserves_show_average : preserves obs (show_average format_average).
Proof. unfold show_average. preserves_auto. Qed.

Lemma preserves_go_to name : preserves obs (go_to name).
Proof. unfold go_to, st_rerun. preserves_auto. Qed.

Lemma preserves_show_sidebar s selected reset_click :
  preserves obs (show_sidebar format_average s selected reset_click).
Proof.
  unfold show_sidebar, st_rerun.
  preserves_auto; try apply preserves_show_average; apply preserves_reset_all_progress.
Qed.

Lemma preserves_main s i : preserves obs (main whisper chat format_average s i).
Proof.
  unfold main, show_home, show_dashboard, show_report.
  preserves_auto;
    try apply preserves_show_sidebar;
    try apply preserves_show_average;
    try apply preserves_go_to;
    apply preserves_show_practice.
Qed.

End Preserves.

(** ** Whole runs of the script *)

Lemma bind_raised {A C} (c : M A) (k : A → M C) (w w1 : World) (e : Exn) :
  c w = (Raised e, w1) → bind c k w = (Raised e, w1).
Proof. unfold bind. by intros ->. Qed.

Lemma show_errors_run (msgs : list string) (w : World) :
  ∃ w1, show_errors msgs w = (Ok tt, w1)
        ∧ api_configured w1 = api_configured w
        ∧ progress w1 = progress w
        ∧ session_state w1 = session_state w.
Proof.
  revert w. induction msgs as [|msg msgs IH]; intros w; simpl.
  - by exists w.
  - destruct (IH (add_error msg w)) as (w1 & Hrun & Ha & Hp & Hs).
    exists w1. split; [|done]. unfold bind, st_error, modify. exact Hrun.
Qed.

(** The top of the script never fails; it turns the flag on when the
    connection test of this run succeeds and leaves it alone otherwise. *)
Lemma startup_run (s : Setup) (w : World) :
  ∃ w1, startup s w = (Ok tt, w1)
        ∧ api_configured w1 = (configure s).1 || api_configured w
        ∧ progress w1 = progress w
        ∧ session_state w1 = session_state w.
Proof.
  unfold startup.
  set (w0 := if openai_available s then w
             else add_error "OpenAI package not installed. Run: pip install openai" w).
  assert ((if openai_available s then ret tt
           else st_error "OpenAI package not installed. Run: pip install openai") w
          = (Ok tt, w0)) as H0 by (unfold w0; by destruct (openai_available s)).
  rewrite (bind_ok _ _ _ _ _ H0).
  assert (api_configured w0 = api_configured w ∧ progress w0 = progress w
          ∧ session_state w0 = session_state w) as (Ha0 & Hp0 & Hs0)
    by (unfold w0; by destruct (openai_available s)).
  destruct (configure s) as [configured msgs]. simpl.
  destruct (show_errors_run msgs w0) as (w1 & Hrun & Ha & Hp & Hs).
  rewrite (bind_ok _ _ _ _ _ Hrun).
  destruct configured.
  - exists (set_api_configured true w1). split; [done|]. simpl.
    by rewrite Hp, Hs, Hp0, Hs0.
  - exists w1. split; [done|]. simpl. by rewrite Ha, Hp, Hs, Ha0, Hp0, Hs0.
Qed.

Lemma main_keeps_mode (s : Setup) (i : Inputs) (w : World) :
  api_configured (main whisper chat format_average s i w).2 = api_configured w.
Proof.
  destruct (main whisper chat format_average s i w) as [r w'] eqn:E.
  by eapply (preserves_main api_configured) in E.
Qed.

Lemma script_mode (s : Setup) (i : Inputs) (w : World) :
  api_configured (script whisper chat format_average s i w).2
  = (configure s).1 || api_configured w.
Proof.
  unfold script.
  destruct (startup_run s w) as (w1 & Hs & Ha & _).
  rewrite (bind_ok _ _ _ _ _ Hs), <- Ha. apply main_keeps_mode.
Qed.

(** X9. After one run of the script the session is in live mode if and
    only if the connection test of this run succeeded or the session was
    in live mode before: no page, button or reset turns the mode off, so
    a session that was once live stays live when the key is taken away. *)
Theorem live_mode_outlasts_its_key (s : Setup) (i : Inputs) (w : World) :
  api_configured (script whisper chat format_average s i w).2
  = (configure s).1 || api_configured w.
Proof. apply script_mode. Qed.

Lemma key_found_spec (api_key : option string) :
  key_found api_key = true ↔ ∃ k, api_key = Some k ∧ k ≠ "".
Proof.
  destruct api_key as [k|]; simpl.
  - rewrite negb_true_iff, String.eqb_neq. split.
    + intros Hk. by exists k.
    + by intros (k' & [= <-] & Hk).
  - split; [done|]. by intros (k & ? & _).
Qed.

Lemma configure_spec (s : Setup) :
  (configure s).1 = true
  ↔ ∃ key, resolve_api_key s = Some key
           ∧ key ≠ ""
           ∧ Py.startswith "sk-" key = true
           ∧ openai_available s = true
           ∧ connection s key = None.
Proof.
  unfold configure.
  destruct (key_found (resolve_api_key s)) eqn:Hfound.
  - apply key_found_spec in Hfound as (key & Hkey & Hne). rewrite Hkey. simpl.
    destruct (Py.startswith "sk-" key) eqn:Hsk; simpl.
    + destruct (openai_available s) eqn:Hav; simpl.
      * destruct (connection s key) as [msg|] eqn:Hconn; simpl.
        -- split; [done|]. intros (k & [= <-] & _ & _ & _ & Hc). congruence.
        -- split; [|done]. intros _. by exists key.
      * split; [done|]. by intros (k & _ & _ & _ & ? & _).
    + split; [done|]. intros (k & [= <-] & _ & ? & _). congruence.
  - simpl. split; [done|]. intros (k & Hk & Hne & _).
    assert (key_found (resolve_api_key s) = true) as Ht
      by (apply key_found_spec; by exists k).
    congruence.
Qed.

(** X10. A session in demo mode enters live mode in a run exactly when
    that run finds a key that is not empty and starts with [sk-], the
    [openai] package is installed and the connection test with that key
    raises nothing. *)
Theorem live_mode_requirements (s : Setup) (i : Inputs) (w : World) :
  api_configured w = false →
  (api_configured (script whisper chat format_average s i w).2 = true
   ↔ ∃ key, resolve_api_key s = Some key
            ∧ key ≠ ""
            ∧ Py.startswith "sk-" key = true
            ∧ openai_available s = true
            ∧ connection s key = None).
Proof.
  intros Hdemo. rewrite <- configure_spec, script_mode, Hdemo.
  by rewrite orb_false_r.
Qed.

Lemma init_session_run (key : string) (v : SVal) (w : World) :
  ∃ w1, init_session key v w = (Ok tt, w1)
        ∧ progress w1 = progress w ∧ api_configured w1 = api_configured w.
Proof.
  unfold init_session. destruct (session_state w !! key); by eexists.
Qed.

(** X11. In live mode the sidebar asks the secrets store again, outside
    any handler: when the store cannot be read, for a key that came from
    the environment or was typed in, the run ends with that exception at
    the sidebar and no page is shown; [progress] is as before. *)
Theorem live_sidebar_needs_the_secrets_store
    (s : Setup) (i : Inputs) (w : World) (e : Exn) :
  secrets_lookup s = Raised e →
  (configure s).1 || api_configured w = true →
  ∃ w', script whisper chat format_average s i w = (Raised e, w')
        ∧ progress w' = progress w
        ∧ session_state w' !! "page"
          = Some (default (VStr "home") (session_state w !! "page")).
Proof.
  intros Hsecrets Hlive. unfold script.
  destruct (startup_run s w) as (w1 & Hs & Ha & Hp1 & Hs1).
  rewrite (bind_ok _ _ _ _ _ Hs). rewrite Hlive in Ha.
  unfold main, init_session, show_sidebar, bind, gets, raise.
  destruct (session_state w1 !! "page") as [v|] eqn:Hpage; simpl; rewrite Ha, Hsecrets.
  - exists w1. split; [done|]. split; [done|]. by rewrite <- Hs1, Hpage.
  - eexists. split; [done|]. simpl. split; [done|].
    by rewrite lookup_insert_eq, <- Hs1, Hpage.
Qed.

Lemma show_sidebar_selects (s : Setup) (selected : Page) (w w' : World) r :
  show_sidebar format_average s selected false w = (r, w') →
  progress w' = progress w
  ∧ (r = Ok tt → session_state w' !! "page" = Some (VStr (page_name selected))).
Proof.
  unfold show_sidebar, show_average, bind, gets, lift, ret, raise, write_session, modify.
  destruct (api_configured w); [destruct (secrets_lookup s) as [?|?]|];
    try (intros [= <- <-]; by split);
    (destruct (decide (scores (progress w) = ∅));
     [|destruct (format_average _ _)]; intros [= <- <-]; (split; [done|]);
     try done; intros _; simpl; apply lookup_insert_eq).
Qed.

(** X12. Only the practice page and the reset button write [progress]:
    a run that shows the home page, the dashboard or the report, without
    a click on the reset button, ends with the record it started from,
    whatever it returns or raises. *)
Theorem other_pages_keep_progress (s : Setup) (i : Inputs) (w : World) :
  selected_page i ≠ Practice →
  reset_click i = false →
  progress (script whisper chat format_average s i w).2 = progress w.
Proof.
  intros Hsel Hreset. unfold script.
  destruct (startup_run s w) as (w1 & Hs & _ & Hp1 & _).
  rewrite (bind_ok _ _ _ _ _ Hs), <- Hp1. unfold main.
  destruct (init_session_run "page" (VStr "home") w1) as (w2 & H2 & Hp2 & _).
  rewrite (bind_ok _ _ _ _ _ H2), <- Hp2, Hreset.
  destruct (show_sidebar format_average s (selected_page i) false w2)
    as [[[]|e] w3] eqn:E3.
  - destruct (show_sidebar_selects _ _ _ _ _ E3) as [Hp3 Hpage].
    rewrite (bind_ok _ _ _ _ _ E3), <- Hp3.
    assert (read_session "page" w3 = (Ok (VStr (page_name (selected_page i))), w3)) as Hread
      by (unfold read_session; by rewrite Hpage).
    rewrite (bind_ok _ _ _ _ _ Hread).
    destruct (selected_page i); [| done | |]; simpl.
    + destruct (show_home format_average (click i) w3) as [r w4] eqn:E4.
      symmetry. by eapply (show_home_moves eq) in E4.
    + destruct (show_dashboard format_average (click i) w3) as [r w4] eqn:E4.
      symmetry. by eapply (show_dashboard_moves eq) in E4.
    + destruct (show_report format_average (now i) (click i) w3) as [r w4] eqn:E4.
      symmetry. by eapply (show_report_moves eq) in E4.
  - rewrite (bind_raised _ _ _ _ _ E3). simpl.
    by destruct (show_sidebar_selects _ _ _ _ _ E3) as [Hp3 _].
Qed.

(** X13. [reset_all_progress] always succeeds; afterwards [progress] is
    the empty record, so that nothing counts as attempted or completed and
    there is no average, and the session holds, of the values it held,
    exactly those under the four keys the function keeps. The mode of the
    session is not touched. *)
Theorem reset_all_progress_keeps_four_keys (w : World) :
  ∃ w', reset_all_progress w = (Ok true, w')
    ∧ progress w' = empty_progress
    ∧ summary (progress w') = mkSummary 0 0 None
    ∧ api_configured w' = api_configured w
    ∧ ∀ key, session_state w' !! key
             = if bool_decide (key ∈ kept_keys) then session_state w !! key else None.
Proof.
  exists (set_session_state
            (delete_keys (List.filter (λ k, negb (bool_decide (k ∈ kept_keys)))
                                      (session_keys w))
                         (session_state w))
            (set_progress empty_progress w)).
  split; [done|]. simpl. split; [done|]. split; [done|]. split; [done|].
  intros key. rewrite lookup_delete_keys.
  destruct (decide (key ∈ kept_keys)) as [Hkept|Hkept].
  - rewrite (bool_decide_true (key ∈ kept_keys)) by done.
    rewrite bool_decide_false; [done|].
    intros Hin. apply list_elem_of_In, filter_In in Hin as [_ Hneg].
    by rewrite bool_decide_true in Hneg.
  - rewrite (bool_decide_false (key ∈ kept_keys)) by done.
    case_bool_decide as Hin; [done|].
    destruct (session_state w !! key) as [v|] eqn:Hv; [|done].
    exfalso. apply Hin. apply list_elem_of_In, filter_In. split.
    + apply list_elem_of_In. unfold session_keys. apply list_elem_of_fmap.
      exists (key, v). split; [done|]. by apply elem_of_map_to_list.
    + by rewrite bool_decide_false.
Qed.

(** X14. [clear_question_data] tests the session keys with
    [startswith]: it deletes every key that continues one of the ten
    prefixes of the question, whatever follows. Resetting question 1
    therefore also deletes the recording, the transcript and the text
    field of question 10, whose keys continue those of question 1. *)
Theorem clear_question_data_reaches_longer_ids
    (qid prefix rest : string) (w : World) :
  prefix ∈ question_prefixes qid →
  session_state (clear_question_data qid w).2 !! (prefix +:+ rest) = None.
Proof.
  intros Hin.
  destruct (clear_question_data_progress qid w) as (w1 & Hw1 & _).
  rewrite Hw1. simpl.
  rewrite (clear_session_lookup qid (prefix +:+ rest) w w1 Hw1).
  assert (is_question_key qid (prefix +:+ rest) = true) as ->; [|done].
  unfold is_question_key. apply existsb_exists. exists prefix.
  split; [by apply list_elem_of_In|]. apply prefix_app.
Qed.

(** ** The report in a running session *)

(** The key of a question of the bank is the literal of its number, and
    the question stands at that position of the bank. *)
Lemma bank_key_spec (q : string) :
  q ∈ bank_ids →
  ∃ n question,
    Py.int q = Ok n
    ∧ py_index QUESTIONS (n - 1) = Ok question
    ∧ question ∈ QUESTIONS
    ∧ ident question = n
    ∧ Py.str (ident question) = q.
Proof.
  intros Hq. vm_compute in Hq.
  repeat (apply elem_of_cons in Hq as [->|Hq];
          [eexists; eexists; split; [by vm_compute|];
           split; [by vm_compute|];
           split; [unfold QUESTIONS; set_solver|by vm_compute]|]).
  by apply elem_of_nil in Hq.
Qed.

Lemma with_int_keys_bank (keys : list string) :
  Forall (λ q, q ∈ bank_ids) keys →
  ∃ l, with_int_keys keys = Ok l ∧ l.*2 = keys ∧ Forall numbered l.
Proof.
  induction 1 as [|q keys Hq _ (l & Hl & Hkeys & Hnum)]; simpl.
  - by exists [].
  - destruct (bank_key_spec q Hq) as (n & question & Hn & _).
    rewrite Hn, Hl. simpl. exists ((n, q) :: l).
    split; [done|]. split; [by rewrite <- Hkeys|]. by constructor.
Qed.

Lemma insert_sorted_perm (x : Z * string) (l : list (Z * string)) :
  insert_sorted x l ≡ₚ x :: l.
Proof.
  induction l as [|y l IH]; simpl; [done|].
  destruct (x.1 <=? y.1); [done|]. rewrite IH. apply Permutation_swap.
Qed.

Lemma sorted_perm (l : list (Z * string)) : foldr insert_sorted [] l ≡ₚ l.
Proof.
  induction l as [|x l IH]; simpl; [done|]. by rewrite insert_sorted_perm, IH.
Qed.

Lemma insert_sorted_sorted (x : Z * string) (l : list (Z * string)) :
  StronglySorted (λ a b, a.1 ≤ b.1) l →
  StronglySorted (λ a b, a.1 ≤ b.1) (insert_sorted x l).
Proof.
  induction 1 as [|y l Hs IH Hy]; simpl.
  - repeat constructor.
  - destruct (Z.leb_spec x.1 y.1) as [Hle|Hgt].
    + constructor; [by constructor|]. constructor; [done|].
      eapply Forall_impl; [exact Hy|]. simpl. intros b Hb. lia.
    + constructor; [exact IH|].
      rewrite insert_sorted_perm. constructor; [lia|done].
Qed.

Lemma sorted_sorted (l : list (Z * string)) :
  StronglySorted (λ a b, a.1 ≤ b.1) (foldr insert_sorted [] l).
Proof.
  induction l as [|x l IH]; simpl; [constructor|]. by apply insert_sorted_sorted.
Qed.

(** In a record in good shape the keys of the answers sort by number. *)
Lemma sorted_by_int_wf (p : Progress) :
  progress_wf p →
  ∃ entries, sorted_by_int (map_to_list (answers p)).*1 = Ok entries
    ∧ entries.*2 ≡ₚ (map_to_list (answers p)).*1
    ∧ Forall numbered entries
    ∧ StronglySorted (λ a b, a.1 ≤ b.1) entries.
Proof.
  intros Hwf. unfold sorted_by_int.
  destruct (with_int_keys_bank (map_to_list (answers p)).*1) as (l & Hl & Hkeys & Hnum).
  { apply Forall_forall. intros q Hq. apply (wf_keys p Hwf).
    apply list_elem_of_fmap in Hq as ([q' v] & -> & Hin).
    apply elem_of_map_to_list in Hin. by exists v. }
  rewrite Hl. simpl. eexists. split; [done|].
  split; [by rewrite sorted_perm, Hkeys|].
  split; [by rewrite sorted_perm|apply sorted_sorted].
Qed.

Lemma lookup_questions_bank (entries : list (Z * string)) :
  Forall numbered entries →
  ∃ l, lookup_questions entries = Ok l
       ∧ l.*1 = entries.*2
       ∧ ident <$> l.*2 = entries.*1
       ∧ Forall (λ e, e.2 ∈ QUESTIONS ∧ Py.str (ident e.2) = e.1) l.
Proof.
  induction 1 as [|[n qid] entries [Hq Hn] _ (l & Hl & H1 & H2 & Hall)]; simpl.
  - by exists [].
  - destruct (bank_key_spec qid Hq) as (n' & question & Hn' & Hidx & Hin & Hid & Hstr).
    simpl in Hn. rewrite Hn in Hn'. injection Hn' as <-.
    rewrite Hidx, Hl. simpl. exists ((qid, question) :: l).
    split; [done|]. split; [rewrite !fmap_cons; by rewrite H1|].
    split; [rewrite !fmap_cons, H2; cbn [fst snd]; by rewrite Hid|]. by constructor.
Qed.

Lemma question_blocks_bank (p : Progress) (entries : list (Z * string)) :
  Forall numbered entries →
  ∃ blocks, question_blocks p entries = Ok blocks
            ∧ length blocks = (7 * length entries)%nat.
Proof.
  induction 1 as [|[n qid] entries [Hq Hn] _ (blocks & Hb & Hlen)];
    cbn [question_blocks].
  - by exists [].
  - destruct (bank_key_spec qid Hq) as (n' & question & Hn' & Hidx & _).
    simpl in Hn. rewrite Hn in Hn'. injection Hn' as <-.
    unfold question_block. rewrite Hidx, Hb. cbn [rbind].
    eexists. split; [done|]. rewrite length_app, Hlen. simpl. lia.
Qed.

Lemma sorted_fmap_ident (entries : list (Z * string)) :
  StronglySorted (λ a b, a.1 ≤ b.1) entries → StronglySorted Z.le entries.*1.
Proof.
  induction 1 as [|e entries Hs IH He]; simpl; constructor; [done|].
  by apply Forall_fmap.
Qed.

(** X15. In a session the preview of the report finds a question for
    every answer: the list of attempted questions is built without an
    error, names each answered question once, pairs every key with the
    question of the bank that has this number, and runs in ascending
    order of the numbers. *)
Theorem report_lists_the_attempted_questions (w : World) :
  session_reachable whisper chat format_average w →
  ∃ l, attempted_questions (progress w) = Ok l
       ∧ l.*1 ≡ₚ (map_to_list (answers (progress w))).*1
       ∧ Forall (λ e, e.2 ∈ QUESTIONS ∧ Py.str (ident e.2) = e.1) l
       ∧ StronglySorted Z.le (ident <$> l.*2).
Proof.
  intros Hreach. apply reachable_progress_wf in Hreach.
  destruct (sorted_by_int_wf _ Hreach) as (entries & He & Hperm & Hnum & Hsorted).
  destruct (lookup_questions_bank entries Hnum) as (l & Hl & H1 & H2 & Hall).
  exists l. unfold attempted_questions. rewrite He. simpl.
  split; [done|]. split; [by rewrite H1|]. split; [done|].
  rewrite H2. by apply sorted_fmap_ident.
Qed.

(** X16. In a session [generate_pdf] gets through all its drawing
    calls whenever the average can be formatted: no key of the answers
    fails to parse and no question is looked up outside the bank. The
    calls made are the 22 fixed ones, three more when there are scores,
    and seven for each attempted question. What the library makes of
    them, and the encoding of its output to Latin-1 in the last line of
    the function, which fails on a character outside Latin-1, are not
    part of the statement. *)
Theorem report_is_drawn_in_a_session (w : World) (now : string) :
  session_reachable whisper chat format_average w →
  (scores (progress w) ≠ ∅ →
   ∃ avg, format_average (foldr Z.add 0 (score_values (progress w)))
                         (size (scores (progress w))) = Ok avg) →
  ∃ doc, generate_pdf format_average now (api_configured w) (progress w) = Ok doc
    ∧ length doc
      = (22 + (if decide (scores (progress w) = ∅) then 0 else 3)
         + 7 * size (answers (progress w)))%nat.
Proof.
  intros Hreach Havg. apply reachable_progress_wf in Hreach.
  destruct (sorted_by_int_wf _ Hreach) as (entries & He & Hperm & Hnum & _).
  destruct (question_blocks_bank (progress w) entries Hnum) as (blocks & Hb & Hlen).
  assert (length entries = size (answers (progress w))) as Hsize.
  { rewrite <- (length_fmap snd entries), Hperm, length_fmap.
    apply length_map_to_list. }
  unfold generate_pdf, score_lines.
  destruct (decide (scores (progress w) = ∅)) as [Hnone|Hsome].
  - cbn [rbind]. rewrite He. cbn [rbind]. rewrite Hb. cbn [rbind].
    eexists. split; [done|].
    rewrite !length_app, Hlen, Hsize. simpl. lia.
  - destruct (Havg Hsome) as (avg & ->). cbn [rbind].
    rewrite He. cbn [rbind]. rewrite Hb. cbn [rbind].
    eexists. split; [done|].
    rewrite !length_app, Hlen, Hsize. simpl. lia.
Qed.

Lemma score_distribution_ranges (scores_list : list Z) :
  score_distribution scores_list
  = [ (0, 20, length (List.filter (λ s, (0 <=? s) && (s <? 20)) scores_list));
      (20, 40, length (List.filter (λ s, (20 <=? s) && (s <? 40)) scores_list));
      (40, 60, length (List.filter (λ s, (40 <=? s) && (s <? 60)) scores_list));
      (60, 80, length (List.filter (λ s, (60 <=? s) && (s <? 80)) scores_list));
      (80, 100, length (List.filter (λ s, 90 <=? s) scores_list)) ].
Proof. reflexivity. Qed.

(** X17. The score distribution of the report has no place for the
    scores from 80 to 89: the last range counts the scores from 90
    upwards, 100 and more included, in place of those from 80 to 99. The
    five counts add up to the number of scores that are at least 0 and
    below 80, or at least 90, and a score from 80 to 89 changes none. *)
Theorem score_distribution_misses_80_to_89 (scores_list : list Z) :
  foldr (λ range n, (range.2 + n)%nat) 0%nat (score_distribution scores_list)
  = length (List.filter (λ s, ((0 <=? s) && (s <? 80)) || (90 <=? s)) scores_list)
  ∧ ∀ s, 80 ≤ s < 90 →
         score_distribution (s :: scores_list) = score_distribution scores_list.
Proof.
  split.
  - rewrite score_distribution_ranges. cbn [foldr snd].
    induction scores_list as [|a l IH]; [done|]. cbn [List.filter].
    repeat match goal with
           | |- context [(?x <=? ?y)] =>
               destruct (Z.leb_spec x y); cbn [andb orb length]; try (exfalso; lia)
           | |- context [(?x <? ?y)] =>
               destruct (Z.ltb_spec x y); cbn [andb orb length]; try (exfalso; lia)
           end; lia.
  - intros s Hs. rewrite !score_distribution_ranges. cbn [List.filter].
    repeat match goal with
           | |- context [(s <=? ?y)] => destruct (Z.leb_spec s y); try lia
           | |- context [(?x <=? s)] => destruct (Z.leb_spec x s); try lia
           | |- context [(s <? ?y)] => destruct (Z.ltb_spec s y); try lia
           end; done.
Qed.

(** ** Invariants of the world *)

Lemma invariant_ret {A} (I : World → Prop) (a : A) : invariant I (ret a).
Proof. by intros w r w' Hw [= <- <-]. Qed.

Lemma invariant_raise {A} (I : World → Prop) (e : Exn) : invariant I (raise e : M A).
Proof. by intros w r w' Hw [= <- <-]. Qed.

Lemma invariant_lift {A} (I : World → Prop) (x : Result A) : invariant I (lift x).
Proof. by intros w r w' Hw [= <- <-]. Qed.

Lemma invariant_gets {A} (I : World → Prop) (f : World → A) : invariant I (gets f).
Proof. by intros w r w' Hw [= <- <-]. Qed.

Lemma invariant_modify (I : World → Prop) (f : World → World) :
  (∀ w, I w → I (f w)) → invariant I (modify f).
Proof. intros Hf w r w' Hw [= <- <-]. by apply Hf. Qed.

(** The rest of a computation may rely on what the first part returns
    from a world in [I]. *)
Lemma invariant_bind_with {A C} (I : World → Prop) (Q : A → Prop)
    (c : M A) (k : A → M C) :
  invariant I c →
  (∀ w a w', I w → c w = (Ok a, w') → Q a) →
  (∀ a, Q a → invariant I (k a)) →
  invariant I (bind c k).
Proof.
  intros Hc Hq Hk w r w' Hw. unfold bind.
  destruct (c w) as [[a|e] w1] eqn:E; intros Hrun.
  - eapply (Hk a); [by eapply Hq|by eapply Hc|exact Hrun].
  - injection Hrun as <- <-. by eapply Hc.
Qed.

Lemma invariant_bind {A C} (I : World → Prop) (c : M A) (k : A → M C) :
  invariant I c → (∀ a, invariant I (k a)) → invariant I (bind c k).
Proof.
  intros Hc Hk. apply (invariant_bind_with I (λ _, True)); [done|done|].
  intros a _. apply Hk.
Qed.

Lemma invariant_try_except {A} (I : World → Prop) (body : M A) (handler : string → M A) :
  invariant I body → (∀ e, invariant I (handler e)) →
  invariant I (try_except body handler).
Proof.
  intros Hb Hh w r w' Hw. unfold try_except.
  destruct (body w) as [[a|[msg|]] w1] eqn:E; intros Hrun.
  - injection Hrun as <- <-. by eapply Hb.
  - eapply (Hh msg); [by eapply Hb|exact Hrun].
  - injection Hrun as <- <-. by eapply Hb.
Qed.

Lemma invariant_write_session (I : World → Prop) key v :
  (∀ w, I w → I (set_session_state (<[key := v]> (session_state w)) w)) →
  invariant I (write_session key v).
Proof. intros Hf. by apply invariant_modify. Qed.

Lemma invariant_init_session (I : World → Prop) key v :
  (∀ w, I w → I (set_session_state (<[key := v]> (session_state w)) w)) →
  invariant I (init_session key v).
Proof.
  intros Hf w r w' Hw. unfold init_session.
  destruct (session_state w !! key); intros [= <- <-]; [done|by apply Hf].
Qed.

Lemma invariant_read_session (I : World → Prop) key : invariant I (read_session key).
Proof.
  intros w r w' Hw. unfold read_session.
  by destruct (session_state w !! key); intros [= <- <-].
Qed.

Lemma invariant_get_text (I : World → Prop) key : invariant I (get_text key).
Proof.
  intros w r w' Hw. unfold get_text.
  by destruct (session_state w !! key) as [[]|]; intros [= <- <-].
Qed.

Lemma invariant_update_progress (I : World → Prop) f :
  (∀ w, I w → I (set_progress (f (progress w)) w)) →
  invariant I (update_progress f).
Proof. intros Hf. by apply invariant_modify. Qed.

Lemma invariant_st_error (I : World → Prop) msg :
  (∀ w, I w → I (add_error msg w)) → invariant I (st_error msg).
Proof. intros Hf. by apply invariant_modify. Qed.

Lemma invariant_show_errors (I : World → Prop) msgs :
  (∀ msg w, I w → I (add_error msg w)) → invariant I (show_errors msgs).
Proof.
  intros Hf. induction msgs as [|msg msgs IH]; simpl.
  - apply invariant_ret.
  - apply invariant_bind; [|intros _; exact IH].
    apply invariant_st_error. intros w. apply Hf.
Qed.

(** ** A session that never had a working key *)

Lemma demo_world_insert key v (w : World) :
  (Py.startswith "text_answer_" key = true → v = VStr "") →
  Py.startswith "evaluation_" key = false →
  demo_world w →
  demo_world (set_session_state (<[key := v]> (session_state w)) w).
Proof.
  intros Hv Hkey (Ha & Hp & Hss). split; [done|]. split; [done|]. simpl.
  intros k v'. destruct (decide (key = k)) as [<-|Hne].
  - rewrite lookup_insert_eq. by intros [= <-].
  - rewrite lookup_insert_ne by done. apply Hss.
Qed.

Lemma demo_world_delete keys (w : World) :
  demo_world w →
  demo_world (set_session_state (delete_keys keys (session_state w)) w).
Proof.
  intros (Ha & Hp & Hss). split; [done|]. split; [done|]. simpl.
  intros k v. rewrite lookup_delete_keys. case_bool_decide; [done|]. apply Hss.
Qed.

Lemma demo_world_error msg (w : World) : demo_world w → demo_world (add_error msg w).
Proof. by intros (Ha & Hp & Hss). Qed.

Lemma clear_progress_empty qid : clear_progress qid empty_progress = empty_progress.
Proof.
  unfold clear_progress, empty_progress, del_if_present. simpl.
  by rewrite !lookup_empty.
Qed.

Lemma load_evaluation_demo qid : invariant demo_world (load_evaluation qid).
Proof.
  unfold load_evaluation.
  apply (invariant_bind_with _ (λ p, p = empty_progress)); [apply invariant_gets| |].
  { intros w a w' Hw [= <- <-]. apply Hw. }
  intros p ->. simpl. rewrite lookup_empty.
  apply (invariant_bind_with _ demo_session_state); [apply invariant_gets| |].
  { intros w a w' Hw [= <- <-]. apply Hw. }
  intros ss Hss. destruct (ss !! ("evaluation_" +:+ qid)) as [v|] eqn:E.
  - destruct (Hss _ _ E) as [_ Hno]. unfold Py.startswith in Hno.
    by rewrite prefix_app in Hno.
  - apply invariant_ret.
Qed.

Lemma clear_question_data_demo qid : invariant demo_world (clear_question_data qid).
Proof.
  unfold clear_question_data.
  apply invariant_bind; [apply invariant_gets|]. intros keys.
  apply invariant_bind; [apply invariant_modify; intros w; apply demo_world_delete|].
  intros _. apply invariant_bind; [|intros _; apply invariant_ret].
  apply invariant_update_progress. intros w (Ha & Hp & Hss).
  split; [done|]. split; [|done]. simpl. by rewrite Hp, clear_progress_empty.
Qed.

Lemma reset_all_progress_demo : invariant demo_world reset_all_progress.
Proof.
  unfold reset_all_progress.
  apply invariant_bind; [apply invariant_modify; by intros w (Ha & Hp & Hss)|].
  intros _. apply invariant_bind; [apply invariant_gets|]. intros keys.
  apply invariant_bind; [apply invariant_modify; intros w; apply demo_world_delete|].
  intros _. apply invariant_ret.
Qed.

(** In such a session the practice page finds no answer: the text it
    reads is empty, nothing is offered for evaluation and nothing is
    recorded. *)
Lemma practice_page_demo question ev :
  invariant demo_world (practice_page whisper chat question ev).
Proof.
  unfold practice_page.
  apply (invariant_bind_with _ (λ p, p = empty_progress)); [apply invariant_gets| |].
  { intros w a w' Hw [= <- <-]. apply Hw. }
  intros p ->. simpl. rewrite lookup_empty. simpl.
  apply invariant_bind;
    [apply invariant_init_session; intros w; by apply demo_world_insert|intros _].
  apply invariant_bind;
    [apply invariant_init_session; intros w; by apply demo_world_insert|intros _].
  apply invariant_bind;
    [apply invariant_init_session; intros w; by apply demo_world_insert|intros _].
  apply (invariant_bind_with _ (λ b, b = false)); [apply invariant_gets| |].
  { intros w a w' Hw [= <- <-]. apply Hw. }
  intros configured ->. simpl.
  apply invariant_bind; [apply invariant_ret|intros _].
  apply (invariant_bind_with _ (λ t, t = "")); [apply invariant_get_text| |].
  { intros w a w' (_ & _ & Hss). unfold get_text.
    destruct (session_state w !! _) as [v|] eqn:E.
    - destruct (Hss _ _ E) as [Ht _]. rewrite Ht by apply prefix_app.
      by intros [= <- <-].
    - by intros [= <- <-]. }
  intros final_answer ->. simpl.
  apply invariant_bind; [apply invariant_ret|intros _].
  apply invariant_bind; [apply load_evaluation_demo|intros _].
  apply invariant_bind; [unfold evaluate_section; simpl; apply invariant_ret|intros _].
  destruct ev; try apply invariant_ret.
  apply invariant_bind; [apply clear_question_data_demo|].
  intros []; [apply invariant_raise|apply invariant_ret].
Qed.

Lemma go_to_demo name :
  Py.startswith "text_answer_" name = false →
  invariant demo_world (go_to name).
Proof.
  intros _. unfold go_to.
  apply invariant_bind; [|intros _; apply invariant_raise].
  apply invariant_write_session. intros w. by apply demo_world_insert.
Qed.

Lemma show_average_demo : invariant demo_world (show_average format_average).
Proof.
  unfold show_average. apply invariant_bind; [apply invariant_gets|]. intros p.
  destruct (decide (scores p = ∅)); [apply invariant_ret|].
  apply invariant_bind; [apply invariant_lift|]. intros _. apply invariant_ret.
Qed.

Lemma show_sidebar_demo s selected reset :
  invariant demo_world (show_sidebar format_average s selected reset).
Proof.
  unfold show_sidebar.
  apply invariant_bind; [apply invariant_gets|]. intros configured.
  apply invariant_bind.
  { destruct configured; [destruct (secrets_lookup s)|];
      first [apply invariant_ret|apply invariant_raise]. }
  intros _. apply invariant_bind; [apply show_average_demo|]. intros _.
  apply invariant_bind.
  { apply invariant_write_session. intros w. apply demo_world_insert; by destruct selected. }
  intros _. destruct reset; [|apply invariant_ret].
  apply invariant_bind; [apply reset_all_progress_demo|].
  intros []; [apply invariant_raise|apply invariant_ret].
Qed.

Lemma main_demo s i : invariant demo_world (main whisper chat format_average s i).
Proof.
  unfold main.
  apply invariant_bind.
  { apply invariant_init_session. intros w. by apply demo_world_insert. }
  intros _. apply invariant_bind; [apply show_sidebar_demo|]. intros _.
  apply invariant_bind; [apply invariant_read_session|]. intros current_page.
  destruct current_page as [|name| | | | |]; try apply invariant_ret.
  destruct (String.eqb name "home").
  { unfold show_home. apply invariant_bind; [|intros _; apply show_average_demo].
    destruct (click i); first [apply invariant_ret|by apply go_to_demo]. }
  destruct (String.eqb name "practice").
  { unfold show_practice. destruct (QUESTIONS !! selected_index i).
    - apply practice_page_demo.
    - apply invariant_raise. }
  destruct (String.eqb name "dashboard").
  { unfold show_dashboard. apply invariant_bind; [apply show_average_demo|]. intros _.
    apply invariant_bind; [apply invariant_gets|]. intros p.
    apply invariant_bind; [apply invariant_lift|]. intros _.
    destruct (click i); first [apply invariant_ret|by apply go_to_demo]. }
  destruct (String.eqb name "report"); [|apply invariant_ret].
  unfold show_report. apply invariant_bind; [apply invariant_gets|]. intros p.
  destruct (decide (answers p = ∅)).
  - destruct (click i); first [apply invariant_ret|by apply go_to_demo].
  - apply invariant_bind; [apply invariant_lift|]. intros _.
    apply invariant_bind; [apply show_average_demo|]. intros _.
    destruct (click i); try apply invariant_ret.
    apply invariant_bind; [apply invariant_gets|]. intros configured.
    apply invariant_bind; [apply invariant_lift|]. intros _. apply invariant_ret.
Qed.

Lemma script_demo s i :
  (configure s).1 = false →
  invariant demo_world (script whisper chat format_average s i).
Proof.
  intros Hcfg. unfold script, startup.
  apply invariant_bind; [|intros _; apply main_demo].
  apply invariant_bind.
  { destruct (openai_available s); [apply invariant_ret|].
    apply invariant_st_error. intros w. apply demo_world_error. }
  intros _. destruct (configure s) as [configured msgs]. simpl in Hcfg. subst configured.
  apply invariant_bind; [|intros _; apply invariant_ret].
  apply invariant_show_errors. intros msg w. apply demo_world_error.
Qed.

Lemma never_live_demo_world (w : World) :
  never_live whisper chat format_average w → demo_world w.
Proof.
  induction 1 as [g|w s i _ IH Hcfg].
  - split; [done|]. split; [done|]. intros k v. simpl. by rewrite lookup_empty.
  - destruct (script whisper chat format_average s i w) as [r w'] eqn:E.
    by apply (script_demo s i Hcfg w r w' IH).
Qed.

(** X18. Without a working key nothing can be practised: the recorder
    is the only way to enter an answer, and it is shown in live mode
    only. In a session none of whose runs found a working key, whatever
    is clicked, [progress] is still the empty record and the text that
    the practice page would offer for evaluation is empty. *)
Theorem nothing_is_recorded_without_a_key (w : World) :
  never_live whisper chat format_average w →
  api_configured w = false
  ∧ progress w = empty_progress
  ∧ summary (progress w) = mkSummary 0 0 None
  ∧ ∀ qid, ∃ w', get_text ("text_answer_" +:+ qid) w = (Ok "", w').
Proof.
  intros Hw. apply never_live_demo_world in Hw as (Ha & Hp & Hss).
  split; [done|]. split; [done|]. split; [by rewrite Hp|].
  intros qid. exists w. unfold get_text.
  destruct (session_state w !! _) as [v|] eqn:E; [|done].
  destruct (Hss _ _ E) as [Ht _]. by rewrite Ht by apply prefix_app.
Qed.

(** ** Runs of the other pages *)

Lemma invariant_random_below (I : World → Prop) n :
  (∀ g w, I w → I (set_rng g w)) → invariant I (random_below n).
Proof.
  intros Hf w r w' Hw. unfold random_below.
  destruct (randbelow n (rng w)). intros [= <- <-]. by apply Hf.
Qed.


Lemma insert_sorted_desc_perm (x : Z * string) (l : list (Z * string)) :
  insert_sorted_desc x l ≡ₚ x :: l.
Proof.
  induction l as [|y l IH]; simpl; [done|].
  destruct (y.1 <=? x.1); [done|]. rewrite IH. apply Permutation_swap.
Qed.

Lemma sorted_desc_perm (l : list (Z * string)) : foldr insert_sorted_desc [] l ≡ₚ l.
Proof.
  induction l as [|x l IH]; simpl; [done|]. by rewrite insert_sorted_desc_perm, IH.
Qed.

Lemma answer_keys_in_bank (p : Progress) :
  progress_wf p → Forall (λ q, q ∈ bank_ids) (map_to_list (answers p)).*1.
Proof.
  intros Hwf. apply Forall_forall. intros q Hq. apply (wf_keys p Hwf).
  apply list_elem_of_fmap in Hq as ([q' v] & -> & Hin).
  apply elem_of_map_to_list in Hin. by exists v.
Qed.








(** ** The handler of the transcription button *)

Lemma no_failed_message_error msg (w : World) :
  Py.startswith "Transcription failed: " msg = false →
  no_failed_message w → no_failed_message (add_error msg w).
Proof.
  intros Hmsg Hw. unfold no_failed_message. simpl.
  apply Forall_app. split; [exact Hw|]. by constructor.
Qed.

(** A handler stays out of the picture when the body raises no error. *)
Lemma invariant_try_except_dead {A} (I : World → Prop) (body : M A) handler :
  runs_safely (λ _, True) body (λ _ _, True) →
  invariant I body → invariant I (try_except body handler).
Proof.
  intros Hsafe Hb w r w' Hw. unfold try_except. specialize (Hsafe w Logic.I).
  destruct (body w) as [[a|[msg|]] w1] eqn:E; [|done|];
    intros [= <- <-]; by eapply Hb.
Qed.

Ltac errors_step :=
  lazymatch goal with
  | |- invariant _ (bind _ _) => apply invariant_bind; [|intros ?]
  | |- invariant _ (try_except _ _) => apply invariant_try_except; [|intros ?]
  | |- invariant _ (ret _) => apply invariant_ret
  | |- invariant _ (raise _) => apply invariant_raise
  | |- invariant _ st_rerun => apply invariant_raise
  | |- invariant _ (lift _) => apply invariant_lift
  | |- invariant _ (gets _) => apply invariant_gets
  | |- invariant _ (read_session _) => apply invariant_read_session
  | |- invariant _ (get_text _) => apply invariant_get_text
  | |- invariant _ (write_session _ _) =>
      apply invariant_write_session; intros ? Hw; exact Hw
  | |- invariant _ (init_session _ _) =>
      apply invariant_init_session; intros ? Hw; exact Hw
  | |- invariant _ (st_error _) =>
      apply invariant_st_error; intros ? Hw;
      apply no_failed_message_error; [reflexivity|exact Hw]
  | |- invariant _ (update_progress _) =>
      apply invariant_update_progress; intros ? Hw; exact Hw
  | |- invariant _ (random_below _) =>
      apply invariant_random_below; intros ? ? Hw; exact Hw
  | |- invariant _ (modify (λ w, set_session_state _ w)) =>
      apply invariant_modify; intros ? Hw; exact Hw
  | |- invariant _ (match ?x with _ => _ end) => destruct x
  end.

Lemma demo_transcript_in_errors qs n :
  invariant no_failed_message (demo_transcript_in qs n).
Proof.
  induction qs as [|q qs IH]; simpl; [repeat errors_step|].
  destruct (ident q =? n); [|done].
  unfold choice. repeat errors_step. exact IH.
Qed.

Lemma transcribe_audio_errors audio_data question_id :
  invariant no_failed_message (transcribe_audio whisper audio_data question_id).
Proof.
  unfold transcribe_audio, get_question_demo_transcript.
  repeat errors_step; apply demo_transcript_in_errors.
Qed.

Lemma evaluate_with_gpt_errors question answer :
  invariant no_failed_message (evaluate_with_gpt chat question answer).
Proof.
  unfold evaluate_with_gpt, get_demo_feedback, randint. repeat errors_step.
Qed.

Lemma audio_recorder_component_errors question_id ev :
  invariant no_failed_message (audio_recorder_component question_id ev).
Proof. unfold audio_recorder_component, incr_session. repeat errors_step. Qed.

(** What the transcription button runs inside its [try] returns or asks
    for a rerun: [transcribe_audio] has absorbed every failure. *)
Lemma transcription_click_never_fails question last_audio :
  runs_safely (λ _, True)
    (bind (transcribe_audio whisper last_audio (Some (ident question)))
       (λ transcript,
          if negb (String.eqb transcript "") then
            bind (write_session ("audio_transcript_" +:+ Py.str (ident question))
                                (VStr transcript))
              (λ _, bind (write_session ("text_answer_" +:+ Py.str (ident question))
                                        (VStr transcript))
                 (λ _, bind (update_progress
                               (record_answer (Py.str (ident question)) transcript))
                    (λ _, st_rerun)))
          else ret tt))
    (λ _ _, True).
Proof.
  intros w _. unfold bind at 1.
  destruct (transcribe_audio_outcome last_audio (Some (ident question)) w)
    as (t & w1 & -> & _).
  by destruct (negb (String.eqb t "")).
Qed.

Lemma transcribe_section_errors question ev :
  invariant no_failed_message (transcribe_section whisper question ev).
Proof.
  unfold transcribe_section.
  apply invariant_bind; [apply invariant_read_session|intros last_audio].
  destruct (is_none last_audio); [apply invariant_ret|].
  apply invariant_bind; [|intros ?; repeat errors_step].
  destruct ev; try apply invariant_ret.
  apply invariant_try_except_dead; [apply transcription_click_never_fails|].
  repeat errors_step. apply transcribe_audio_errors.
Qed.

Lemma practice_page_errors question ev :
  invariant no_failed_message (practice_page whisper chat question ev).
Proof.
  unfold practice_page, load_evaluation, evaluate_section, clear_question_data.
  repeat errors_step;
    first [ apply audio_recorder_component_errors
          | apply transcribe_section_errors
          | apply evaluate_with_gpt_errors ].
Qed.

Lemma configure_messages (s : Setup) :
  Forall (λ msg, Py.startswith "Transcription failed: " msg = false) (configure s).2.
Proof.
  unfold configure.
  repeat match goal with
         | |- context [if ?b then _ else _] => destruct b
         | |- context [match ?x with Some _ => _ | None => _ end] => destruct x
         end; simpl; repeat constructor.
Qed.

Lemma show_errors_errors msgs :
  Forall (λ msg, Py.startswith "Transcription failed: " msg = false) msgs →
  invariant no_failed_message (show_errors msgs).
Proof.
  induction 1 as [|msg msgs Hmsg _ IH]; simpl; [apply invariant_ret|].
  apply invariant_bind; [|intros _; exact IH].
  apply invariant_st_error. intros w Hw. by apply no_failed_message_error.
Qed.

Lemma script_errors s i :
  invariant no_failed_message (script whisper chat format_average s i).
Proof.
  unfold script. apply invariant_bind.
  - unfold startup. apply invariant_bind; [repeat errors_step|intros _].
    pose proof (configure_messages s) as Hmsgs.
    destruct (configure s) as [configured msgs]. simpl in Hmsgs.
    apply invariant_bind; [by apply show_errors_errors|intros _].
    destruct configured; [|apply invariant_ret].
    apply invariant_modify. by intros w Hw.
  - intros _.
    unfold main, show_sidebar, show_home, show_dashboard, show_report, show_practice,
      show_average, go_to, reset_all_progress.
    repeat errors_step;
      first [ apply practice_page_errors
            | apply invariant_modify; by intros w Hw ].
Qed.

(** X20. The practice page wraps the transcription in a handler of its
    own, which would show [Transcription failed: ...] and file a demo
    transcript. It never runs: [transcribe_audio] absorbs every failure
    itself, so in no session is such a message ever shown. *)
Theorem transcription_handler_of_the_page_is_dead (w : World) (msg : string) :
  session_reachable whisper chat format_average w →
  "Transcription failed: " +:+ msg ∉ errors w.
Proof.
  intros Hreach Hin.
  assert (no_failed_message w) as Hw.
  { clear Hin. induction Hreach as [g|w s i _ IH]; [constructor|].
    destruct (script whisper chat format_average s i w) as [r w'] eqn:E.
    by apply (script_errors s i w r w' IH). }
  pose proof (proj1 (Forall_forall _ _) Hw _ Hin) as Hno.
  unfold Py.startswith in Hno. by rewrite prefix_app in Hno.
Qed.

(** ** The evaluation button *)

(** X21. A click on the evaluation button with an answer that is not
    blank asks the evaluator once, for the answer as it stands in the
    field, and ends in a rerun. Afterwards the question is completed,
    its score is the score of the feedback, its evaluation holds that
    score, the number of words of the answer and the feedback, and is
    kept under the session key as well; the answer is the one evaluated.
    A question completed before is not listed twice, and the entries of
    the other questions are as before. *)
Theorem evaluation_click_completes_the_question
    (question : Question) (final_answer : string) (w : World) :
  ready_for_evaluation final_answer = true →
  ∃ ai w1 w',
    evaluate_with_gpt chat question final_answer
      (set_progress (record_answer (Py.str (ident question)) final_answer (progress w)) w)
    = (Ok ai, w1)
    ∧ evaluate_section chat question final_answer ClickEvaluate w
      = (Raised RerunException, w')
    ∧ Py.str (ident question) ∈ completed (progress w')
    ∧ scores (progress w') !! Py.str (ident question) = Some (score ai)
    ∧ evaluations (progress w') !! Py.str (ident question)
      = Some (mkEvalData (score ai) (Z.of_nat (Py.count_words false final_answer)) ai)
    ∧ session_state w' !! ("evaluation_" +:+ Py.str (ident question))
      = Some (VEval (mkEvalData (score ai)
                       (Z.of_nat (Py.count_words false final_answer)) ai))
    ∧ answers (progress w') !! Py.str (ident question) = Some final_answer
    ∧ (NoDup (completed (progress w)) → NoDup (completed (progress w')))
    ∧ ∀ q, q ≠ Py.str (ident question) →
           (q ∈ completed (progress w') ↔ q ∈ completed (progress w))
           ∧ scores (progress w') !! q = scores (progress w) !! q
           ∧ evaluations (progress w') !! q = evaluations (progress w) !! q
           ∧ answers (progress w') !! q = answers (progress w) !! q.
Proof.
  intros Hready. unfold evaluate_section. rewrite Hready.
  set (qid := Py.str (ident question)).
  unfold bind at 1. unfold update_progress at 1, modify at 1.
  set (w0 := set_progress (record_answer qid final_answer (progress w)) w).
  unfold bind at 1.
  destruct (evaluate_with_gpt_spec question final_answer w0) as (ai & w1 & Hrun & Hcase).
  rewrite Hrun.
  assert (progress w1 = progress w0 ∧ session_state w1 = session_state w0) as [Hp Hs].
  { destruct Hcase as [(? & _ & _ & _ & ->)|(_ & _ & ? & ?)]; done. }
  exists ai, w1. eexists. split; [done|]. split; [reflexivity|]. simpl.
  rewrite Hp, Hs. simpl.
  split.
  { case_bool_decide as Hin; [done|]. apply elem_of_app. right. by left. }
  split; [by rewrite lookup_insert_eq|]. split; [by rewrite lookup_insert_eq|].
  split; [by rewrite lookup_insert_eq|]. split; [by rewrite lookup_insert_eq|].
  split.
  { intros Hnd. case_bool_decide as Hin; [done|].
    apply NoDup_app. split; [done|]. split; [|apply NoDup_singleton].
    intros q Hq Hq'. apply list_elem_of_singleton in Hq'. by subst q. }
  intros q Hq. rewrite !lookup_insert_ne by done. split; [|done].
  case_bool_decide as Hin; [done|]. rewrite elem_of_app, list_elem_of_singleton.
  split; [by intros [?|?]|by left].
Qed.

(** ** The answer history of the dashboard *)

Lemma insert_sorted_desc_sorted (x : Z * string) (l : list (Z * string)) :
  StronglySorted (λ a b, b.1 ≤ a.1) l →
  StronglySorted (λ a b, b.1 ≤ a.1) (insert_sorted_desc x l).
Proof.
  induction 1 as [|y l Hs IH Hy]; simpl.
  - repeat constructor.
  - destruct (Z.leb_spec y.1 x.1) as [Hle|Hgt].
    + constructor; [by constructor|]. constructor; [done|].
      eapply Forall_impl; [exact Hy|]. simpl. intros b Hb. lia.
    + constructor; [exact IH|].
      rewrite insert_sorted_desc_perm. constructor; [lia|done].
Qed.

Lemma sorted_desc_sorted (l : list (Z * string)) :
  StronglySorted (λ a b, b.1 ≤ a.1) (foldr insert_sorted_desc [] l).
Proof.
  induction l as [|x l IH]; simpl; [constructor|]. by apply insert_sorted_desc_sorted.
Qed.

(** X22. In a session the answer history of the dashboard is built
    without an error and shows the three answered questions with the
    highest numbers (all of them when there are fewer), highest first,
    each with the question of the bank that has this number. *)
Theorem dashboard_history_shows_the_last_three (w : World) :
  session_reachable whisper chat format_average w →
  ∃ l, answer_history (progress w) = Ok l
       ∧ length l = (3 `min` size (answers (progress w)))%nat
       ∧ Forall (λ e, e.2 ∈ QUESTIONS
                      ∧ Py.str (ident e.2) = e.1
                      ∧ is_Some (answers (progress w) !! e.1)) l
       ∧ StronglySorted (λ a b, b ≤ a) (ident <$> l.*2)
       ∧ ∀ q n, is_Some (answers (progress w) !! q) → q ∉ l.*1 → Py.int q = Ok n →
                Forall (λ e, n ≤ ident e.2) l.
Proof.
  intros Hreach. apply reachable_progress_wf in Hreach.
  set (p := progress w) in *. unfold answer_history.
  destruct (decide (answers p = ∅)) as [Hnone|Hsome].
  { exists []. rewrite Hnone, map_size_empty. split; [done|]. split; [done|].
    split; [constructor|]. split; [constructor|]. intros; constructor. }
  destruct (with_int_keys_bank _ (answer_keys_in_bank p Hreach)) as (l0 & -> & Hkeys & Hnum).
  simpl. set (sorted := foldr insert_sorted_desc [] l0).
  assert (sorted ≡ₚ l0) as Hperm by apply sorted_desc_perm.
  assert (StronglySorted (λ a b, b.1 ≤ a.1) sorted) as Hsorted by apply sorted_desc_sorted.
  assert (Forall numbered sorted) as Hnum' by (by rewrite Hperm).
  destruct (lookup_questions_bank (take 3 sorted)) as (l & Hl & H1 & H2 & Hall);
    [by apply Forall_take|].
  assert (∀ q, q ∈ sorted.*2 ↔ is_Some (answers p !! q)) as Hanswered.
  { intros q. rewrite Hperm, Hkeys. split.
    - intros Hq. apply list_elem_of_fmap in Hq as ([q' v] & -> & Hin).
      apply elem_of_map_to_list in Hin. by exists v.
    - intros [v Hv]. apply list_elem_of_fmap. exists (q, v).
      split; [done|]. by apply elem_of_map_to_list. }
  exists l. split; [done|]. split.
  { rewrite <- (length_fmap fst l), H1, length_fmap, length_take.
    rewrite Hperm, <- (length_fmap snd l0), Hkeys, length_fmap.
    by rewrite length_map_to_list. }
  split.
  { apply Forall_forall. intros e He.
    destruct (proj1 (Forall_forall _ _) Hall e He) as [Hq Hstr].
    split; [done|]. split; [done|]. apply Hanswered.
    assert (e.1 ∈ l.*1) as Hin by (apply list_elem_of_fmap; by exists e).
    rewrite H1 in Hin. apply list_elem_of_fmap in Hin as (x & -> & Hx).
    apply list_elem_of_fmap. exists x. split; [done|].
    apply elem_of_take in Hx as (j & Hj & _). by eapply list_elem_of_lookup_2. }
  split.
  { rewrite H2. rewrite <- (take_drop 3 sorted) in Hsorted.
    apply StronglySorted_app_1_l in Hsorted.
    by apply (StronglySorted_fmap fst (λ a b, b.1 ≤ a.1)). }
  intros q n Hq Hnot Hn.
  apply Hanswered in Hq. apply list_elem_of_fmap in Hq as ([n' q'] & Heq & Hin).
  simpl in Heq. subst q'.
  destruct (proj1 (Forall_forall _ _) Hnum' _ Hin) as [_ Hn']. simpl in Hn'.
  rewrite Hn in Hn'. injection Hn' as <-.
  rewrite <- (take_drop 3 sorted) in Hin, Hsorted.
  apply elem_of_app in Hin as [Hin|Hin].
  { exfalso. apply Hnot. rewrite H1. apply list_elem_of_fmap. by exists (n, q). }
  assert (Forall (λ m, n ≤ m) (take 3 sorted).*1) as Hle.
  { apply Forall_forall. intros m Hm. apply list_elem_of_fmap in Hm as (x & -> & Hx).
    apply (StronglySorted_app_1_elem_of _ _ _ x (n, q) Hsorted Hx Hin). }
  rewrite <- H2 in Hle.
  apply Forall_forall. intros e He.
  assert (ident e.2 ∈ ident <$> l.*2) as He2.
  { apply list_elem_of_fmap. exists e.2. split; [done|].
    apply list_elem_of_fmap. by exists e. }
  exact (proj1 (Forall_forall _ _) Hle _ He2).
Qed.

(** ** A transcription that fails *)

Lemma bank_transcripts_not_empty :
  Forall (λ q, Forall (λ t, t ≠ "") (demo_transcripts q)) QUESTIONS.
Proof. unfold QUESTIONS. repeat first [done|constructor]. Qed.

Lemma transcribe_audio_failure_run
    (audio_data : SVal) (audio_bytes : list Byte.byte) (question : Question)
    (msg : string) (w : World) :
  question ∈ QUESTIONS →
  api_configured w = true →
  get_audio_bytes audio_data = Some audio_bytes →
  whisper audio_bytes = Failed msg →
  ∃ t g,
    transcribe_audio whisper audio_data (Some (ident question)) w
    = (Ok t, set_rng g (add_error ("Transcription error: " +:+ Py.take 100 msg) w))
    ∧ t ∈ demo_transcripts question.
Proof.
  intros Hq Hcfg Hbytes Hfail.
  pose proof (proj1 (Forall_forall _ _) bank_entries question Hq) as (Hfind & Hid & Hne).
  set (w1 := add_error ("Transcription error: " +:+ Py.take 100 msg) w).
  destruct (choice_spec (demo_transcripts question) w1 Hne) as (t & g & Hch & Hin).
  exists t, g. split; [|done].
  unfold transcribe_audio, bind, gets, try_except, st_error, modify, raise.
  rewrite Hcfg, (given_bank_id question Hq), Hbytes, Hfail. simpl.
  unfold get_question_demo_transcript. fold w1.
  by rewrite (demo_transcript_in_first _ _ _ _ Hfind Hne).
Qed.

(** X23. When the transcription service fails on a click on the
    transcription button, the page files one of the demo transcripts of
    the question as the answer of the user: it becomes the answer in
    [progress], the text offered for evaluation and the transcript shown,
    the run ends in a rerun, and the only sign of the failure is the
    message [Transcription error: ...]. *)
Theorem failed_transcription_files_a_demo_answer
    (question : Question) (audio : SVal) (audio_bytes : list Byte.byte)
    (msg : string) (w : World) :
  question ∈ QUESTIONS →
  api_configured w = true →
  session_state w !! ("last_audio_" +:+ Py.str (ident question)) = Some audio →
  get_audio_bytes audio = Some audio_bytes →
  whisper audio_bytes = Failed msg →
  ∃ t w',
    transcribe_section whisper question ClickTranscribe w = (Raised RerunException, w')
    ∧ t ∈ demo_transcripts question
    ∧ answers (progress w') !! Py.str (ident question) = Some t
    ∧ session_state w' !! ("text_answer_" +:+ Py.str (ident question)) = Some (VStr t)
    ∧ session_state w' !! ("audio_transcript_" +:+ Py.str (ident question))
      = Some (VStr t)
    ∧ errors w' = errors w ++ ["Transcription error: " +:+ Py.take 100 msg]
    ∧ ∀ q, q ≠ Py.str (ident question) →
           answers (progress w') !! q = answers (progress w) !! q.
Proof.
  intros Hq Hcfg Hla Hbytes Hfail.
  destruct (transcribe_audio_failure_run audio audio_bytes question msg w
              Hq Hcfg Hbytes Hfail) as (t & g & Hrun & Hin).
  assert (t ≠ "") as Hne.
  { pose proof (proj1 (Forall_forall _ _) bank_transcripts_not_empty question Hq) as Hall.
    by apply (proj1 (Forall_forall _ _) Hall). }
  assert (is_none audio = false) as Hnone by (by destruct audio).
  exists t. unfold transcribe_section.
  set (qid := Py.str (ident question)) in *.
  assert (read_session ("last_audio_" +:+ qid) w = (Ok audio, w)) as Hread
    by (unfold read_session; by rewrite Hla).
  rewrite (bind_ok _ _ _ _ _ Hread), Hnone.
  unfold bind at 1. unfold try_except. unfold bind at 1. rewrite Hrun.
  apply String.eqb_neq in Hne. rewrite Hne. simpl.
  eexists. split; [reflexivity|]. simpl.
  split; [done|]. split; [by rewrite lookup_insert_eq|].
  split; [by rewrite lookup_insert_eq|]. split.
  { rewrite lookup_insert_ne by keys_differ 1%nat. by rewrite lookup_insert_eq. }
  split; [done|]. intros q Hq'. by rewrite lookup_insert_ne.
Qed.

(** ** A transcription that succeeds *)

Lemma transcribe_audio_answered
    (audio_data : SVal) (audio_bytes : list Byte.byte) (question_id : option Z)
    (text : string) (w : World) :
  api_configured w = true →
  get_audio_bytes audio_data = Some audio_bytes →
  whisper audio_bytes = Answered text →
  transcribe_audio whisper audio_data question_id w = (Ok text, w).
Proof.
  intros Hcfg Hbytes Hanswer.
  unfold transcribe_audio, bind, gets, try_except, ret.
  by rewrite Hcfg, Hbytes, Hanswer.
Qed.

(** X24. In live mode a click on the transcription button sends the
    bytes of the held recording to the service. A text that comes back
    and is not empty becomes the answer of the question, the text offered
    for evaluation and the transcript shown, and the run ends in a rerun;
    no message is shown and the other answers are as before. An empty
    text is dropped: nothing is stored. *)
Theorem transcription_click_files_the_transcript
    (question : Question) (audio : SVal) (audio_bytes : list Byte.byte)
    (text : string) (w : World) :
  api_configured w = true →
  session_state w !! ("last_audio_" +:+ Py.str (ident question)) = Some audio →
  get_audio_bytes audio = Some audio_bytes →
  whisper audio_bytes = Answered text →
  (text ≠ "" →
   ∃ w', transcribe_section whisper question ClickTranscribe w = (Raised RerunException, w')
         ∧ answers (progress w') !! Py.str (ident question) = Some text
         ∧ session_state w' !! ("text_answer_" +:+ Py.str (ident question))
           = Some (VStr text)
         ∧ session_state w' !! ("audio_transcript_" +:+ Py.str (ident question))
           = Some (VStr text)
         ∧ errors w' = errors w
         ∧ only_answer_changed (Py.str (ident question)) (progress w) (progress w'))
  ∧ (text = "" →
     (transcribe_section whisper question ClickTranscribe w).2 = w).
Proof.
  intros Hcfg Hla Hbytes Hanswer.
  pose proof (transcribe_audio_answered audio audio_bytes (Some (ident question)) text w
                Hcfg Hbytes Hanswer) as Hrun.
  assert (is_none audio = false) as Hnone by (by destruct audio).
  unfold transcribe_section.
  set (qid := Py.str (ident question)) in *.
  assert (read_session ("last_audio_" +:+ qid) w = (Ok audio, w)) as Hread
    by (unfold read_session; by rewrite Hla).
  rewrite !(bind_ok _ _ _ _ _ Hread), Hnone.
  split.
  - intros Hne. unfold bind at 1. unfold try_except. unfold bind at 1. rewrite Hrun.
    apply String.eqb_neq in Hne. rewrite Hne. simpl.
    eexists. split; [reflexivity|]. simpl.
    split; [by rewrite lookup_insert_eq|]. split; [by rewrite lookup_insert_eq|].
    split.
    { rewrite lookup_insert_ne by keys_differ 1%nat. by rewrite lookup_insert_eq. }
    split; [done|]. repeat split; try done.
    intros q Hq. simpl. by rewrite lookup_insert_ne.
  - intros ->. unfold bind at 1. unfold try_except. unfold bind at 1. rewrite Hrun.
    simpl. unfold bind, ret, read_session.
    by destruct (session_state w !! ("audio_transcript_" +:+ qid)).
Qed.

(** ** Undoing a question *)

Lemma filter_other_ids (qid : string) (l : list string) :
  qid ∉ l → List.filter (λ q, negb (String.eqb q qid)) l = l.
Proof.
  induction l as [|q l IH]; [done|]. intros Hnot. simpl.
  destruct (String.eqb_spec q qid) as [->|Hne]; simpl.
  - exfalso. apply Hnot. by left.
  - rewrite IH; [done|]. intros Hin. apply Hnot. by right.
Qed.

(** X25. Resetting a question undoes what the page has filed for it:
    for a question that had no answer, score, evaluation or completed
    mark, recording an answer, evaluating it and clearing the question
    gives back the progress record from before. *)
Theorem clear_undoes_answer_and_evaluation
    (qid text : string) (eval_data : EvalData) (p : Progress) :
  answers p !! qid = None →
  scores p !! qid = None →
  evaluations p !! qid = None →
  transcripts p !! qid = None →
  qid ∉ completed p →
  clear_progress qid (record_answer qid text p) = p
  ∧ clear_progress qid (record_evaluation qid eval_data (record_answer qid text p)) = p.
Proof.
  intros Ha Hs He Ht Hc. destruct p as [completed scores answers transcripts evaluations].
  simpl in *. unfold clear_progress, record_evaluation, restore_evaluation,
    mark_completed, record_answer, del_if_present. simpl.
  rewrite !lookup_insert_eq, Hs, Ht, He.
  rewrite !delete_insert_id by done.
  rewrite (bool_decide_false (qid ∈ completed)) by done.
  split; [done|].
  rewrite bool_decide_true by (apply elem_of_app; right; by left).
  rewrite List.filter_app, filter_other_ids by done. simpl.
  rewrite String.eqb_refl. simpl. by rewrite app_nil_r.
Qed.

End Properties.

(** * Concrete runs *)

Example parse_response_ex1 :
  parse_response ("SCORE: 85" +:+ nl +:+ "STRENGTHS: a, b ,," +:+ nl +:+ "FEEDBACK: fine")
  = Ok (mkFeedback 85 ["a"; "b"] default_improvements "fine").
Proof. vm_compute. reflexivity. Qed.

Example parse_response_ex2 :
  parse_response ("  SCORE: 8_5/100" +:+ nl +:+ "IMPROVEMENTS:")
  = Ok (mkFeedback 50 default_strengths default_improvements default_feedback).
Proof. vm_compute. reflexivity. Qed.

Example parse_response_last_score_line_wins :
  parse_response ("SCORE: 80" +:+ nl +:+ "SCORE: n/a")
  = Ok (mkFeedback 50 default_strengths default_improvements default_feedback).
Proof. vm_compute. reflexivity. Qed.

Example python_primitives :
  Py.parse_int " +4_2 " = Some 42
  ∧ Py.parse_int "85/100" = None
  ∧ Py.parse_int "4__2" = None
  ∧ Py.parse_int "-7" = Some (-7)
  ∧ Py.str (-12) = "-12"
  ∧ Py.split "," "a,,b" = ["a"; ""; "b"]
  ∧ Py.replace "SCORE:" "" "SCORE: 8SCORE:5" = " 85"
  ∧ Py.strip "  a b  " = "a b"
  ∧ Py.count_words false " to be  or not " = 4%nat.
Proof. vm_compute. repeat split. Qed.

(** A demo session: the answer to question 2 is evaluated; the run ends
    with the rerun, the score lies in 70..90 and the question is
    completed. *)
Example demo_session_evaluates_question_2 :
  let w := mkWorld false {[ "text_answer_2" := VStr "It halves a sorted array." ]}
                   empty_progress (0 : Z) [] in
  ∃ w', show_practice (H:=lcg_source) (λ _, Failed "") (λ _, Failed "") 1 ClickEvaluate w
        = (Raised RerunException, w')
        ∧ completed (progress w') = ["2"]
        ∧ scores (progress w') !! "2" = Some 88
        ∧ answers (progress w') !! "2" = Some "It halves a sorted array.".
Proof. eexists. split; [vm_compute; reflexivity|]. vm_compute. repeat split. Qed.

(** The report on one attempted question that was not evaluated shows
    the status line and no score. *)
Example report_on_unevaluated_question :
  ∃ doc, generate_pdf sample_format_average "2025-01-01 10:00:00" false attempted_progress
         = Ok doc
         ∧ Cell 0 8 "Status: Recorded (Not evaluated) | Category: Algorithms" 0 1 "" ∈ doc
         ∧ Cell 0 10 "Questions Attempted: 1" 0 1 "" ∈ doc
         ∧ Cell 0 10 "Questions Evaluated: 0" 0 1 "" ∈ doc.
Proof.
  eexists. split; [vm_compute; reflexivity|].
  repeat split; apply list_elem_of_In; simpl; tauto.
Qed.

(** ** Instances of the statements *)

Lemma parse_response_degrades_witness :
  ∃ r, parse_response "FEEDBACK: fine" = Ok r
       ∧ score r = 50 ∧ strengths r = default_strengths.
Proof.
  destruct (parse_response_degrades "FEEDBACK: fine")
    as (r & Hr & _ & _ & _ & H50 & _ & _ & _ & Hst & _).
  exists r. split; [exact Hr|]. split; [apply H50|apply Hst]; reflexivity.
Defined.

Lemma demo_feedback_in_range_witness :
  ∃ r w', get_demo_feedback (H:=lcg_source) (question_at 1) (fresh_world false) = (Ok r, w')
          ∧ 70 ≤ score r ≤ 90.
Proof.
  destruct (demo_feedback_in_range (H:=lcg_source) (question_at 1) (fresh_world false))
    as (r & w' & Hr & Heasy & _).
  exists r, w'. split; [exact Hr|]. apply Heasy. reflexivity.
Defined.

(** A reply of the evaluator with a score above 100 is returned as it
    is: the score of [evaluate_with_gpt] is then outside 0..100. *)
Lemma live_score_is_not_clamped :
  ∃ r w', evaluate_with_gpt (H:=lcg_source) (λ _, Answered "SCORE: 150")
            (question_at 1) "Binary search halves the range." (fresh_world true)
          = (Ok r, w')
          ∧ score r = 150 ∧ ¬ (0 ≤ score r ≤ 100).
Proof.
  eexists _, _. split; [vm_compute; reflexivity|].
  split; [reflexivity|]. simpl. lia.
Qed.

Lemma evaluate_score_as_replied_witness :
  ∃ r w', evaluate_with_gpt (H:=lcg_source) (λ _, Answered "SCORE: 85")
            (question_at 1) "Binary search halves the range." (fresh_world true)
          = (Ok r, w')
          ∧ 0 ≤ score r ≤ 100.
Proof.
  destruct (evaluate_score_as_replied (H:=lcg_source) (λ _, Answered "SCORE: 85")
              (question_at 1) "Binary search halves the range." (fresh_world true))
    as (r & w' & Hr & _ & Hrange).
  exists r, w'. split; [exact Hr|]. apply Hrange.
  intros response_text [= <-]. change (0 ≤ 85 ≤ 100). lia.
Defined.

Lemma transcribe_audio_absorbs_failure_witness :
  ∃ transcript w',
    transcribe_audio (H:=lcg_source) (λ _, Failed "connection refused")
      (VBytes [Byte.x52; Byte.x49]) (Some 2) (fresh_world true)
    = (Ok transcript, w')
    ∧ transcript ∈ demo_transcripts (question_at 1)
    ∧ errors w' = ["Transcription error: connection refused"].
Proof.
  destruct (transcribe_audio_absorbs_failure (H:=lcg_source)
              (λ _, Failed "connection refused") (VBytes [Byte.x52; Byte.x49])
              (Some 2) "connection refused" (fresh_world true))
    as (t & w' & Hrun & _ & Hin & Herr & _).
  - reflexivity.
  - right. exists [Byte.x52; Byte.x49]. split; reflexivity.
  - exists t, w'. split; [exact Hrun|]. split; [|exact Herr].
    apply (Hin 2); [reflexivity|lia].
Defined.

(** A transcription without a question id that fails in live mode: the
    text returned is a demo transcript of no question of the bank and
    none of the sentences by category. *)
Lemma failed_transcription_without_question_id :
  ∃ w',
    transcribe_audio (H:=lcg_source) (λ _, Failed "connection refused")
      (VBytes [Byte.x52; Byte.x49]) None (fresh_world true)
    = (Ok "Error in transcription. Please try again.", w')
    ∧ Forall (λ q, "Error in transcription. Please try again." ∉ demo_transcripts q)
             QUESTIONS
    ∧ ∀ category,
        generic_transcript category ≠ Some "Error in transcription. Please try again.".
Proof.
  eexists. split; [reflexivity|]. split.
  - apply (bool_decide_unpack
             (Forall (λ q, "Error in transcription. Please try again."
                           ∉ demo_transcripts q) QUESTIONS)).
    by vm_compute.
  - intros category. unfold generic_transcript.
    repeat (destruct (String.eqb category _); [discriminate|]). discriminate.
Qed.

(** A blank answer handed to [evaluate_with_gpt] is not rejected: a
    score and the evaluation detail come back. *)
Lemma blank_answer_is_scored :
  Py.strip "   " = ""
  ∧ evaluate_with_gpt (H:=lcg_source) (λ _, Failed "unused") (question_at 1) "   "
      (fresh_world false)
    = (Ok (mkFeedback 88 ["Clear explanation"; "Good structure"]
             ["Add more examples"; "Be more concise"]
             "You explained the concept but need more detail. Add complexity analysis and implementation details."),
       mkWorld false ∅ empty_progress (12345 : Z) []).
Proof. split; [reflexivity|]. vm_compute. reflexivity. Qed.

Lemma blank_answer_is_gated_by_the_page_witness :
  (∃ r w', evaluate_with_gpt (H:=lcg_source) (λ _, Failed "unused") (question_at 1) "   "
             (fresh_world false) = (Ok r, w'))
  ∧ evaluate_section (H:=lcg_source) (λ _, Failed "unused") (question_at 1) "   "
      ClickEvaluate (fresh_world false)
    = (Ok tt, fresh_world false).
Proof.
  destruct (blank_answer_is_gated_by_the_page (H:=lcg_source) (λ _, Failed "unused")
              (question_at 1) "   " ClickEvaluate (fresh_world false))
    as (Hscored & _ & Hgate).
  - reflexivity.
  - split; [exact Hscored|exact Hgate].
Defined.

Lemma completed_questions_have_results_witness :
  completed_have_results
    (record_evaluation "2" sample_evaluation
       (record_answer "2" "It halves a sorted array." empty_progress)).
Proof.
  apply completed_questions_have_results.
  apply reach_record_evaluation, reach_record_answer, reach_start.
Defined.

(** Two runs of [generate_pdf] on the same progress record, one second
    apart, return different documents. *)
Lemma report_depends_on_the_clock :
  generate_pdf sample_format_average "2025-01-01 10:00:00" false attempted_progress
  ≠ generate_pdf sample_format_average "2025-01-01 10:00:01" false attempted_progress.
Proof. vm_compute. intros E. discriminate E. Qed.

Lemma cached_evaluation_survives_clear_witness :
  ∃ w1 w2,
    clear_question_data "2" world_with_cached_evaluation = (Ok true, w1)
    ∧ session_state w1 !! "evaluation_2" = Some (VEval sample_evaluation)
    ∧ practice_page (H:=lcg_source) (λ _, Failed "") (λ _, Failed "") (question_at 1)
        NoEvent w1 = (Ok tt, w2)
    ∧ evaluations (progress w2) !! "2" = Some sample_evaluation
    ∧ scores (progress w2) !! "2" = None
    ∧ "2" ∉ completed (progress w2).
Proof.
  destruct (cached_evaluation_survives_clear (H:=lcg_source) (λ _, Failed "") (λ _, Failed "")
              (question_at 1) sample_evaluation world_with_cached_evaluation)
    as (w1 & w2 & Hclear & _ & _ & Hkept & _ & Hpage & Hev & Hsc & Hco).
  - reflexivity.
  - exists w1, w2. repeat split; assumption.
Defined.

(** ** Instances of the further properties *)

(** The sample session: question 2 is answered with the transcript and
    evaluated in demo fashion after the evaluator failed. *)
Example sample_session_contents :
  api_configured sample_session = true
  ∧ completed (progress sample_session) = ["2"]
  ∧ answers (progress sample_session) !! "2" = Some "It halves a sorted array."
  ∧ errors sample_session = ["GPT Evaluation error: timeout"].
Proof. vm_compute. repeat split. Qed.

Lemma evaluate_with_gpt_absorbs_failure_witness :
  ∃ r w',
    evaluate_with_gpt (H:=lcg_source) sample_chat (question_at 1) "It halves." (fresh_world true)
    = (Ok r, w')
    ∧ errors w' = ["GPT Evaluation error: timeout"]
    ∧ 70 ≤ score r ≤ 90.
Proof.
  destruct (evaluate_with_gpt_absorbs_failure (H:=lcg_source) sample_chat
              (question_at 1) "It halves." "timeout" (fresh_world true))
    as (r & w' & Hrun & Herr & _ & _ & Hscore & _).
  - reflexivity.
  - reflexivity.
  - exists r, w'. split; [exact Hrun|]. split; [exact Herr|exact Hscore].
Defined.

Lemma transcribe_audio_in_demo_mode_witness :
  ∃ transcript w',
    transcribe_audio (H:=lcg_source) sample_whisper (VBytes [Byte.x52]) (Some 2)
      (fresh_world false)
    = (Ok transcript, w')
    ∧ transcript ∈ demo_transcripts (question_at 1).
Proof.
  destruct (transcribe_audio_in_demo_mode (H:=lcg_source) sample_whisper
              (VBytes [Byte.x52]) (question_at 1) (fresh_world false))
    as (t & w' & Hrun & Hin & _).
  - apply list_elem_of_In. simpl. right. left. reflexivity.
  - reflexivity.
  - exists t, w'. split; [exact Hrun|exact Hin].
Defined.

Lemma transcribe_audio_without_question_witness :
  transcribe_audio (H:=lcg_source) sample_whisper (VBytes [Byte.x52]) None (fresh_world false)
  = (Ok "API not configured. Please add OpenAI API key to enable transcription.",
     fresh_world false).
Proof.
  apply (transcribe_audio_without_question (H:=lcg_source) sample_whisper
           (VBytes [Byte.x52]) None (fresh_world false)); reflexivity.
Defined.

Lemma reply_without_labels_gives_defaults_witness :
  ∃ r, parse_response "The answer is fine." = Ok r ∧ score r = 50.
Proof.
  eexists. split.
  - apply (reply_without_labels_gives_defaults "The answer is fine.").
    vm_compute. repeat constructor.
  - reflexivity.
Defined.

Lemma score_reply_round_trip_witness :
  ∃ r, parse_response "SCORE: 85" = Ok r ∧ score r = 85.
Proof. apply (score_reply_round_trip 85). lia. Defined.

Lemma sample_session_reachable :
  session_reachable (H:=lcg_source) sample_whisper sample_chat sample_format_average
    sample_session.
Proof.
  unfold sample_session, sample_run. cbn [foldl].
  repeat apply session_run. apply session_fresh.
Qed.

Lemma session_progress_is_consistent_witness :
  NoDup (completed (progress sample_session))
  ∧ (∀ q, q ∈ completed (progress sample_session)
          ↔ is_Some (scores (progress sample_session) !! q))
  ∧ (∀ q s, scores (progress sample_session) !! q = Some s →
            ∃ e, evaluations (progress sample_session) !! q = Some e
                 ∧ overall_score e = s)
  ∧ (∀ q, q ∈ completed (progress sample_session) →
          is_Some (answers (progress sample_session) !! q))
  ∧ (∀ q, is_Some (answers (progress sample_session) !! q) → q ∈ bank_ids)
  ∧ transcripts (progress sample_session) = ∅.
Proof.
  apply (session_progress_is_consistent (H:=lcg_source)
           sample_whisper sample_chat sample_format_average).
  unfold sample_session, sample_run. cbn [foldl].
  repeat apply session_run. apply session_fresh.
Defined.

Lemma session_counts_agree_witness :
  completed_count (summary (progress sample_session))
  = size (scores (progress sample_session))
  ∧ (completed_count (summary (progress sample_session))
     ≤ attempted_count (summary (progress sample_session)))%nat
  ∧ (attempted_count (summary (progress sample_session)) ≤ length QUESTIONS)%nat.
Proof.
  apply (session_counts_agree (H:=lcg_source)
           sample_whisper sample_chat sample_format_average).
  unfold sample_session, sample_run. cbn [foldl].
  repeat apply session_run. apply session_fresh.
Defined.

Lemma live_mode_requirements_witness :
  api_configured (sample_run env_setup (fresh_world false) (page_inputs Home NoClick)) = true.
Proof.
  apply (live_mode_requirements (H:=lcg_source) sample_whisper sample_chat
           sample_format_average env_setup (page_inputs Home NoClick) (fresh_world false)).
  - reflexivity.
  - exists "sk-test". repeat split; try reflexivity. discriminate.
Defined.

Lemma live_sidebar_needs_the_secrets_store_witness :
  ∃ w', script (H:=lcg_source) sample_whisper sample_chat sample_format_average
          no_secrets_setup (page_inputs Home NoClick) (fresh_world false)
        = (Raised (Exception "No secrets file found"), w')
        ∧ progress w' = empty_progress.
Proof.
  destruct (live_sidebar_needs_the_secrets_store (H:=lcg_source) sample_whisper sample_chat
              sample_format_average no_secrets_setup (page_inputs Home NoClick)
              (fresh_world false) (Exception "No secrets file found"))
    as (w' & Hrun & Hp & _).
  - reflexivity.
  - reflexivity.
  - exists w'. split; [exact Hrun|exact Hp].
Defined.

Lemma other_pages_keep_progress_witness :
  progress (sample_run env_setup sample_session (page_inputs Dashboard ClickGenerateReport))
  = progress sample_session.
Proof.
  apply (other_pages_keep_progress (H:=lcg_source) sample_whisper sample_chat
           sample_format_average env_setup (page_inputs Dashboard ClickGenerateReport)
           sample_session).
  - discriminate.
  - reflexivity.
Defined.

Lemma clear_question_data_reaches_longer_ids_witness :
  session_state world_with_recording_10 !! "last_audio_10"
  = Some (VUploadedFile [Byte.x52; Byte.x49])
  ∧ session_state (clear_question_data "1" world_with_recording_10).2
      !! ("last_audio_1" +:+ "0") = None.
Proof.
  split; [reflexivity|].
  apply (clear_question_data_reaches_longer_ids (H:=lcg_source) "1" "last_audio_1" "0"
           world_with_recording_10).
  apply list_elem_of_In. simpl. right. right. left. reflexivity.
Defined.

Lemma report_lists_the_attempted_questions_witness :
  ∃ l, attempted_questions (progress sample_session) = Ok l
       ∧ l.*1 ≡ₚ (map_to_list (answers (progress sample_session))).*1
       ∧ Forall (λ e, e.2 ∈ QUESTIONS ∧ Py.str (ident e.2) = e.1) l
       ∧ StronglySorted Z.le (ident <$> l.*2).
Proof.
  apply (report_lists_the_attempted_questions (H:=lcg_source)
           sample_whisper sample_chat sample_format_average).
  unfold sample_session, sample_run. cbn [foldl].
  repeat apply session_run. apply session_fresh.
Defined.

Lemma report_is_drawn_in_a_session_witness :
  ∃ doc, generate_pdf sample_format_average "2025-01-01 10:00:00"
           (api_configured sample_session) (progress sample_session) = Ok doc
    ∧ length doc
      = (22 + (if decide (scores (progress sample_session) = ∅) then 0 else 3)
         + 7 * size (answers (progress sample_session)))%nat.
Proof.
  apply (report_is_drawn_in_a_session (H:=lcg_source)
           sample_whisper sample_chat sample_format_average).
  - unfold sample_session, sample_run. cbn [foldl].
    repeat apply session_run. apply session_fresh.
  - intros _. eexists. reflexivity.
Defined.

Lemma score_distribution_misses_80_to_89_witness :
  score_distribution [85; 40; 95] = score_distribution [40; 95].
Proof. apply (score_distribution_misses_80_to_89 [40; 95]). lia. Defined.

Lemma nothing_is_recorded_without_a_key_witness :
  api_configured keyless_session = false
  ∧ progress keyless_session = empty_progress
  ∧ summary (progress keyless_session) = mkSummary 0 0 None
  ∧ ∀ qid, ∃ w', get_text ("text_answer_" +:+ qid) keyless_session = (Ok "", w').
Proof.
  apply (nothing_is_recorded_without_a_key (H:=lcg_source)
           sample_whisper sample_chat sample_format_average).
  unfold keyless_session, sample_run. cbn [foldl].
  repeat (apply never_live_run; [|reflexivity]). apply never_live_fresh.
Defined.


Lemma transcription_handler_of_the_page_is_dead_witness :
  "Transcription failed: " +:+ "timeout" ∉ errors sample_session.
Proof.
  apply (transcription_handler_of_the_page_is_dead (H:=lcg_source)
           sample_whisper sample_chat sample_format_average).
  unfold sample_session, sample_run. cbn [foldl].
  repeat apply session_run. apply session_fresh.
Defined.

Lemma evaluation_click_completes_the_question_witness :
  ∃ ai w',
    evaluate_section (H:=lcg_source) sample_chat (question_at 1)
      "It halves a sorted array." ClickEvaluate (fresh_world false)
    = (Raised RerunException, w')
    ∧ Py.str (ident (question_at 1)) ∈ completed (progress w')
    ∧ scores (progress w') !! Py.str (ident (question_at 1)) = Some (score ai).
Proof.
  destruct (evaluation_click_completes_the_question (H:=lcg_source) sample_chat
              (question_at 1) "It halves a sorted array." (fresh_world false))
    as (ai & w1 & w' & _ & Hrun & Hdone & Hscore & _).
  - reflexivity.
  - exists ai, w'. split; [exact Hrun|]. split; [exact Hdone|exact Hscore].
Defined.

Lemma dashboard_history_shows_the_last_three_witness :
  ∃ l, answer_history (progress sample_session) = Ok l
       ∧ length l = (3 `min` size (answers (progress sample_session)))%nat.
Proof.
  destruct (dashboard_history_shows_the_last_three (H:=lcg_source)
              sample_whisper sample_chat sample_format_average sample_session)
    as (l & Hl & Hlen & _).
  - unfold sample_session, sample_run. cbn [foldl].
    repeat apply session_run. apply session_fresh.
  - exists l. split; [exact Hl|exact Hlen].
Defined.

Lemma failed_transcription_files_a_demo_answer_witness :
  ∃ t w',
    transcribe_section (H:=lcg_source) failing_whisper (question_at 1) ClickTranscribe
      world_with_recording_2
    = (Raised RerunException, w')
    ∧ t ∈ demo_transcripts (question_at 1)
    ∧ answers (progress w') !! Py.str (ident (question_at 1)) = Some t
    ∧ errors w' = ["Transcription error: connection refused"].
Proof.
  destruct (failed_transcription_files_a_demo_answer (H:=lcg_source) failing_whisper
              (question_at 1) (VUploadedFile [Byte.x52; Byte.x49]) [Byte.x52; Byte.x49]
              "connection refused" world_with_recording_2)
    as (t & w' & Hrun & Hin & Hans & _ & _ & Herr & _).
  - apply list_elem_of_In. simpl. right. left. reflexivity.
  - reflexivity.
  - reflexivity.
  - reflexivity.
  - reflexivity.
  - exists t, w'. split; [exact Hrun|]. split; [exact Hin|]. split; [exact Hans|exact Herr].
Defined.

Lemma transcription_click_files_the_transcript_witness :
  ∃ w', transcribe_section (H:=lcg_source) sample_whisper (question_at 1) ClickTranscribe
          world_with_recording_2
        = (Raised RerunException, w')
        ∧ answers (progress w') !! Py.str (ident (question_at 1))
          = Some "It halves a sorted array.".
Proof.
  destruct (transcription_click_files_the_transcript (H:=lcg_source) sample_whisper
              (question_at 1) (VUploadedFile [Byte.x52; Byte.x49]) [Byte.x52; Byte.x49]
              "It halves a sorted array." world_with_recording_2) as [Hstored _].
  - reflexivity.
  - reflexivity.
  - reflexivity.
  - reflexivity.
  - destruct Hstored as (w' & Hrun & Hans & _); [discriminate|].
    exists w'. split; [exact Hrun|exact Hans].
Defined.

Lemma clear_undoes_answer_and_evaluation_witness :
  clear_progress "2" (record_answer "2" "It halves a sorted array." empty_progress)
  = empty_progress
  ∧ clear_progress "2"
      (record_evaluation "2" sample_evaluation
         (record_answer "2" "It halves a sorted array." empty_progress))
    = empty_progress.
Proof.
  apply (clear_undoes_answer_and_evaluation "2" "It halves a sorted array."
           sample_evaluation empty_progress); try reflexivity.
  simpl. apply not_elem_of_nil.
Defined.
